(** * Document index manager: parse cache and index registry

    A shallow embedding of [DocumentIndexManager] (the TypeScript class that
    turns a PDF into a vector index, persists the parse under
    [documents/parsed/<name>/] and keeps a map of ready indices), together
    with the properties its specification states about it.

    Conventions of the embedding.
    - JavaScript values that flow through [any]-typed positions are terms of
      [JsVal]; objects are association lists in property order.
    - Path strings are represented by the list of segments of the normalized
      absolute path that [path.join (process.cwd ()) ...] returns; a trailing
      separator is not represented.
    - A file holds either JSON text, represented by the value [JSON.parse]
      returns on it, or other text, on which [JSON.parse] throws.
    - Asynchronous methods are state-and-exception passing functions over a
      [World]; every external call (file system, parser service, index
      builder) appends an [Event] to the world's trace.  Console output is not
      modelled.
    - The collaborators that live outside the repository are fields of
      [Env].  The parser service, the index builder, the clock and the UUID
      source are indexed by the number of external calls made so far, so that
      two calls with the same arguments may answer differently; the
      constructors of the LLM and of the embedding model take no input that
      changes and are fixed for the process.
    - Engine limits (call stack, memory) are not modelled. *)

From Stdlib Require Import ZArith String Ascii List Bool Lia.
From stdpp Require Import base option list strings gmap fin_maps.
Import ListNotations.
Local Open Scope string_scope.
Local Open Scope Z_scope.
Set Warnings "-register-all".

(** ** Strings: the fragments of [String.prototype] the manager uses *)

Module JsString.

Definition slash : ascii := "/"%char.
Definition dot : ascii := "."%char.

(** [s.split(sep)] for a one-character separator: never the empty array. *)
Fixpoint split (sep : ascii) (s : string) : list string :=
  match s with
  | EmptyString => [EmptyString]
  | String c s' =>
      if Ascii.eqb c sep then EmptyString :: split sep s'
      else match split sep s' with
           | x :: xs => String c x :: xs
           | [] => [String c EmptyString]
           end
  end.

(** [arr.pop()] on the result of [split], which always has a last element. *)
Definition pop (l : list string) : string := List.last l EmptyString.

(** The tail [[^/.]+$]: one or more characters, none of them a slash or a
    dot, up to the end of the string. *)
Fixpoint ext_tail (s : string) : bool :=
  match s with
  | EmptyString => false
  | String c s' =>
      negb (Ascii.eqb c slash) && negb (Ascii.eqb c dot)
      && match s' with EmptyString => true | _ => ext_tail s' end
  end.

(** [s.replace(/\.[^/.]+$/, "")]: the leftmost position at which the
    pattern matches is cut off together with everything after it. *)
Fixpoint strip_extension (s : string) : string :=
  match s with
  | EmptyString => EmptyString
  | String c s' =>
      if Ascii.eqb c dot && ext_tail s' then EmptyString
      else String c (strip_extension s')
  end.

(** ASCII white space as removed by [trim]. *)
Definition is_space (c : ascii) : bool :=
  let n := nat_of_ascii c in
  (Nat.eqb n 32 || (Nat.leb 9 n && Nat.leb n 13))%bool.

(** [s.trim()] is the empty string. *)
Fixpoint blank (s : string) : bool :=
  match s with
  | EmptyString => true
  | String c s' => is_space c && blank s'
  end.

Definition lower (c : ascii) : ascii :=
  let n := nat_of_ascii c in
  if (Nat.leb 65 n && Nat.leb n 90)%bool then ascii_of_nat (n + 32) else c.

(** [s.toLowerCase()] on the ASCII letters. *)
Fixpoint toLowerCase (s : string) : string :=
  match s with
  | EmptyString => EmptyString
  | String c s' => String (lower c) (toLowerCase s')
  end.

(** [s.includes(sub)] *)
Fixpoint includes (s sub : string) : bool :=
  String.prefix sub s
  || match s with
     | EmptyString => false
     | String _ s' => includes s' sub
     end.

End JsString.

(** ** Paths: [path.join] *)

Module Path.

(** A normalized absolute path, as its list of segments. *)
Abbreviation t := (list string) (only parsing).

(** One segment pushed on a normalized prefix kept in reverse. *)
Definition push (rstack : list string) (seg : string) : list string :=
  if decide (seg = "") then rstack
  else if decide (seg = ".") then rstack
  else if decide (seg = "..") then List.tl rstack
  else seg :: rstack.

Definition normalize (segs : list string) : t :=
  List.rev (List.fold_left push segs []).

(** [path.join(p1, ..., pn)] with [p1] absolute. *)
Definition join (parts : list string) : t :=
  normalize (List.concat (List.map (JsString.split JsString.slash) parts)).

End Path.

(** ** The cache location of a document *)

Record ParsedPaths := {
  documentsPath : Path.t;
  metadataPath : Path.t;
  parsedDir : Path.t
}.

(** The base file name the cache directory is derived from:
    [documentPath.split("/").pop()?.replace(/\.[^/.]+$/, "") || "document"]. *)
Definition fileName (documentPath : string) : string :=
  let stem :=
    JsString.strip_extension
      (JsString.pop (JsString.split JsString.slash documentPath)) in
  if decide (stem = "") then "document" else stem.

Definition getParsedPaths (cwd : string) (documentPath : string) : ParsedPaths :=
  let dir := [cwd; "documents"; "parsed"; fileName documentPath] in
  {| documentsPath := Path.join (dir ++ ["documents.json"]);
     metadataPath := Path.join (dir ++ ["metadata.json"]);
     parsedDir := Path.join dir |}.

(** ** JavaScript data *)

(** A number: a finite double [m * 2^e], [NaN], or an infinity. *)
Inductive JsNum :=
| NFin (m e : Z)
| NNaN
| NInf (negative : bool).

Inductive JsVal :=
| JUndef
| JNull
| JBool (b : bool)
| JNum (n : JsNum)
| JStr (s : string)
| JArr (items : list JsVal)
| JObj (props : list (string * JsVal)).

Module Js.

Definition is_finite (n : JsNum) : bool :=
  match n with NFin _ _ => true | _ => false end.

(** [!!v] *)
Definition truthy (v : JsVal) : bool :=
  match v with
  | JUndef | JNull => false
  | JBool b => b
  | JNum (NFin m _) => negb (m =? 0)
  | JNum NNaN => false
  | JNum (NInf _) => true
  | JStr s => negb (String.eqb s "")
  | JArr _ | JObj _ => true
  end.

(** [a || b] *)
Definition or (a b : JsVal) : JsVal := if truthy a then a else b.

Definition nullish (v : JsVal) : bool :=
  match v with JUndef | JNull => true | _ => false end.

(** [a ?? b] *)
Definition coalesce (a b : JsVal) : JsVal := if nullish a then b else a.

Definition of_nat (n : nat) : JsVal := JNum (NFin (Z.of_nat n) 0).
Definition of_Z (z : Z) : JsVal := JNum (NFin z 0).

(** Property order of an object: the first binding of a key is the one
    that counts. *)
Fixpoint lookup (k : string) (props : list (string * JsVal)) : option JsVal :=
  match props with
  | [] => None
  | (k', v) :: rest => if String.eqb k k' then Some v else lookup k rest
  end.

(** [{ ...props, k: v }]: an existing key keeps its place and takes the
    new value, a new key goes last. *)
Fixpoint set (k : string) (v : JsVal) (props : list (string * JsVal))
  : list (string * JsVal) :=
  match props with
  | [] => [(k, v)]
  | (k', v') :: rest =>
      if String.eqb k k' then (k', v) :: rest else (k', v') :: set k v rest
  end.

(** Decimal rendering of an array index, as used for property keys. *)
Definition digit (n : nat) : ascii := ascii_of_nat (48 + n).

Fixpoint decimal_aux (fuel n : nat) (acc : string) : string :=
  match fuel with
  | O => acc
  | S fuel' =>
      let acc' := String (digit (Nat.modulo n 10)) acc in
      if Nat.ltb n 10 then acc' else decimal_aux fuel' (Nat.div n 10) acc'
  end.

Definition decimal (n : nat) : string := decimal_aux (S n) n EmptyString.

Fixpoint indexed {A} (i : nat) (l : list A) : list (string * A) :=
  match l with
  | [] => []
  | x :: rest => (decimal i, x) :: indexed (S i) rest
  end.

Fixpoint chars (s : string) : list JsVal :=
  match s with
  | EmptyString => []
  | String c s' => JStr (String c EmptyString) :: chars s'
  end.

(** The own enumerable properties copied by [{ ...v }]. *)
Definition own_props (v : JsVal) : list (string * JsVal) :=
  match v with
  | JObj props => props
  | JArr items => indexed 0 items
  | JStr s => indexed 0 (chars s)
  | _ => []
  end.

(** [v.length] for [v] neither [null] nor [undefined]. *)
Definition length_of (v : JsVal) : JsVal :=
  match v with
  | JArr items => of_nat (List.length items)
  | JStr s => of_nat (String.length s)
  | JObj props => default JUndef (lookup "length" props)
  | _ => JUndef
  end.

(** [v[k]] for a key [k] other than ["length"], where [v] is neither
    [null] nor [undefined]: data carries no inherited property of the
    names the manager reads. *)
Definition field (v : JsVal) (k : string) : JsVal :=
  match v with
  | JObj props => default JUndef (lookup k props)
  | _ => JUndef
  end.

End Js.

(** *** What [JSON.stringify] keeps *)

Module Json.

(** A member whose value is [undefined] is left out of an object. *)
Definition kept (v : JsVal) : bool :=
  match v with JUndef => false | _ => true end.

(** The value [JSON.parse (JSON.stringify v)] for [v] other than
    [undefined]: [undefined] members are dropped, [undefined] array
    elements and numbers that are not finite become [null]. *)
Fixpoint image (v : JsVal) : JsVal :=
  match v with
  | JUndef => JNull
  | JNum n => if Js.is_finite n then JNum n else JNull
  | JArr items => JArr (List.map image items)
  | JObj props =>
      JObj ((fix members (l : list (string * JsVal)) :=
               match l with
               | [] => []
               | (k, x) :: rest =>
                   if kept x then (k, image x) :: members rest
                   else members rest
               end) props)
  | _ => v
  end.

Definition members : list (string * JsVal) -> list (string * JsVal) :=
  fix members (l : list (string * JsVal)) :=
    match l with
    | [] => []
    | (k, x) :: rest =>
        if kept x then (k, image x) :: members rest else members rest
    end.


End Json.

(** ** Exceptions and results *)

Inductive Exn :=
| Error (message : string)          (* [new Error(message)] *)
| TypeError                         (* property of null, call of a non-function *)
| SyntaxError                       (* [JSON.parse] on text that is not JSON *)
| SystemError (code : string)       (* a rejected [fs] call *)
| ServiceError (tag : nat).         (* thrown by an external collaborator *)

Inductive Res (A : Type) :=
| Ok (a : A)
| Throw (e : Exn).
Arguments Ok {A} a.
Arguments Throw {A} e.

(** The failure of [prepareIndex] on a document without content. *)
Definition EmptyDocument : Exn :=
  Error "No content could be extracted from the document".

(** The failure of [loadParsedDocuments]. *)
Definition CacheCorrupt : Exn := Error "Failed to load pre-parsed documents".

Definition EmbeddingInitFailed : Exn :=
  Error "Could not initialize embedding model. Please check your HuggingFace configuration.".

(** ** Documents and indices *)

(** A llamaindex [Document], by the three fields the manager reads and
    writes. *)
Record Document := {
  id_ : JsVal;
  text : JsVal;
  metadata : JsVal
}.

(** A [VectorStoreIndex]: an identity, fresh for every build, and the
    documents it was built from. *)
Record VectorStoreIndex := {
  index_id : nat;
  index_docs : list Document
}.

(** ** File system *)

Inductive FileData :=
| JsonText (value : JsVal)
| OtherText (bytes : string).

Inductive Node :=
| NFile (data : FileData) (size mtime : Z)
| NDir (mtime : Z).

Record Stats := {
  st_size : Z;
  st_mtime : Z
}.

Definition node_stats (n : Node) : Stats :=
  match n with
  | NFile _ size mtime => {| st_size := size; st_mtime := mtime |}
  | NDir mtime => {| st_size := 0; st_mtime := mtime |}
  end.

(** ** Events, the world, and the environment *)

Inductive Event :=
| EStat (p : Path.t)
| EReadFile (p : Path.t)
| EMkdir (p : Path.t)
| EWriteFile (p : Path.t)
| ELoadJson (file : Path.t)          (* [LlamaParseReader.loadJson] *)
| ELoadData (file : Path.t)          (* [LlamaParseReader.loadData] *)
| EFromDocuments (docs : list Document).  (* [VectorStoreIndex.fromDocuments] *)

Record World := {
  fs : gmap (list string) Node;
  documentIndices : gmap string VectorStoreIndex;
  settings_configured : bool;
  ticks : nat;
  trace : list Event
}.

Record Env := {
  (** [process.cwd()] *)
  cwd : string;
  (** the time at which the n-th external call completes *)
  clock : nat -> Z;
  (** [randomUUID()] *)
  uuid : nat -> string;
  (** paths on which every [fs] call is rejected *)
  fs_denied : Path.t -> bool;
  (** byte length of [JSON.stringify(v, null, 2)] *)
  rendered_size : JsVal -> Z;
  (** [date.toISOString()] *)
  toISOString : Z -> string;
  (** [v > 0] for [v] not a number, a boolean, [null] or [undefined] *)
  coerced_gt0 : JsVal -> bool;
  (** [new DeepSeekLLM({...})]: the exception it throws, if any *)
  deepseek_init : option Exn;
  (** [new HuggingFaceEmbedding()]: whether it returns *)
  huggingface_init : bool;
  (** [new LlamaParseReader({...}).loadJson(file)] *)
  llama_loadJson : nat -> Path.t -> Res (list JsVal);
  (** [new LlamaParseReader({...}).loadData(file)] *)
  llama_loadData : nat -> Path.t -> Res (list Document);
  (** [VectorStoreIndex.fromDocuments(docs)]: the exception it throws, if any *)
  embed_documents : nat -> list Document -> option Exn
}.

(** ** The monad of asynchronous methods *)

Definition M (A : Type) : Type := World -> Res A * World.

Definition ret {A} (a : A) : M A := fun w => (Ok a, w).

Definition bind {A B} (m : M A) (k : A -> M B) : M B :=
  fun w => match m w with
           | (Ok a, w') => k a w'
           | (Throw e, w') => (Throw e, w')
           end.

Definition throw {A} (e : Exn) : M A := fun w => (Throw e, w).

(** [try { m } catch (e) { handler e }] *)
Definition try_catch {A} (m : M A) (handler : Exn -> M A) : M A :=
  fun w => match m w with
           | (Ok a, w') => (Ok a, w')
           | (Throw e, w') => handler e w'
           end.

Definition of_res {A} (r : Res A) : M A := fun w => (r, w).

Definition get_world : M World := fun w => (Ok w, w).

Definition emit (ev : Event) : M unit :=
  fun w => (Ok tt, {| fs := fs w; documentIndices := documentIndices w;
                      settings_configured := settings_configured w;
                      ticks := ticks w; trace := trace w ++ [ev] |}).

(** The index of an external call; the counter advances. *)
Definition tick : M nat :=
  fun w => (Ok (ticks w),
            {| fs := fs w; documentIndices := documentIndices w;
               settings_configured := settings_configured w;
               ticks := S (ticks w); trace := trace w |}).

Definition put_fs (f : gmap (list string) Node) : M unit :=
  fun w => (Ok tt, {| fs := f; documentIndices := documentIndices w;
                      settings_configured := settings_configured w;
                      ticks := ticks w; trace := trace w |}).

Definition put_indices (m : gmap string VectorStoreIndex) : M unit :=
  fun w => (Ok tt, {| fs := fs w; documentIndices := m;
                      settings_configured := settings_configured w;
                      ticks := ticks w; trace := trace w |}).

Definition put_configured (b : bool) : M unit :=
  fun w => (Ok tt, {| fs := fs w; documentIndices := documentIndices w;
                      settings_configured := b;
                      ticks := ticks w; trace := trace w |}).

Declare Scope js_scope.
Delimit Scope js_scope with js.
Notation "x <- c1 ;; c2" := (bind c1 (fun x => c2))
  (at level 100, c1 at next level, right associativity) : js_scope.
Notation "c1 ;;; c2" := (bind c1 (fun _ => c2))
  (at level 100, right associativity) : js_scope.
Notation "'try' m 'catch' h" := (try_catch m h)
  (at level 100, m at next level, h at next level) : js_scope.
Local Open Scope js_scope.

(** [Promise.all([a, b])]: both calls are made; the first rejection, if
    any, is the outcome. *)
Definition all2 {A B} (a : M A) (b : M B) : M (A * B) :=
  fun w =>
    let '(ra, w1) := a w in
    let '(rb, w2) := b w1 in
    match ra, rb with
    | Ok x, Ok y => (Ok (x, y), w2)
    | Throw e, _ => (Throw e, w2)
    | _, Throw e => (Throw e, w2)
    end.

Definition all3 {A B C} (a : M A) (b : M B) (c : M C) : M (A * B * C) :=
  fun w =>
    let '(ra, w1) := a w in
    let '(rb, w2) := b w1 in
    let '(rc, w3) := c w2 in
    match ra, rb, rc with
    | Ok x, Ok y, Ok z => (Ok (x, y, z), w3)
    | Throw e, _, _ => (Throw e, w3)
    | _, Throw e, _ => (Throw e, w3)
    | _, _, Throw e => (Throw e, w3)
    end.

(** [arr.map(f)] with an [f] that may throw. *)
Fixpoint map_m {A B} (f : A -> M B) (l : list A) : M (list B) :=
  match l with
  | [] => ret []
  | x :: rest => (y <- f x ;; ys <- map_m f rest ;; ret (y :: ys))
  end.

(** [for (const x of l) body(x)] *)
Fixpoint for_each {A} (body : A -> M unit) (l : list A) : M unit :=
  match l with
  | [] => ret tt
  | x :: rest => (body x ;;; for_each body rest)
  end.

(** ** The manager *)

Section Manager.

Variable env : Env.

(** *** [fs/promises] *)

Definition guard (p : Path.t) : M unit :=
  if fs_denied env p then throw (SystemError "EACCES") else ret tt.

(** The root always exists. *)
Definition node_at (f : gmap (list string) Node) (p : Path.t) : option Node :=
  match p with
  | [] => Some (NDir 0)
  | _ => f !! p
  end.

Definition stat (p : Path.t) : M Stats :=
  emit (EStat p) ;;;
  guard p ;;;
  w <- get_world ;;
  match node_at (fs w) p with
  | Some n => ret (node_stats n)
  | None => throw (SystemError "ENOENT")
  end.

(** [readFile(p, "utf-8")] *)
Definition readFile (p : Path.t) : M FileData :=
  emit (EReadFile p) ;;;
  guard p ;;;
  w <- get_world ;;
  match node_at (fs w) p with
  | Some (NFile data _ _) => ret data
  | Some (NDir _) => throw (SystemError "EISDIR")
  | None => throw (SystemError "ENOENT")
  end.

(** The directories [mkdir(p, { recursive: true })] creates below [above];
    a file in the way makes it fail. *)
Fixpoint make_dirs (now : Z) (above below : list string)
    (f : gmap (list string) Node) : option (gmap (list string) Node) :=
  match below with
  | [] => Some f
  | seg :: rest =>
      let p := (above ++ [seg])%list in
      match f !! p with
      | Some (NFile _ _ _) => None
      | Some (NDir _) => make_dirs now p rest f
      | None => make_dirs now p rest (<[p := NDir now]> f)
      end
  end.

(** [mkdir(p, { recursive: true })] *)
Definition mkdir (p : Path.t) : M unit :=
  emit (EMkdir p) ;;;
  guard p ;;;
  n <- tick ;;
  w <- get_world ;;
  match make_dirs (clock env n) [] p (fs w) with
  | Some f => put_fs f
  | None => throw (SystemError "EEXIST")
  end.

(** [writeFile(p, JSON.stringify(v, null, 2))] for the JSON value [v]. *)
Definition writeFile (p : Path.t) (v : JsVal) : M unit :=
  emit (EWriteFile p) ;;;
  guard p ;;;
  n <- tick ;;
  w <- get_world ;;
  match node_at (fs w) (List.removelast p), node_at (fs w) p with
  | Some (NDir _), Some (NDir _) => throw (SystemError "EISDIR")
  | Some (NDir _), _ =>
      put_fs (<[p := NFile (JsonText v) (rendered_size env v) (clock env n)]> (fs w))
  | Some (NFile _ _ _), _ => throw (SystemError "ENOTDIR")
  | None, _ => throw (SystemError "ENOENT")
  end.

(** *** Runtime helpers *)

(** [JSON.parse(data)] *)
Definition JSON_parse (data : FileData) : M JsVal :=
  match data with
  | JsonText v => ret v
  | OtherText _ => throw SyntaxError
  end.

(** [v.k], which throws on [null] and [undefined]. *)
Definition get_prop (v : JsVal) (k : string) : M JsVal :=
  if Js.nullish v then throw TypeError else ret (Js.field v k).

(** [v.map(f)]: only an array has a [map] to call. *)
Definition array_map {B} (v : JsVal) (f : JsVal -> M B) : M (list B) :=
  match v with
  | JArr items => map_m f items
  | _ => throw TypeError
  end.

(** [new Document({ id_, text, metadata })] of llamaindex: a missing
    [id_] is a fresh UUID, a missing [text] the empty string, a missing
    [metadata] the empty object. *)
Definition new_Document (init_id init_text init_metadata : JsVal) : M Document :=
  i <- (if Js.nullish init_id
        then (n <- tick ;; ret (JStr (uuid env n)))
        else ret init_id) ;;
  ret {| id_ := i;
         text := Js.coalesce init_text (JStr "");
         metadata := Js.coalesce init_metadata (JObj []) |}.

(** [VectorStoreIndex.fromDocuments(documents)] *)
Definition fromDocuments (documents : list Document) : M VectorStoreIndex :=
  emit (EFromDocuments documents) ;;;
  n <- tick ;;
  match embed_documents env n documents with
  | Some e => throw e
  | None => ret {| index_id := n; index_docs := documents |}
  end.

(** *** [configureSettings] *)

Definition configureSettings : M unit :=
  match deepseek_init env with
  | Some e => throw e
  | None => ret tt
  end ;;;
  (try (if huggingface_init env then put_configured true
        else throw (ServiceError 0))
   catch (fun _ => throw EmbeddingInitFailed)).

(** *** [shouldUseParsedFiles] *)

Definition sourcePath (documentPath : string) : Path.t :=
  Path.join [cwd env; documentPath].

Definition shouldUseParsedFiles (documentPath : string) : M bool :=
  try (let paths := getParsedPaths (cwd env) documentPath in
       stats <- all3 (stat (sourcePath documentPath))
                     (stat (documentsPath paths))
                     (stat (metadataPath paths)) ;;
       let '(sourceStats, documentsStats, metadataStats) := stats in
       ret ((st_mtime documentsStats >=? st_mtime sourceStats)
            && (st_mtime metadataStats >=? st_mtime sourceStats)))
  catch (fun _ => ret false).

(** *** [loadParsedDocuments] *)

(** The callback of [parsedDocuments.map]:
    [new Document({ id_: doc.id_, text: doc.text,
                    metadata: doc.metadata || {} })]. *)
Definition revive (doc : JsVal) : M Document :=
  i <- get_prop doc "id_" ;;
  t <- get_prop doc "text" ;;
  m <- get_prop doc "metadata" ;;
  new_Document i t (Js.or m (JObj [])).

Definition loadParsedDocuments (documentPath : string) : M (list Document) :=
  let paths := getParsedPaths (cwd env) documentPath in
  try (documentsData <- readFile (documentsPath paths) ;;
       parsedDocuments <- JSON_parse documentsData ;;
       array_map parsedDocuments revive)
  catch (fun _ => throw CacheCorrupt).

(** *** [saveParsedDocuments] *)

(** A metadata key that announces layout information. *)
Definition layout_key (key : string) : bool :=
  let k := JsString.toLowerCase key in
  JsString.includes k "bbox"
  || JsString.includes k "layout"
  || JsString.includes k "coordinate"
  || JsString.includes k "page"
  || JsString.includes k "element".

Definition hasLayoutData (documents : list Document) : bool :=
  List.existsb
    (fun doc =>
       let meta := Js.or (metadata doc) (JObj []) in
       List.existsb layout_key (List.map fst (Js.own_props meta)))
    documents.

(** The body of the [try] block. *)
Definition saveParsedDocuments_try (documentPath : string)
    (documents : list Document) : M unit :=
  let paths := getParsedPaths (cwd env) documentPath in
  mkdir (parsedDir paths) ;;;
  let documentsData :=
    JArr (List.map
            (fun doc => JObj [("id_", id_ doc); ("text", text doc);
                              ("metadata", metadata doc)])
            documents) in
  sourceStats <- stat (sourcePath documentPath) ;;
  now <- tick ;;
  let metadata :=
    JObj [("documentPath", JStr documentPath);
          ("originalFileSize", Js.of_Z (st_size sourceStats));
          ("originalModifiedTime", JStr (toISOString env (st_mtime sourceStats)));
          ("cachedAt", JStr (toISOString env (clock env now)));
          ("documentsCount", Js.of_nat (List.length documents));
          ("hasLayoutData", JBool (hasLayoutData documents));
          ("layoutExtractionAttempted", JBool true)] in
  all2 (writeFile (documentsPath paths) (Json.image documentsData))
       (writeFile (metadataPath paths) (Json.image metadata)) ;;;
  ret tt.

(** A failure is swallowed: the cache is an optimization. *)
Definition saveParsedDocuments (documentPath : string)
    (documents : list Document) : M unit :=
  try (saveParsedDocuments_try documentPath documents)
  catch (fun _ => ret tt).

(** *** [parseAndSaveDocuments] *)

Definition loadJson (filePath : Path.t) : M (list JsVal) :=
  emit (ELoadJson filePath) ;;;
  n <- tick ;;
  of_res (llama_loadJson env n filePath).

Definition loadData (filePath : Path.t) : M (list Document) :=
  emit (ELoadData filePath) ;;;
  n <- tick ;;
  of_res (llama_loadData env n filePath).

(** [v > 0] *)
Definition gt0 (v : JsVal) : bool :=
  match v with
  | JNum (NFin m _) => 0 <? m
  | JNum NNaN => false
  | JNum (NInf negative) => negb negative
  | JBool b => b
  | JUndef | JNull => false
  | _ => coerced_gt0 env v
  end.

(** [!!(v && v.length > 0)] *)
Definition has_items (v : JsVal) : bool :=
  Js.truthy v && gt0 (Js.length_of v).

(** One processed layout item:
    [{ ...item, confidence: item.confidence,
       element_type: item.label || item.type || 'unknown' }]. *)
Definition layout_item (item : JsVal) : M JsVal :=
  confidence <- get_prop item "confidence" ;;
  label <- get_prop item "label" ;;
  type <- get_prop item "type" ;;
  ret (JObj (Js.set "element_type"
               (Js.or label (Js.or type (JStr "unknown")))
               (Js.set "confidence" confidence (Js.own_props item)))).

(** The document made from one page, if its text is not blank. *)
Definition page_document (documentPath : string) (result page : JsVal)
  : M (option Document) :=
  t <- get_prop page "text" ;;
  md <- get_prop page "md" ;;
  let text := Js.or t (Js.or md (JStr "")) in
  trimmed <- match text with
             | JStr s => ret (negb (JsString.blank s))
             | _ => throw TypeError
             end ;;
  if (trimmed : bool) then
    layout <- get_prop page "layout" ;;
    items <- get_prop page "items" ;;
    processedLayoutItems <-
      array_map (Js.or layout (Js.or items (JArr []))) layout_item ;;
    page_no <- get_prop page "page" ;;
    job_id <- get_prop result "job_id" ;;
    file_path <- get_prop result "file_path" ;;
    images <- get_prop page "images" ;;
    doc <- new_Document JUndef text
             (JObj [("page_number", Js.or page_no (Js.of_Z 0));
                    ("source_document", JStr documentPath);
                    ("job_id", job_id);
                    ("file_path", file_path);
                    ("layout_items", JArr processedLayoutItems);
                    ("images", Js.or images (JArr []));
                    ("has_layout_data",
                      JBool (has_items layout || has_items items))]) ;;
    ret (Some doc)
  else ret None.

(** The documents of one JSON result: its pages with text, in order. *)
Definition result_documents (documentPath : string) (result : JsVal)
  : M (list Document) :=
  pages <- get_prop result "pages" ;;
  match pages with
  | JArr ps =>
      docs <- map_m (page_document documentPath result) ps ;;
      ret (omap id docs)
  | _ => ret []
  end.

Definition parseAndSaveDocuments (documentPath : string) : M (list Document) :=
  let filePath := sourcePath documentPath in
  try (jsonResults <- loadJson filePath ;;
       chunks <- map_m (result_documents documentPath) jsonResults ;;
       let documents := List.concat chunks in
       saveParsedDocuments documentPath documents ;;;
       ret documents)
  catch (fun _ =>
       documents <- loadData filePath ;;
       saveParsedDocuments documentPath documents ;;;
       ret documents).

(** *** [prepareIndex] *)

(** The segments of a document (lines 272 to 294 of [prepareIndex]): from
    the cache when it is fresh and loads, from the parser otherwise. *)
Definition prepare_documents (documentPath : string) : M (list Document) :=
  fresh <- shouldUseParsedFiles documentPath ;;
  if (fresh : bool) then
    try (loadParsedDocuments documentPath)
    catch (fun _ => parseAndSaveDocuments documentPath)
  else parseAndSaveDocuments documentPath.

Definition is_empty {A} (l : list A) : bool :=
  match l with [] => true | _ => false end.

Definition set_index (documentPath : string) (ix : VectorStoreIndex) : M unit :=
  w <- get_world ;;
  put_indices (<[documentPath := ix]> (documentIndices w)).

Definition prepareIndex (documentPath : string) : M unit :=
  configureSettings ;;;
  w <- get_world ;;
  match documentIndices w !! documentPath with
  | Some _ => ret tt
  | None =>
      documents <- prepare_documents documentPath ;;
      if is_empty documents then throw EmptyDocument
      else
        documentIndex <- fromDocuments documents ;;
        set_index documentPath documentIndex
  end.

(** *** [getIndex] *)

Definition getIndex (documentPath : string) : M (option VectorStoreIndex) :=
  w <- get_world ;;
  match documentIndices w !! documentPath with
  | Some documentIndex => ret (Some documentIndex)
  | None =>
      fresh <- shouldUseParsedFiles documentPath ;;
      if (fresh : bool) then
        try (documents <- loadParsedDocuments documentPath ;;
             if is_empty documents then ret None
             else
               configureSettings ;;;
               documentIndex <- fromDocuments documents ;;
               set_index documentPath documentIndex ;;;
               ret (Some documentIndex))
        catch (fun _ => ret None)
      else ret None
  end.

(** *** [hasIndex], [hasAllIndices], [clearIndices], [clearAllIndices] *)

Definition hasIndex (w : World) (documentPath : string) : bool :=
  bool_decide (is_Some (documentIndices w !! documentPath)).

Definition hasAllIndices (w : World) (documentPaths : list string) : bool :=
  List.forallb (hasIndex w) documentPaths.

Definition clearIndices (documentPaths : list string) : M unit :=
  for_each
    (fun path =>
       w <- get_world ;;
       if hasIndex w path then put_indices (delete path (documentIndices w))
       else ret tt)
    documentPaths.

Definition clearAllIndices : M unit := put_indices ∅.

(** *** [getCombinedIndex] *)

(** [new Document({ id_: doc.id_, text: doc.text,
      metadata: { ...doc.metadata, source_document: documentPath } })] *)
Definition with_source (documentPath : string) (doc : Document) : M Document :=
  new_Document (id_ doc) (text doc)
    (JObj (Js.set "source_document" (JStr documentPath)
             (Js.own_props (metadata doc)))).

(** The loop over [documentPaths], with [allDocuments] as accumulator. *)
Fixpoint collect_documents (documentPaths : list string)
    (allDocuments : list Document) : M (list Document) :=
  match documentPaths with
  | [] => ret allDocuments
  | documentPath :: rest =>
      allDocuments' <-
        (try (documents <- loadParsedDocuments documentPath ;;
              documentsWithSource <- map_m (with_source documentPath) documents ;;
              ret (allDocuments ++ documentsWithSource)%list)
         catch (fun _ => ret allDocuments)) ;;
      collect_documents rest allDocuments'
  end.

Definition getCombinedIndex (documentPaths : list string)
  : M (option VectorStoreIndex) :=
  allDocuments <- collect_documents documentPaths [] ;;
  if is_empty allDocuments then ret None
  else
    configureSettings ;;;
    combinedIndex <- fromDocuments allDocuments ;;
    ret (Some combinedIndex).

(** *** Concurrent [prepareIndex] calls

    A call of an [async] method runs without interruption up to its next
    [await]; pending calls then resume one at a time, in an order the
    runtime chooses.  A [Task] is a [prepareIndex] call suspended at one of
    the [await]s of [prepareIndex] (or not yet begun, or settled);
    [task_step] performs the awaited method call as one step and runs the
    caller to its next [await]. *)

Inductive Task :=
| T_start (documentPath : string)
| T_fresh (documentPath : string)       (* at [await shouldUseParsedFiles] *)
| T_load (documentPath : string)        (* at [await loadParsedDocuments] *)
| T_parse (documentPath : string)       (* at [await parseAndSaveDocuments] *)
| T_build (documentPath : string) (documents : list Document)
                                        (* at [await fromDocuments] *)
| T_skipped (documentPath : string)     (* resolved, index already existed *)
| T_created (documentPath : string) (documentIndex : VectorStoreIndex)
                                        (* resolved, index created *)
| T_failed (documentPath : string) (e : Exn).   (* rejected *)

(** After the segments are known: the emptiness test, then the build. *)
Definition after_documents (documentPath : string) (documents : list Document)
  : Task :=
  if is_empty documents then T_failed documentPath EmptyDocument
  else T_build documentPath documents.

Definition task_step (t : Task) (w : World) : Task * World :=
  match t with
  | T_start p =>
      match configureSettings w with
      | (Throw e, w') => (T_failed p e, w')
      | (Ok _, w') =>
          match documentIndices w' !! p with
          | Some _ => (T_skipped p, w')
          | None => (T_fresh p, w')
          end
      end
  | T_fresh p =>
      match shouldUseParsedFiles p w with
      | (Ok true, w') => (T_load p, w')
      | (Ok false, w') => (T_parse p, w')
      | (Throw e, w') => (T_failed p e, w')
      end
  | T_load p =>
      match loadParsedDocuments p w with
      | (Ok documents, w') => (after_documents p documents, w')
      | (Throw _, w') => (T_parse p, w')
      end
  | T_parse p =>
      match parseAndSaveDocuments p w with
      | (Ok documents, w') => (after_documents p documents, w')
      | (Throw e, w') => (T_failed p e, w')
      end
  | T_build p documents =>
      match (documentIndex <- fromDocuments documents ;;
             set_index p documentIndex ;;;
             ret documentIndex) w with
      | (Ok documentIndex, w') => (T_created p documentIndex, w')
      | (Throw e, w') => (T_failed p e, w')
      end
  | T_skipped _ | T_created _ _ | T_failed _ _ => (t, w)
  end.

Definition settled (t : Task) : bool :=
  match t with
  | T_skipped _ | T_created _ _ | T_failed _ _ => true
  | _ => false
  end.

Definition created (t : Task) : bool :=
  match t with T_created _ _ => true | _ => false end.

Definition skipped (t : Task) : bool :=
  match t with T_skipped _ => true | _ => false end.

(** The outcome of a settled call. *)
Definition outcome (t : Task) : option (Res unit) :=
  match t with
  | T_skipped _ | T_created _ _ => Some (Ok tt)
  | T_failed _ e => Some (Throw e)
  | _ => None
  end.

(** The runtime resumes the [i]-th call. *)
Definition resume (i : nat) (c : World * list Task) : World * list Task :=
  match snd c !! i with
  | Some t =>
      let '(t', w') := task_step t (fst c) in
      (w', <[i := t']> (snd c))
  | None => c
  end.

(** A schedule: the calls resumed, in order. *)
Definition run (schedule : list nat) (c : World * list Task)
  : World * list Task :=
  List.fold_left (fun c i => resume i c) schedule c.

(** [prepareMultipleIndices]: every [prepareIndex] call is begun, in list
    order, before any of them is resumed. *)
Definition begin_all (documentPaths : list string) (w : World)
  : World * list Task :=
  run (List.seq 0 (List.length documentPaths))
      (w, List.map T_start documentPaths).

End Manager.

(** ** Observations on traces *)

Definition is_parse (ev : Event) : bool :=
  match ev with ELoadJson _ | ELoadData _ => true | _ => false end.

Definition is_build (ev : Event) : bool :=
  match ev with EFromDocuments _ => true | _ => false end.


Definition count (p : Event -> bool) (tr : list Event) : nat :=
  List.length (List.filter p tr).

(** The events of [w'] that were not yet in [w]. *)
Definition events_since (w w' : World) : list Event :=
  List.skipn (List.length (trace w)) (trace w').

Definition parser_invocations (w w' : World) : nat :=
  count is_parse (events_since w w').

Definition index_builds (w w' : World) : nat :=
  count is_build (events_since w w').

(** ** Auxiliary notions used in the statements *)

(** No character of [s] is a slash. *)
Fixpoint slash_free (s : string) : bool :=
  match s with
  | EmptyString => true
  | String c s' => negb (Ascii.eqb c JsString.slash) && slash_free s'
  end.

(** [m] takes every world to one related to it by [R], whatever it
    returns or throws. *)
Definition respects (R : World -> World -> Prop) {A} (m : M A) : Prop :=
  forall w, R w (snd (m w)).

(** [w'] extends the trace of [w] by events that all satisfy [P]. *)
Definition appends (P : Event -> bool) (w w' : World) : Prop :=
  exists evs, trace w' = (trace w ++ evs)%list /\ List.forallb P evs = true.

Definition same_indices (w w' : World) : Prop :=
  documentIndices w' = documentIndices w.

Definition same_fs (w w' : World) : Prop := fs w' = fs w.

(** [w] with [evs] added to its trace. *)
Definition log (evs : list Event) (w : World) : World :=
  {| fs := fs w; documentIndices := documentIndices w;
     settings_configured := settings_configured w;
     ticks := ticks w; trace := (trace w ++ evs)%list |}.

(** [w] after one more external call. *)
Definition ticked (w : World) : World :=
  {| fs := fs w; documentIndices := documentIndices w;
     settings_configured := settings_configured w;
     ticks := S (ticks w); trace := trace w |}.

(** [w] with the embedding model set. *)
Definition configured (w : World) : World :=
  {| fs := fs w; documentIndices := documentIndices w;
     settings_configured := true;
     ticks := ticks w; trace := trace w |}.

(** [w] with [ix] registered for [ref]. *)
Definition registered (ref : string) (ix : VectorStoreIndex) (w : World) : World :=
  {| fs := fs w; documentIndices := <[ref := ix]> (documentIndices w);
     settings_configured := settings_configured w;
     ticks := ticks w; trace := trace w |}.

(** The three [stat] calls of the freshness check of [ref]. *)
Definition stats_of (env : Env) (ref : string) : list Event :=
  [EStat (sourcePath env ref);
   EStat (documentsPath (getParsedPaths (cwd env) ref));
   EStat (metadataPath (getParsedPaths (cwd env) ref))].

(** The segments files read by a combined index over [refs]. *)
Definition reads_of (env : Env) (refs : list string) : list Event :=
  List.map (fun ref => EReadFile (documentsPath (getParsedPaths (cwd env) ref)))
    refs.

(** What [stat] answers on [p] in [w], if it answers. *)
Definition lookup_stats (env : Env) (w : World) (p : Path.t) : option Stats :=
  if fs_denied env p then None else node_stats <$> node_at (fs w) p.

Definition not_parse (ev : Event) : bool := negb (is_parse ev).
Definition not_build (ev : Event) : bool := negb (is_build ev).

(** The entries of the cached segments file of [ref], when
    [loadParsedDocuments] can use it: the file is readable, holds a JSON
    array, and no entry of the array is [null]. *)
Definition cache_entries (env : Env) (f : gmap (list string) Node)
    (ref : string) : option (list JsVal) :=
  let p := documentsPath (getParsedPaths (cwd env) ref) in
  if fs_denied env p then None
  else match node_at f p with
       | Some (NFile (JsonText (JArr items)) _ _) =>
           if List.forallb (fun item => negb (Js.nullish item)) items
           then Some items else None
       | _ => None
       end.

(** The invariant of a constructed [Document]: no field is [null] or
    [undefined]. *)
Definition constructed (d : Document) : bool :=
  negb (Js.nullish (id_ d)) && negb (Js.nullish (text d))
  && negb (Js.nullish (metadata d)).

(** [d] is the document [loadParsedDocuments] makes from the cache entry
    [item]. *)
Definition loaded_from (item : JsVal) (d : Document) : Prop :=
  text d = Js.coalesce (Js.field item "text") (JStr "")
  /\ metadata d = Js.or (Js.field item "metadata") (JObj [])
  /\ (Js.nullish (Js.field item "id_") = false -> id_ d = Js.field item "id_")
  /\ constructed d = true.

(** [d] with its metadata attributed to [ref]. *)
Definition tagged (ref : string) (d : Document) : Document :=
  {| id_ := id_ d;
     text := text d;
     metadata := JObj (Js.set "source_document" (JStr ref)
                         (Js.own_props (metadata d))) |}.

(** The contribution of [ref] to a combined index: nothing when its cache
    cannot be loaded, its cached segments attributed to [ref] otherwise. *)
Definition chunk_of (env : Env) (f : gmap (list string) Node) (ref : string)
    (chunk : list Document) : Prop :=
  match cache_entries env f ref with
  | None => chunk = []
  | Some items =>
      exists docs, List.Forall2 loaded_from items docs
                   /\ chunk = List.map (tagged ref) docs
  end.



(** The number of calls among [ts] that satisfy [P]. *)
Definition tally (P : Task -> bool) (ts : list Task) : nat :=
  List.length (List.filter P ts).

(** A call that is past its registry lookup and was not skipped there. *)
Definition in_pipeline (t : Task) : bool :=
  match t with
  | T_start _ | T_skipped _ => false
  | _ => true
  end.

Definition one (b : bool) : nat := if b then 1%nat else 0%nat.

(** What every schedule preserves once all calls are in the pipeline: since
    [w], index builds are at least the calls that created an index and at
    most the calls that settled. *)
Definition racing (w : World) (c : World * list Task) : Prop :=
  List.Forall (fun t => in_pipeline t = true) (snd c)
  /\ exists evs,
      trace (fst c) = (trace w ++ evs)%list
      /\ (tally created (snd c) <= count is_build evs)%nat
      /\ (count is_build evs <= tally settled (snd c))%nat.

(** One call resumed [n] times with nothing else running. *)
Fixpoint alone (env : Env) (n : nat) (t : Task) (w : World) : Task * World :=
  match n with
  | O => (t, w)
  | S n' => let '(t', w') := task_step env t w in alone env n' t' w'
  end.

(** ** A small deployment, for examples *)

Module Sample.

(** One JSON result with one page of text. *)
Definition json_result : JsVal :=
  JObj [("job_id", JStr "job-1");
        ("pages", JArr [JObj [("page", Js.of_Z 1);
                             ("text", JStr "Resilient consensus")]])].

Definition env : Env :=
  {| cwd := "/srv/app";
     clock := fun n => 1000 + Z.of_nat n;
     uuid := fun n => String.append "uuid-" (Js.decimal n);
     fs_denied := fun _ => false;
     rendered_size := fun _ => 0;
     toISOString := fun _ => "1970-01-01T00:00:00.000Z";
     coerced_gt0 := fun _ => false;
     deepseek_init := None;
     huggingface_init := true;
     llama_loadJson := fun _ _ => Ok [json_result];
     llama_loadData := fun _ _ => Ok [];
     embed_documents := fun _ _ => None |}.

(** The same deployment with a parser that finds no page. *)
Definition env_blank : Env :=
  {| cwd := "/srv/app";
     clock := fun n => 1000 + Z.of_nat n;
     uuid := fun n => String.append "uuid-" (Js.decimal n);
     fs_denied := fun _ => false;
     rendered_size := fun _ => 0;
     toISOString := fun _ => "1970-01-01T00:00:00.000Z";
     coerced_gt0 := fun _ => false;
     deepseek_init := None;
     huggingface_init := true;
     llama_loadJson := fun _ _ => Ok [JObj [("pages", JArr [])]];
     llama_loadData := fun _ _ => Ok [];
     embed_documents := fun _ _ => None |}.

Definition A : string := "documents/rcc.pdf".
Definition B : string := "documents/missing.pdf".

(** A cached segment that carries no [source_document]. *)
Definition entry : JsVal :=
  JObj [("id_", JStr "seg-1");
        ("text", JStr "Resilient consensus");
        ("metadata", JObj [("page_number", Js.of_Z 1)])].

Definition segment : Document :=
  {| id_ := JStr "seg-1";
     text := JStr "Resilient consensus";
     metadata := JObj [("page_number", Js.of_Z 1)] |}.

Definition files (source_mtime : Z) : gmap (list string) Node :=
  <[ ["srv"; "app"; "documents"; "rcc.pdf"]
     := NFile (OtherText "%PDF-1.7") 8 source_mtime ]>
  (<[ ["srv"; "app"; "documents"; "parsed"; "rcc"; "documents.json"]
      := NFile (JsonText (JArr [entry])) 0 100 ]>
   (<[ ["srv"; "app"; "documents"; "parsed"; "rcc"; "metadata.json"]
       := NFile (JsonText (JObj [])) 0 100 ]> ∅)).

Definition world (f : gmap (list string) Node) : World :=
  {| fs := f; documentIndices := ∅; settings_configured := false;
     ticks := 0; trace := [] |}.

(** The cache of [A] is newer than its source. *)
Definition fresh : World := world (files 50).

(** The source of [A] was modified after its cache was written. *)
Definition stale : World := world (files 500).

(** Only the source of [A] exists. *)
Definition uncached : World :=
  world (<[ ["srv"; "app"; "documents"; "rcc.pdf"]
            := NFile (OtherText "%PDF-1.7") 8 50 ]> ∅).

(** Nothing exists. *)
Definition bare : World := world ∅.


End Sample.

(** ** More of the manager *)

Section ManagerMore.

Variable env : Env.

(** The loop of [getMultipleIndices], with [indices] as accumulator.  The
    [Map] it fills is represented by its lookups; its iteration order is
    not. *)
Fixpoint collect_indices (documentPaths : list string)
    (indices : gmap string VectorStoreIndex)
  : M (gmap string VectorStoreIndex) :=
  match documentPaths with
  | [] => ret indices
  | documentPath :: rest =>
      index <- getIndex env documentPath ;;
      collect_indices rest
        match index with
        | Some ix => <[documentPath := ix]> indices
        | None => indices
        end
  end.

Definition getMultipleIndices (documentPaths : list string)
  : M (gmap string VectorStoreIndex) :=
  collect_indices documentPaths ∅.

End ManagerMore.

(** A document as [parseAndSaveDocuments] makes it from a page of a JSON
    result: a fresh identifier, the text of the page, which is not blank, and
    the seven metadata members, [source_document] being the document path. *)
Definition parsed_page (documentPath : string) (d : Document) : Prop :=
  (exists u, id_ d = JStr u)
  /\ (exists s, text d = JStr s /\ JsString.blank s = false)
  /\ exists page_number job_id file_path layout_items images has_layout,
      metadata d
      = JObj [("page_number", page_number);
              ("source_document", JStr documentPath);
              ("job_id", job_id);
              ("file_path", file_path);
              ("layout_items", JArr layout_items);
              ("images", images);
              ("has_layout_data", JBool has_layout)].

(** Every file or directory of [w] other than those at [spared] is still in
    [w'], unchanged. *)
Definition keeps_nodes (spared : list (list string)) (w w' : World) : Prop :=
  forall q n, fs w !! q = Some n -> ~ In q spared -> fs w' !! q = Some n.

(** ** The document library hook (second module of the file) *)

Module Library.

(** [s.lastIndexOf(c)], [None] standing for [-1]. *)
Fixpoint lastIndexOf (c : ascii) (s : string) : option nat :=
  match s with
  | EmptyString => None
  | String a s' =>
      match lastIndexOf c s' with
      | Some i => Some (S i)
      | None => if Ascii.eqb a c then Some O else None
      end
  end.

(** [s.substring(0, end)], a negative [end] counting as [0]. *)
Definition substring_to (finish : option nat) (s : string) : string :=
  String.substring 0 (default O finish) s.

(** [url.substring(0, url.lastIndexOf('/')) + '/' + 'preview'] *)
Definition updateURL (url : string) : string :=
  String.append (substring_to (lastIndexOf "/"%char url) url)
    (String.append "/" "preview").

(** The class [[a-zA-Z0-9_-]]. *)
Definition id_char (c : ascii) : bool :=
  let n := nat_of_ascii c in
  ((Nat.leb 97 n && Nat.leb n 122) || (Nat.leb 65 n && Nat.leb n 90)
   || (Nat.leb 48 n && Nat.leb n 57) || Nat.eqb n 95 || Nat.eqb n 45)%bool.

(** The longest run of identifier characters at the head of [s]. *)
Fixpoint take_id (s : string) : string :=
  match s with
  | EmptyString => EmptyString
  | String c s' => if id_char c then String c (take_id s') else EmptyString
  end.

(** Every character of [s] is an identifier character. *)
Fixpoint id_string (s : string) : bool :=
  match s with
  | EmptyString => true
  | String c s' => id_char c && id_string s'
  end.

(** Group 1 of the match of [/\/d\/([a-zA-Z0-9_-]+)/] at the head of [s]. *)
Definition file_id_here (s : string) : option string :=
  match s with
  | String _ (String _ (String _ rest)) =>
      if String.prefix "/d/" s then
        match take_id rest with
        | EmptyString => None
        | id => Some id
        end
      else None
  | _ => None
  end.

(** Group 1 of [s.match(/\/d\/([a-zA-Z0-9_-]+)/)], the leftmost match. *)
Fixpoint file_id (s : string) : option string :=
  match file_id_here s with
  | Some id => Some id
  | None =>
      match s with
      | EmptyString => None
      | String _ s' => file_id s'
      end
  end.

Definition download_prefix : string :=
  "https://drive.google.com/uc?export=download&id=".

Definition convertToDownloadUrl (webViewLink : string) : string :=
  match file_id webViewLink with
  | Some fileId => String.append download_prefix fileId
  | None => webViewLink
  end.


Section Titles.

(** [TITLE_MAPPINGS[filename.toLowerCase()]]; the table is not part of
    the sources. *)
Variable title_of : string -> JsVal.







End Titles.

End Library.

(** ** Request validation of the chat route *)

Module Route.

Definition is_array (v : JsVal) : bool :=
  match v with JArr _ => true | _ => false end.

Definition is_empty_array (v : JsVal) : bool :=
  match v with JArr [] => true | _ => false end.

(** [validateRequest(data)], [None] standing for [null]; destructuring
    [null] or [undefined] throws. *)
Definition validateRequest (deepSeekApiKey : JsVal) (data : JsVal)
  : Res (option string) :=
  if Js.nullish data then Throw TypeError
  else
    let query := Js.field data "query" in
    let documentPath := Js.field data "documentPath" in
    let documentPaths := Js.field data "documentPaths" in
    if negb (Js.truthy query) then Ok (Some "Query is required")
    else if negb (Js.truthy documentPath) && negb (Js.truthy documentPaths)
    then Ok (Some "Either documentPath or documentPaths is required")
    else if Js.truthy documentPaths
            && (negb (is_array documentPaths) || is_empty_array documentPaths)
    then Ok (Some "documentPaths must be a non-empty array")
    else if negb (Js.truthy deepSeekApiKey)
    then Ok (Some "DeepSeek API key is required")
    else Ok None.

(** [requestData.documentPaths || [requestData.documentPath!]] *)
Definition chosen_paths (data : JsVal) : JsVal :=
  Js.or (Js.field data "documentPaths") (JArr [Js.field data "documentPath"]).

End Route.

(** The sample deployment with the embedding model out of reach. *)
Definition env_offline : Env :=
  {| cwd := cwd Sample.env;
     clock := clock Sample.env;
     uuid := uuid Sample.env;
     fs_denied := fs_denied Sample.env;
     rendered_size := rendered_size Sample.env;
     toISOString := toISOString Sample.env;
     coerced_gt0 := coerced_gt0 Sample.env;
     deepseek_init := None;
     huggingface_init := false;
     llama_loadJson := llama_loadJson Sample.env;
     llama_loadData := llama_loadData Sample.env;
     embed_documents := embed_documents Sample.env |}.

(** No slash and no dot: what the tail [[^/.]+] of the extension pattern
    accepts. *)
Fixpoint plain (s : string) : bool :=
  match s with
  | EmptyString => true
  | String c s' =>
      negb (Ascii.eqb c JsString.slash) && negb (Ascii.eqb c JsString.dot)
      && plain s'
  end.




(** The document path a [prepareIndex] call was made for. *)
Definition task_path (t : Task) : string :=
  match t with
  | T_start p | T_fresh p | T_load p | T_parse p | T_build p _
  | T_skipped p | T_created p _ | T_failed p _ => p
  end.

(** The call has resolved (its promise is fulfilled). *)
Definition fulfilled (t : Task) : bool := created t || skipped t.

(** Every call that has resolved finds its document path registered. *)
Definition delivered (c : World * list Task) : Prop :=
  List.Forall
    (fun t => fulfilled t = true ->
              is_Some (documentIndices (fst c) !! task_path t))
    (snd c).

(** * Properties *)

(** ** Sanity checks of the embedding *)

Example fileName_pdf : fileName "documents/rcc.pdf" = "rcc".
Proof. reflexivity. Qed.

Example fileName_two_dots : fileName "a/x.tar.gz" = "x.tar".
Proof. reflexivity. Qed.

Example fileName_hidden : fileName "a/.pdf" = "document".
Proof. reflexivity. Qed.

Example fileName_trailing_dot : fileName "a/x." = "x.".
Proof. reflexivity. Qed.

Example fileName_trailing_slash : fileName "documents/" = "document".
Proof. reflexivity. Qed.

Example parsedDir_rcc :
  parsedDir (getParsedPaths "/srv/app" "documents/rcc.pdf")
  = ["srv"; "app"; "documents"; "parsed"; "rcc"].
Proof. reflexivity. Qed.

Example join_dot_dot : Path.join ["/srv/app"; "documents"; "parsed"; ".."]
                       = ["srv"; "app"; "documents"].
Proof. reflexivity. Qed.

Example image_drops_undefined :
  Json.image (JObj [("job_id", JUndef); ("page_number", Js.of_Z 3);
                    ("score", JNum NNaN)])
  = JObj [("page_number", Js.of_Z 3); ("score", JNull)].
Proof. reflexivity. Qed.

Example layout_key_page : layout_key "Page_Number" = true.
Proof. reflexivity. Qed.

Example layout_key_other : layout_key "job_id" = false.
Proof. reflexivity. Qed.

(** Parsing the sample document: one page, one segment, saved to the cache. *)
Example parse_sample :
  let run := parseAndSaveDocuments Sample.env Sample.A Sample.uncached in
  List.map text (match fst run with Ok docs => docs | Throw _ => [] end)
  = [JStr "Resilient consensus"]
  /\ cache_entries Sample.env (fs (snd run)) Sample.A <> None
  /\ fst (shouldUseParsedFiles Sample.env Sample.A (snd run)) = Ok true.
Proof. vm_compute. repeat split. discriminate. Qed.

(** With a stale cache [prepareIndex] parses again; with a fresh one it does
    not. *)
Example prepareIndex_stale_parses :
  parser_invocations Sample.stale
    (snd (prepareIndex Sample.env Sample.A Sample.stale)) = 1%nat
  /\ parser_invocations Sample.fresh
       (snd (prepareIndex Sample.env Sample.A Sample.fresh)) = 0%nat.
Proof. vm_compute. split; reflexivity. Qed.

(** ** Frame rules of the monad *)

Section Frame.

Context (R : World -> World -> Prop) `{!PreOrder R}.

Lemma respects_ret {A} (a : A) : respects R (ret a).
Proof. intros w. simpl. reflexivity. Qed.

Lemma respects_throw {A} (e : Exn) : respects R (@throw A e).
Proof. intros w. simpl. reflexivity. Qed.

Lemma respects_of_res {A} (r : Res A) : respects R (of_res r).
Proof. intros w. simpl. reflexivity. Qed.

Lemma respects_get_world : respects R get_world.
Proof. intros w. simpl. reflexivity. Qed.

Lemma respects_bind {A B} (m : M A) (k : A -> M B) :
  respects R m -> (forall a, respects R (k a)) -> respects R (bind m k).
Proof.
  intros Hm Hk w. unfold bind. specialize (Hm w).
  destruct (m w) as [[a|e] w1]; simpl in *; [|assumption].
  etransitivity; [exact Hm | apply Hk].
Qed.

Lemma respects_try {A} (m : M A) (h : Exn -> M A) :
  respects R m -> (forall e, respects R (h e)) -> respects R (try_catch m h).
Proof.
  intros Hm Hh w. unfold try_catch. specialize (Hm w).
  destruct (m w) as [[a|e] w1]; simpl in *; [assumption|].
  etransitivity; [exact Hm | apply Hh].
Qed.

Lemma respects_all2 {A B} (a : M A) (b : M B) :
  respects R a -> respects R b -> respects R (all2 a b).
Proof.
  intros Ha Hb w. unfold all2. specialize (Ha w).
  destruct (a w) as [ra w1]. specialize (Hb w1).
  destruct (b w1) as [rb w2]. simpl in *.
  assert (R w w2) by (etransitivity; eassumption).
  destruct ra, rb; assumption.
Qed.

Lemma respects_all3 {A B C} (a : M A) (b : M B) (c : M C) :
  respects R a -> respects R b -> respects R c -> respects R (all3 a b c).
Proof.
  intros Ha Hb Hc w. unfold all3. specialize (Ha w).
  destruct (a w) as [ra w1]. specialize (Hb w1).
  destruct (b w1) as [rb w2]. specialize (Hc w2).
  destruct (c w2) as [rc w3]. simpl in *.
  assert (R w w3) by (etransitivity; [|eassumption]; etransitivity; eassumption).
  destruct ra, rb, rc; assumption.
Qed.

Lemma respects_map_m {A B} (f : A -> M B) (l : list A) :
  (forall x, respects R (f x)) -> respects R (map_m f l).
Proof.
  intros Hf. induction l as [|x l IH]; simpl.
  - apply respects_ret.
  - apply respects_bind; [apply Hf|]. intros y.
    apply respects_bind; [exact IH|]. intros ys. apply respects_ret.
Qed.

Lemma respects_for_each {A} (body : A -> M unit) (l : list A) :
  (forall x, respects R (body x)) -> respects R (for_each body l).
Proof.
  intros Hb. induction l as [|x l IH]; simpl.
  - apply respects_ret.
  - apply respects_bind; [apply Hb|]. intros _. exact IH.
Qed.

End Frame.

#[export] Instance appends_preorder (P : Event -> bool) : PreOrder (appends P).
Proof.
  split.
  - intros w. exists []. split; [now rewrite List.app_nil_r | reflexivity].
  - intros w1 w2 w3 [e1 [H1 F1]] [e2 [H2 F2]]. exists (e1 ++ e2)%list. split.
    + rewrite H2, H1. now rewrite List.app_assoc.
    + rewrite List.forallb_app, F1, F2. reflexivity.
Qed.

#[export] Instance same_indices_preorder : PreOrder same_indices.
Proof.
  split; [intros w; reflexivity|].
  intros w1 w2 w3 H1 H2. unfold same_indices in *. congruence.
Qed.

#[export] Instance same_fs_preorder : PreOrder same_fs.
Proof.
  split; [intros w; reflexivity|].
  intros w1 w2 w3 H1 H2. unfold same_fs in *. congruence.
Qed.

(** Decomposition of a method body into its primitive calls. *)
Ltac frame_step :=
  first
    [ apply respects_bind; [typeclasses eauto | | intro]
    | apply respects_try; [typeclasses eauto | | intro]
    | apply respects_all3; [typeclasses eauto | | | ]
    | apply respects_all2; [typeclasses eauto | | ]
    | apply respects_map_m; [typeclasses eauto | intro]
    | apply respects_for_each; [typeclasses eauto | intro]
    | apply respects_ret; typeclasses eauto
    | apply respects_throw; typeclasses eauto
    | apply respects_of_res; typeclasses eauto
    | apply respects_get_world; typeclasses eauto
    | match goal with
      | |- respects _ (match ?x with _ => _ end) => destruct x
      end ].

Create HintDb frames.

Ltac frame := repeat frame_step; auto with frames.

Section Primitives.

Variable P : Event -> bool.

Lemma emit_appends ev : P ev = true -> respects (appends P) (emit ev).
Proof.
  intros H w. exists [ev]. simpl. split; [reflexivity|].
  now rewrite H.
Qed.

Lemma tick_appends : respects (appends P) tick.
Proof. intros w. exists []. simpl. now rewrite List.app_nil_r. Qed.

Lemma put_fs_appends f : respects (appends P) (put_fs f).
Proof. intros w. exists []. simpl. now rewrite List.app_nil_r. Qed.

Lemma put_indices_appends m : respects (appends P) (put_indices m).
Proof. intros w. exists []. simpl. now rewrite List.app_nil_r. Qed.

Lemma put_configured_appends b : respects (appends P) (put_configured b).
Proof. intros w. exists []. simpl. now rewrite List.app_nil_r. Qed.

End Primitives.

Lemma emit_same_indices ev : respects same_indices (emit ev).
Proof. intros w. reflexivity. Qed.

Lemma tick_same_indices : respects same_indices tick.
Proof. intros w. reflexivity. Qed.

Lemma put_fs_same_indices f : respects same_indices (put_fs f).
Proof. intros w. reflexivity. Qed.

Lemma put_configured_same_indices b : respects same_indices (put_configured b).
Proof. intros w. reflexivity. Qed.

Lemma emit_same_fs ev : respects same_fs (emit ev).
Proof. intros w. reflexivity. Qed.

Lemma tick_same_fs : respects same_fs tick.
Proof. intros w. reflexivity. Qed.

Lemma put_indices_same_fs m : respects same_fs (put_indices m).
Proof. intros w. reflexivity. Qed.

Lemma put_configured_same_fs b : respects same_fs (put_configured b).
Proof. intros w. reflexivity. Qed.

#[export] Hint Resolve tick_appends put_fs_appends put_indices_appends
  put_configured_appends emit_same_indices tick_same_indices
  put_fs_same_indices put_configured_same_indices emit_same_fs tick_same_fs
  put_indices_same_fs put_configured_same_fs : frames.
#[export] Hint Extern 1 (respects (appends _) (emit _)) =>
  (apply emit_appends; reflexivity) : frames.

(** ** What each method touches *)

Section Footprints.

Variable env : Env.

Lemma stat_same_fs p : respects same_fs (stat env p).
Proof. unfold stat, guard. frame. Qed.

Lemma stat_run p w :
  stat env p w
  = (match lookup_stats env w p with
     | Some s => Ok s
     | None => Throw (SystemError (if fs_denied env p then "EACCES" else "ENOENT"))
     end, log [EStat p] w).
Proof.
  unfold stat, lookup_stats, guard, bind, emit, get_world, log. simpl.
  destruct (fs_denied env p); simpl; [reflexivity|].
  destruct (node_at (fs w) p); reflexivity.
Qed.

Lemma lookup_stats_log evs w p :
  lookup_stats env (log evs w) p = lookup_stats env w p.
Proof. reflexivity. Qed.

Lemma stat_ok_iff p w s :
  fst (stat env p w) = Ok s <-> lookup_stats env w p = Some s.
Proof.
  rewrite stat_run. simpl. destruct (lookup_stats env w p); split; congruence.
Qed.

Lemma log_log evs1 evs2 w : log evs2 (log evs1 w) = log (evs1 ++ evs2) w.
Proof. unfold log; simpl. now rewrite List.app_assoc. Qed.

(** [shouldUseParsedFiles], computed. *)
Lemma shouldUseParsedFiles_run p w :
  let paths := getParsedPaths (cwd env) p in
  shouldUseParsedFiles env p w
  = (Ok match lookup_stats env w (sourcePath env p),
              lookup_stats env w (documentsPath paths),
              lookup_stats env w (metadataPath paths) with
        | Some s, Some d, Some m =>
            (st_mtime d >=? st_mtime s) && (st_mtime m >=? st_mtime s)
        | _, _, _ => false
        end,
     log [EStat (sourcePath env p); EStat (documentsPath paths);
          EStat (metadataPath paths)] w).
Proof.
  intros paths. unfold shouldUseParsedFiles, try_catch, bind, all3.
  fold paths.
  generalize (sourcePath env p) (documentsPath paths) (metadataPath paths).
  intros sp dp mp.
  rewrite !stat_run, !lookup_stats_log, !log_log.
  destruct (lookup_stats env w sp), (lookup_stats env w dp),
    (lookup_stats env w mp); reflexivity.
Qed.

Lemma shouldUseParsedFiles_same_fs p :
  respects same_fs (shouldUseParsedFiles env p).
Proof. unfold shouldUseParsedFiles, stat, guard. frame. Qed.

Lemma shouldUseParsedFiles_appends P p :
  (forall q, P (EStat q) = true) ->
  respects (appends P) (shouldUseParsedFiles env p).
Proof.
  intros HP. unfold shouldUseParsedFiles, stat, guard. frame;
    apply emit_appends, HP.
Qed.

End Footprints.

(** ** Cache locations *)

Section Locations.

Lemma split_cons_inv sep s : JsString.split sep s <> [].
Proof.
  destruct s as [|c s]; simpl; [discriminate|].
  destruct (Ascii.eqb c sep); [discriminate|].
  destruct (JsString.split sep s); discriminate.
Qed.

Lemma split_slash_free s :
  slash_free s = true -> JsString.split JsString.slash s = [s].
Proof.
  induction s as [|c s IH]; simpl; [reflexivity|].
  intros H. apply andb_prop in H as [Hc Hs].
  apply negb_true_iff in Hc. rewrite Hc, (IH Hs). reflexivity.
Qed.

Lemma pop_split_slash_free s :
  slash_free (JsString.pop (JsString.split JsString.slash s)) = true.
Proof.
  unfold JsString.pop.
  induction s as [|c s IH]; simpl; [reflexivity|].
  destruct (Ascii.eqb c JsString.slash) eqn:Hc.
  - pose proof (split_cons_inv JsString.slash s) as Hne.
    destruct (JsString.split JsString.slash s) as [|x xs]; [congruence|].
    exact IH.
  - pose proof (split_cons_inv JsString.slash s) as Hne.
    destruct (JsString.split JsString.slash s) as [|x xs]; [congruence|].
    destruct xs as [|y ys]; simpl in *.
    + rewrite Hc, IH. reflexivity.
    + exact IH.
Qed.

Lemma strip_extension_slash_free s :
  slash_free s = true -> slash_free (JsString.strip_extension s) = true.
Proof.
  induction s as [|c s IH]; simpl; [reflexivity|].
  intros H. apply andb_prop in H as [Hc Hs].
  destruct (Ascii.eqb c JsString.dot && JsString.ext_tail s); simpl;
    [reflexivity|].
  rewrite Hc, (IH Hs). reflexivity.
Qed.

Lemma fileName_slash_free r : slash_free (fileName r) = true.
Proof.
  unfold fileName. case_decide; [reflexivity|].
  apply strip_extension_slash_free, pop_split_slash_free.
Qed.

Lemma fileName_nonempty r : fileName r <> "".
Proof. unfold fileName. case_decide; [discriminate|assumption]. Qed.

(** The normalized path of a directory followed by fixed segments. *)
Lemma join_snoc (parts : list string) (seg : string) :
  slash_free seg = true ->
  Path.join (parts ++ [seg])
  = List.rev (Path.push (List.rev (Path.join parts)) seg).
Proof.
  intros H. unfold Path.join, Path.normalize.
  rewrite List.map_app, List.concat_app. simpl.
  rewrite split_slash_free by assumption. simpl.
  rewrite ?List.app_nil_r, List.fold_left_app. simpl.
  rewrite List.rev_involutive. reflexivity.
Qed.

Lemma push_inj (a b : string) (R : list string) (f1 f2 : string) :
  f1 <> "" -> f2 <> "" ->
  Path.push (a :: b :: R) f1 = Path.push (a :: b :: R) f2 -> f1 = f2.
Proof.
  intros H1 H2. unfold Path.push.
  repeat case_decide; subst; simpl; intros Heq; try congruence;
    try (apply (f_equal (@List.length string)) in Heq; simpl in Heq; lia).
Qed.

Lemma push_plain (S : list string) (seg : string) :
  seg <> "" -> seg <> "." -> seg <> ".." -> Path.push S seg = seg :: S.
Proof. intros. unfold Path.push. repeat case_decide; congruence. Qed.

(** The cache directory, with the normalized working directory made
    explicit. *)
Lemma parsedDir_push cwd r :
  parsedDir (getParsedPaths cwd r)
  = List.rev (Path.push ("parsed" :: "documents" :: List.rev (Path.join [cwd]))
                (fileName r)).
Proof.
  unfold getParsedPaths; simpl parsedDir.
  change [cwd; "documents"; "parsed"; fileName r]
    with ((([cwd] ++ ["documents"]) ++ ["parsed"]) ++ [fileName r])%list.
  rewrite (join_snoc _ (fileName r)) by apply fileName_slash_free.
  rewrite (join_snoc _ "parsed") by reflexivity.
  rewrite (join_snoc _ "documents") by reflexivity.
  rewrite !List.rev_involutive.
  rewrite (push_plain _ "documents"), (push_plain _ "parsed")
    by discriminate.
  reflexivity.
Qed.

Lemma cache_file_push cwd r (name : string) :
  slash_free name = true -> name <> "" -> name <> "." -> name <> ".." ->
  Path.join ([cwd; "documents"; "parsed"; fileName r] ++ [name])
  = List.rev (name :: List.rev (parsedDir (getParsedPaths cwd r))).
Proof.
  intros Hs H1 H2 H3. rewrite join_snoc by assumption.
  rewrite push_plain by assumption. reflexivity.
Qed.

Lemma documentsPath_push cwd r :
  documentsPath (getParsedPaths cwd r)
  = List.rev ("documents.json" :: List.rev (parsedDir (getParsedPaths cwd r))).
Proof. apply cache_file_push; (reflexivity || discriminate). Qed.

Lemma metadataPath_push cwd r :
  metadataPath (getParsedPaths cwd r)
  = List.rev ("metadata.json" :: List.rev (parsedDir (getParsedPaths cwd r))).
Proof. apply cache_file_push; (reflexivity || discriminate). Qed.

Lemma rev_inj {A} (l1 l2 : list A) : List.rev l1 = List.rev l2 -> l1 = l2.
Proof.
  intros H. apply (f_equal (@List.rev A)) in H.
  now rewrite !List.rev_involutive in H.
Qed.

Lemma parsedDir_inj cwd r1 r2 :
  parsedDir (getParsedPaths cwd r1) = parsedDir (getParsedPaths cwd r2) ->
  fileName r1 = fileName r2.
Proof.
  rewrite !parsedDir_push. intros H. apply rev_inj in H.
  eapply push_inj; eauto using fileName_nonempty.
Qed.

End Locations.

(** C9 (as stated, refuted): two distinct document paths with the same base
    file name are given one and the same cache directory and cache files. *)
Lemma getParsedPaths_alias :
  "papers/rcc.pdf" <> "drafts/rcc.pdf"
  /\ getParsedPaths "/srv/app" "papers/rcc.pdf"
     = getParsedPaths "/srv/app" "drafts/rcc.pdf".
Proof. split; [discriminate | reflexivity]. Qed.

(** C9 (amended): the cache location is a function of the base file name
    alone.  Two document paths share the cache directory, the segments file
    or the metadata file exactly when their base file names (last path
    component without its last extension, ["document"] when that is empty)
    are equal; document paths with different base file names never share a
    cache location. *)
Theorem cache_location_iff_fileName (cwd r1 r2 : string) :
  (parsedDir (getParsedPaths cwd r1) = parsedDir (getParsedPaths cwd r2)
     <-> fileName r1 = fileName r2)
  /\ (documentsPath (getParsedPaths cwd r1) = documentsPath (getParsedPaths cwd r2)
     <-> fileName r1 = fileName r2)
  /\ (metadataPath (getParsedPaths cwd r1) = metadataPath (getParsedPaths cwd r2)
     <-> fileName r1 = fileName r2).
Proof.
  split; [|split]; split.
  - apply parsedDir_inj.
  - intros H. unfold getParsedPaths; simpl. now rewrite H.
  - rewrite !documentsPath_push. intros H. apply rev_inj in H. injection H as H.
    apply rev_inj in H. now apply parsedDir_inj in H.
  - intros H. unfold getParsedPaths; simpl. now rewrite H.
  - rewrite !metadataPath_push. intros H. apply rev_inj in H. injection H as H.
    apply rev_inj in H. now apply parsedDir_inj in H.
  - intros H. unfold getParsedPaths; simpl. now rewrite H.
Qed.

(** ** Freshness *)

(** C5: [shouldUseParsedFiles] never throws; it answers [true] exactly when
    the source file, the cached segments file and the cached metadata file
    can all three be stat'ed and both cache files' modification times are at
    least the source file's; so a failing [stat] (missing file, rejected
    call) makes it answer [false].  It leaves the file system and the
    registry as they are. *)
Theorem shouldUseParsedFiles_iff (env : Env) (w : World) (ref : string) :
  let paths := getParsedPaths (cwd env) ref in
  exists b w',
    shouldUseParsedFiles env ref w = (Ok b, w')
    /\ (b = true <->
        exists s d m,
          fst (stat env (sourcePath env ref) w) = Ok s
          /\ fst (stat env (documentsPath paths) w) = Ok d
          /\ fst (stat env (metadataPath paths) w) = Ok m
          /\ st_mtime d >= st_mtime s
          /\ st_mtime m >= st_mtime s)
    /\ ((forall s, fst (stat env (sourcePath env ref) w) <> Ok s)
        \/ (forall d, fst (stat env (documentsPath paths) w) <> Ok d)
        \/ (forall m, fst (stat env (metadataPath paths) w) <> Ok m)
        -> b = false)
    /\ fs w' = fs w
    /\ documentIndices w' = documentIndices w.
Proof.
  intros paths. rewrite shouldUseParsedFiles_run. fold paths.
  eexists _, _. split; [reflexivity|].
  setoid_rewrite stat_ok_iff.
  generalize (sourcePath env ref) (documentsPath paths) (metadataPath paths).
  intros sp dp mp.
  destruct (lookup_stats env w sp) as [s|];
    destruct (lookup_stats env w dp) as [d|];
    destruct (lookup_stats env w mp) as [m|];
    (split; [split|split; [|split; reflexivity]]);
    try (intros (s' & d' & m' & Hs & Hd & Hm & _); discriminate);
    try discriminate; try reflexivity.
  - intros H. apply andb_prop in H as [H1 H2].
    exists s, d, m. repeat split; try reflexivity;
      apply Z.le_ge; apply Z.geb_le; assumption.
  - intros (s' & d' & m' & Hs & Hd & Hm & H1 & H2).
    injection Hs as <-. injection Hd as <-. injection Hm as <-.
    apply andb_true_intro. split; apply Z.geb_le; lia.
  - intros [H|[H|H]]; exfalso; eapply H; reflexivity.
Qed.

(** ** Loading the cache *)

Section Loading.

Variable env : Env.

Lemma readFile_run p w :
  readFile env p w
  = (if fs_denied env p then Throw (SystemError "EACCES")
     else match node_at (fs w) p with
          | Some (NFile data _ _) => Ok data
          | Some (NDir _) => Throw (SystemError "EISDIR")
          | None => Throw (SystemError "ENOENT")
          end, log [EReadFile p] w).
Proof.
  unfold readFile, guard, bind, emit, get_world, log. simpl.
  destruct (fs_denied env p); simpl; [reflexivity|].
  destruct (node_at (fs w) p) as [[]|]; reflexivity.
Qed.

Lemma or_not_nullish a b : Js.nullish b = false -> Js.nullish (Js.or a b) = false.
Proof.
  intros Hb. unfold Js.or. destruct (Js.truthy a) eqn:Ha; [|assumption].
  destruct a; try discriminate; reflexivity.
Qed.

Lemma coalesce_not_nullish a b :
  Js.nullish b = false -> Js.nullish (Js.coalesce a b) = false.
Proof. intros Hb. unfold Js.coalesce. destruct (Js.nullish a) eqn:Ha; assumption. Qed.

Lemma coalesce_id a b : Js.nullish a = false -> Js.coalesce a b = a.
Proof. intros Ha. unfold Js.coalesce. now rewrite Ha. Qed.

(** The constructor leaves file system, registry and trace alone and
    returns a constructed document. *)
Lemma new_Document_run i t m w :
  exists d w',
    new_Document env i t m w = (Ok d, w')
    /\ fs w' = fs w /\ documentIndices w' = documentIndices w
    /\ trace w' = trace w
    /\ text d = Js.coalesce t (JStr "")
    /\ metadata d = Js.coalesce m (JObj [])
    /\ (Js.nullish i = false -> id_ d = i /\ w' = w)
    /\ constructed d = true.
Proof.
  unfold new_Document, bind, constructed.
  destruct (Js.nullish i) eqn:Hi; simpl.
  - eexists _, _. split; [reflexivity|]. simpl.
    rewrite !coalesce_not_nullish by reflexivity.
    repeat split; discriminate.
  - eexists _, _. split; [reflexivity|]. simpl.
    rewrite Hi, !coalesce_not_nullish by reflexivity.
    repeat split; reflexivity.
Qed.

Lemma revive_run item w :
  exists r w',
    revive env item w = (r, w')
    /\ fs w' = fs w /\ documentIndices w' = documentIndices w
    /\ trace w' = trace w
    /\ if Js.nullish item then r = Throw TypeError
       else exists d, r = Ok d /\ loaded_from item d.
Proof.
  unfold revive, get_prop, bind.
  destruct (Js.nullish item) eqn:Hn; simpl.
  - eexists _, _. repeat split; reflexivity.
  - destruct (new_Document_run (Js.field item "id_") (Js.field item "text")
                (Js.or (Js.field item "metadata") (JObj [])) w)
      as (d & w' & Hrun & Hfs & Hix & Htr & Ht & Hm & Hi & Hc).
    rewrite Hrun. exists (Ok d), w'. repeat split; try assumption.
    exists d. split; [reflexivity|]. repeat split; try assumption.
    + rewrite Hm. apply coalesce_id, or_not_nullish. reflexivity.
    + intros H. now apply Hi.
Qed.

Lemma map_m_revive items w :
  exists r w',
    map_m (revive env) items w = (r, w')
    /\ fs w' = fs w /\ documentIndices w' = documentIndices w
    /\ trace w' = trace w
    /\ if List.forallb (fun item => negb (Js.nullish item)) items
       then exists docs, r = Ok docs /\ List.Forall2 loaded_from items docs
       else exists e, r = Throw e.
Proof.
  revert w. induction items as [|item items IH]; intros w; simpl.
  - eexists _, _. repeat split; try reflexivity.
    exists []. split; [reflexivity|constructor].
  - unfold bind at 1.
    destruct (revive_run item w) as (r & w1 & Hrun & Hfs & Hix & Htr & Hr).
    rewrite Hrun.
    destruct (Js.nullish item); simpl.
    + subst r. eexists _, _. repeat split; try eassumption. eauto.
    + destruct Hr as (d & -> & Hd). unfold bind at 1.
      destruct (IH w1) as (r' & w2 & Hrun' & Hfs' & Hix' & Htr' & Hr').
      rewrite Hrun'.
      destruct (List.forallb _ items).
      * destruct Hr' as (docs & -> & Hdocs). simpl.
        eexists _, _. repeat split; try congruence.
        exists (d :: docs). split; [reflexivity|]. now constructor.
      * destruct Hr' as (e & ->).
        eexists _, _. repeat split; try congruence. eauto.
Qed.

(** [loadParsedDocuments] reads the segments file once, touches nothing,
    and succeeds exactly on a usable cache entry. *)
Lemma loadParsedDocuments_spec ref w :
  exists r w',
    loadParsedDocuments env ref w = (r, w')
    /\ fs w' = fs w /\ documentIndices w' = documentIndices w
    /\ trace w' = (trace w
                   ++ [EReadFile (documentsPath (getParsedPaths (cwd env) ref))])%list
    /\ match cache_entries env (fs w) ref with
       | None => r = Throw CacheCorrupt
       | Some items =>
           exists docs, r = Ok docs /\ List.Forall2 loaded_from items docs
       end.
Proof.
  unfold loadParsedDocuments, cache_entries, try_catch.
  generalize (documentsPath (getParsedPaths (cwd env) ref)). intros p.
  unfold bind at 1. rewrite readFile_run.
  destruct (fs_denied env p).
  { eexists _, _. repeat split; reflexivity. }
  destruct (node_at (fs w) p) as [[data size mtime|mtime]|];
    try (eexists _, _; repeat split; reflexivity).
  unfold bind at 1.
  destruct data as [v|bytes]; simpl JSON_parse;
    try (eexists _, _; repeat split; reflexivity).
  unfold ret at 1.
  destruct v; try (eexists _, _; repeat split; reflexivity).
  simpl array_map.
  destruct (map_m_revive items (log [EReadFile p] w))
    as (r & w' & Hrun & Hfs & Hix & Htr & Hr).
  rewrite Hrun.
  destruct (List.forallb _ items).
  - destruct Hr as (docs & -> & Hdocs).
    eexists _, _. repeat split; try eassumption. eauto.
  - destruct Hr as (e & ->). unfold throw.
    eexists _, _. repeat split; try eassumption.
Qed.

End Loading.

(** ** Combined indices *)

Section Combined.

Variable env : Env.

Lemma configureSettings_run w :
  configureSettings env w
  = match deepseek_init env with
    | Some e => (Throw e, w)
    | None => if huggingface_init env then (Ok tt, configured w)
              else (Throw EmbeddingInitFailed, w)
    end.
Proof.
  unfold configureSettings, bind, try_catch.
  destruct (deepseek_init env); simpl; [reflexivity|].
  destruct (huggingface_init env); reflexivity.
Qed.

Lemma fromDocuments_run docs w :
  fromDocuments env docs w
  = (match embed_documents env (ticks w) docs with
     | Some e => Throw e
     | None => Ok {| index_id := ticks w; index_docs := docs |}
     end, ticked (log [EFromDocuments docs] w)).
Proof.
  unfold fromDocuments, bind, emit, tick. simpl.
  destruct (embed_documents env (ticks w) docs); reflexivity.
Qed.

Lemma with_source_run ref d w :
  constructed d = true -> with_source env ref d w = (Ok (tagged ref d), w).
Proof.
  unfold constructed, with_source, new_Document, bind, tagged. intros H.
  apply andb_prop in H as [H Hm]. apply andb_prop in H as [Hi Ht].
  apply negb_true_iff in Hi, Ht. rewrite Hi. simpl.
  now rewrite (coalesce_id (text d)) by assumption.
Qed.

Lemma map_m_with_source ref docs w :
  List.Forall (fun d => constructed d = true) docs ->
  map_m (with_source env ref) docs w = (Ok (List.map (tagged ref) docs), w).
Proof.
  induction 1 as [|d docs Hd _ IH]; simpl; [reflexivity|].
  unfold bind. now rewrite with_source_run, IH.
Qed.

Lemma loaded_constructed items docs :
  List.Forall2 loaded_from items docs ->
  List.Forall (fun d => constructed d = true) docs.
Proof.
  induction 1 as [|item d items docs (_ & _ & _ & Hc) _ IH]; constructor;
    assumption.
Qed.

(** The loop of [getCombinedIndex]: one read per document path, nothing
    else touched, and the accumulator grows by the contribution of each
    path in turn. *)
Lemma collect_documents_spec refs :
  forall acc w,
  exists chunks w',
    collect_documents env refs acc w = (Ok (acc ++ List.concat chunks)%list, w')
    /\ List.Forall2 (chunk_of env (fs w)) refs chunks
    /\ fs w' = fs w /\ documentIndices w' = documentIndices w
    /\ trace w' = (trace w ++ reads_of env refs)%list.
Proof.
  induction refs as [|ref refs IH]; intros acc w; simpl.
  - exists [], w. simpl. rewrite !List.app_nil_r.
    repeat split; constructor.
  - unfold bind at 1, try_catch, bind at 1.
    destruct (loadParsedDocuments_spec env ref w)
      as (r & w1 & Hrun & Hfs & Hix & Htr & Hr).
    rewrite Hrun.
    destruct (cache_entries env (fs w) ref) as [items|] eqn:Hc.
    + destruct Hr as (docs & -> & Hdocs).
      unfold bind at 1.
      rewrite map_m_with_source by eauto using loaded_constructed.
      unfold ret at 1.
      destruct (IH (acc ++ List.map (tagged ref) docs)%list w1)
        as (chunks & w' & Hrun' & Hch & Hfs' & Hix' & Htr').
      exists (List.map (tagged ref) docs :: chunks), w'. simpl.
      rewrite Hrun', List.app_assoc. repeat split; try congruence.
      * constructor; [|now rewrite <- Hfs].
        unfold chunk_of. rewrite Hc. eauto.
      * rewrite Htr', Htr, <- List.app_assoc. reflexivity.
    + subst r. unfold ret at 1.
      destruct (IH acc w1) as (chunks & w' & Hrun' & Hch & Hfs' & Hix' & Htr').
      exists ([] :: chunks), w'. simpl.
      rewrite Hrun'. repeat split; try congruence.
      * constructor; [|now rewrite <- Hfs].
        unfold chunk_of. now rewrite Hc.
      * rewrite Htr', Htr, <- List.app_assoc. reflexivity.
Qed.

(** [getCombinedIndex], computed up to the contributions. *)
Lemma getCombinedIndex_spec refs w :
  exists chunks w1,
    List.Forall2 (chunk_of env (fs w)) refs chunks
    /\ fs w1 = fs w /\ documentIndices w1 = documentIndices w
    /\ trace w1 = (trace w ++ reads_of env refs)%list
    /\ getCombinedIndex env refs w
       = if is_empty (List.concat chunks) then (Ok None, w1)
         else match deepseek_init env with
              | Some e => (Throw e, w1)
              | None =>
                  if huggingface_init env then
                    (match embed_documents env (ticks w1) (List.concat chunks) with
                     | Some e => Throw e
                     | None => Ok (Some {| index_id := ticks w1;
                                           index_docs := List.concat chunks |})
                     end,
                     ticked (log [EFromDocuments (List.concat chunks)]
                               (configured w1)))
                  else (Throw EmbeddingInitFailed, w1)
              end.
Proof.
  destruct (collect_documents_spec refs [] w)
    as (chunks & w1 & Hrun & Hch & Hfs & Hix & Htr).
  exists chunks, w1. repeat split; try assumption.
  unfold getCombinedIndex, bind at 1. rewrite Hrun. simpl.
  destruct (is_empty (List.concat chunks)); [reflexivity|].
  unfold bind at 1. rewrite configureSettings_run.
  destruct (deepseek_init env); [reflexivity|].
  destruct (huggingface_init env); [|reflexivity].
  unfold bind. rewrite fromDocuments_run. simpl.
  destruct (embed_documents env (ticks w1) (List.concat chunks)); reflexivity.
Qed.

End Combined.

Lemma events_since_app (w w' : World) (evs : list Event) :
  trace w' = (trace w ++ evs)%list -> events_since w w' = evs.
Proof.
  intros H. unfold events_since. rewrite H.
  rewrite List.skipn_app, List.skipn_all, Nat.sub_diag. reflexivity.
Qed.

Lemma lookup_set k v props : Js.lookup k (Js.set k v props) = Some v.
Proof.
  induction props as [|[k' v'] props IH]; simpl.
  - now rewrite String.eqb_refl.
  - destruct (String.eqb k k') eqn:E; simpl; rewrite E; [reflexivity|exact IH].
Qed.


Lemma Forall2_In_r {A B} (R : A -> B -> Prop) l1 l2 y :
  List.Forall2 R l1 l2 -> In y l2 -> exists x, In x l1 /\ R x y.
Proof.
  induction 1 as [|a b l1 l2 Hab _ IH]; simpl; [tauto|].
  intros [->|Hin]; [eauto|].
  destruct (IH Hin) as (x & Hx & HR). eauto.
Qed.

Lemma is_empty_true {A} (l : list A) : is_empty l = true <-> l = [].
Proof. destruct l; simpl; split; congruence. Qed.

(** C6: every segment of the index returned by [getCombinedIndex] carries, as
    [source_document], the document path from whose cache file it was
    loaded, whatever metadata the cached segment had; its other metadata and
    its text are those of the cache entry.  The segments are the contents of
    the cache files, read once per document path, in order; the registry is
    neither consulted nor changed. *)
Theorem getCombinedIndex_attribution (env : Env) (w : World)
    (refs : list string) (ix : VectorStoreIndex) (w' : World) :
  getCombinedIndex env refs w = (Ok (Some ix), w') ->
  (exists chunks,
      List.Forall2 (chunk_of env (fs w)) refs chunks
      /\ index_docs ix = List.concat chunks)
  /\ (forall d, In d (index_docs ix) ->
        exists ref items item,
          In ref refs
          /\ cache_entries env (fs w) ref = Some items
          /\ In item items
          /\ Js.field (metadata d) "source_document" = JStr ref
          /\ Js.own_props (metadata d)
             = Js.set "source_document" (JStr ref)
                 (Js.own_props (Js.or (Js.field item "metadata") (JObj [])))
          /\ text d = Js.coalesce (Js.field item "text") (JStr ""))
  /\ events_since w w' = (reads_of env refs ++ [EFromDocuments (index_docs ix)])%list
  /\ documentIndices w' = documentIndices w.
Proof.
  intros Hrun.
  destruct (getCombinedIndex_spec env refs w)
    as (chunks & w1 & Hch & Hfs & Hix & Htr & Heq).
  rewrite Heq in Hrun. clear Heq.
  destruct (is_empty (List.concat chunks)); [discriminate|].
  destruct (deepseek_init env); [discriminate|].
  destruct (huggingface_init env); [|discriminate].
  destruct (embed_documents env (ticks w1) (List.concat chunks)); [discriminate|].
  injection Hrun as <- <-. simpl.
  split; [eauto|]. split; [|split; [|assumption]].
  - intros d Hd. apply List.in_concat in Hd as (chunk & Hchunk & Hd).
    destruct (Forall2_In_r _ _ _ _ Hch Hchunk) as (ref & Href & Hc).
    unfold chunk_of in Hc.
    destruct (cache_entries env (fs w) ref) as [items|] eqn:Hce;
      [|subst chunk; destruct Hd].
    destruct Hc as (docs & Hdocs & ->).
    apply List.in_map_iff in Hd as (d0 & <- & Hd0).
    destruct (Forall2_In_r _ _ _ _ Hdocs Hd0) as (item & Hitem & Ht & Hm & _).
    exists ref, items, item. repeat split; try assumption.
    + simpl. now rewrite lookup_set.
    + simpl. now rewrite Hm.
  - apply events_since_app. simpl. rewrite Htr.
    now rewrite <- List.app_assoc.
Qed.

Lemma getCombinedIndex_attribution_witness :
  let ix := {| index_id := 0; index_docs := [tagged Sample.A Sample.segment] |} in
  let run := getCombinedIndex Sample.env [Sample.A; Sample.B] Sample.fresh in
  run = (Ok (Some ix), snd run)
  /\ Js.field (metadata Sample.segment) "source_document" = JUndef
  /\ forall d, In d (index_docs ix) ->
       Js.field (metadata d) "source_document" = JStr Sample.A.
Proof.
  intros ix run.
  assert (Hrun : run = (Ok (Some ix), snd run)) by (vm_compute; reflexivity).
  split; [exact Hrun|]. split; [reflexivity|].
  intros d Hd.
  destruct (getCombinedIndex_attribution _ _ _ _ _ Hrun) as (_ & Hall & _).
  destruct (Hall d Hd) as (ref & items & item & Href & Hce & _ & Hsrc & _).
  rewrite Hsrc. destruct Href as [<-|[<-|[]]]; [reflexivity|].
  vm_compute in Hce. discriminate.
Defined.

Lemma loaded_from_nil_iff items docs :
  List.Forall2 loaded_from items docs -> (docs = [] <-> items = []).
Proof. destruct 1; split; congruence. Qed.

Lemma chunks_empty_iff env f refs chunks :
  List.Forall2 (chunk_of env f) refs chunks ->
  (List.concat chunks = [] <->
   forall ref, In ref refs ->
     cache_entries env f ref = None \/ cache_entries env f ref = Some []).
Proof.
  induction 1 as [|ref chunk refs chunks Hc _ IH]; simpl.
  - split; [intros _ ref []|reflexivity].
  - split.
    + intros H. apply List.app_eq_nil in H as [H1 H2].
      intros ref' [<-|Hin]; [|now apply IH].
      unfold chunk_of in Hc. destruct (cache_entries env f ref) as [items|];
        [|now left].
      destruct Hc as (docs & Hdocs & ->). right. f_equal.
      apply (loaded_from_nil_iff _ _ Hdocs).
      now destruct docs.
    + intros H.
      assert (Hchunk : chunk = []).
      { unfold chunk_of in Hc.
        destruct (H ref (or_introl eq_refl)) as [E|E]; rewrite E in Hc;
          [assumption|].
        destruct Hc as (docs & Hdocs & ->).
        inversion Hdocs. reflexivity. }
      rewrite Hchunk. simpl. apply IH. intros ref' Hin. apply H. now right.
Qed.

(** The outcome of [getCombinedIndex] in terms of the contributions. *)
Lemma getCombinedIndex_chunks (env : Env) (w : World) (refs : list string)
    (r : Res (option VectorStoreIndex)) (w' : World) :
  getCombinedIndex env refs w = (r, w') ->
  exists chunks,
    List.Forall2 (chunk_of env (fs w)) refs chunks
    /\ (r = Ok None <-> List.concat chunks = [])
    /\ (forall ix, r = Ok (Some ix) -> index_docs ix = List.concat chunks).
Proof.
  intros Hrun.
  destruct (getCombinedIndex_spec env refs w)
    as (chunks & w1 & Hch & Hfs & Hix & Htr & Heq).
  rewrite Heq in Hrun. clear Heq.
  exists chunks. split; [assumption|]. split.
  - rewrite <- is_empty_true.
    destruct (is_empty (List.concat chunks)).
    + injection Hrun as <- _. tauto.
    + split; [|discriminate]. intros ->.
      destruct (deepseek_init env); [discriminate|].
      destruct (huggingface_init env); [|discriminate].
      destruct (embed_documents env (ticks w1) (List.concat chunks));
        discriminate.
  - intros ix ->.
    destruct (is_empty (List.concat chunks)); [discriminate|].
    destruct (deepseek_init env); [discriminate|].
    destruct (huggingface_init env); [|discriminate].
    destruct (embed_documents env (ticks w1) (List.concat chunks));
      [discriminate|].
    injection Hrun as <- _. reflexivity.
Qed.

(** C7: [getCombinedIndex] skips every document path whose cached segments
    cannot be loaded and builds from the contributions of the others; it
    returns [undefined] exactly when no document path contributes a segment.
    With [B] not loadable and [A] cached with at least one segment,
    [getCombinedIndex [A; B]] is not [undefined], any index it returns
    consists of the segments of [A] alone, and it does return one when the
    settings initialize and the builder accepts the segments;
    [getCombinedIndex [B]] is [undefined]. *)
Theorem getCombinedIndex_partial_availability (env : Env) (w : World)
    (refs : list string) (r : Res (option VectorStoreIndex)) (w' : World) :
  getCombinedIndex env refs w = (r, w') ->
  (r = Ok None <->
     forall ref, In ref refs ->
       cache_entries env (fs w) ref = None
       \/ cache_entries env (fs w) ref = Some [])
  /\ (exists chunks,
        List.Forall2 (chunk_of env (fs w)) refs chunks
        /\ forall ix, r = Ok (Some ix) -> index_docs ix = List.concat chunks)
  /\ (forall A B itemsA,
        refs = [A; B] ->
        cache_entries env (fs w) A = Some itemsA -> itemsA <> [] ->
        cache_entries env (fs w) B = None ->
        r <> Ok None
        /\ (forall ix, r = Ok (Some ix) ->
              exists docs, List.Forall2 loaded_from itemsA docs
                           /\ index_docs ix = List.map (tagged A) docs)
        /\ (deepseek_init env = None -> huggingface_init env = true ->
            (forall n docs, embed_documents env n docs = None) ->
            exists ix, r = Ok (Some ix)))
  /\ (forall B, refs = [B] -> cache_entries env (fs w) B = None -> r = Ok None).
Proof.
  intros Hrun.
  destruct (getCombinedIndex_chunks env w refs r w' Hrun)
    as (chunks & Hch & Hnone & Hsome).
  pose proof (chunks_empty_iff _ _ _ _ Hch) as Hempty.
  assert (Hret : deepseek_init env = None -> huggingface_init env = true ->
                 (forall n docs, embed_documents env n docs = None) ->
                 List.concat chunks <> [] -> exists ix, r = Ok (Some ix)).
  { intros Hd Hh He Hne.
    destruct (getCombinedIndex_spec env refs w)
      as (chunks' & w1 & _ & _ & _ & _ & Heq).
    rewrite Heq, Hd, Hh, He in Hrun.
    destruct (is_empty (List.concat chunks')) eqn:E.
    - injection Hrun as <- _. exfalso. apply Hne. now apply Hnone.
    - injection Hrun as <- _. eauto. }
  split; [now rewrite Hnone|]. split; [eauto|]. split.
  - intros A B itemsA -> HA Hne HB.
    inversion Hch as [|? chunkA ? rest HcA Hrest]; subst.
    inversion Hrest as [|? chunkB ? rest' HcB Hnil]; subst.
    inversion Hnil; subst.
    unfold chunk_of in HcA, HcB. rewrite HA in HcA. rewrite HB in HcB.
    destruct HcA as (docs & Hdocs & ->). subst chunkB. simpl in *.
    rewrite List.app_nil_r in *.
    assert (Hdocs_ne : List.map (tagged A) docs <> []).
    { intros E. apply List.map_eq_nil in E.
      apply (loaded_from_nil_iff _ _ Hdocs) in E. contradiction. }
    split; [tauto|]. split; [eauto|].
    intros Hd Hh He. now apply Hret.
  - intros B -> HB. apply Hnone, Hempty. intros ref [<-|[]]. now left.
Qed.

Lemma getCombinedIndex_partial_availability_witness :
  let both := getCombinedIndex Sample.env [Sample.A; Sample.B] Sample.fresh in
  let alone := getCombinedIndex Sample.env [Sample.B] Sample.fresh in
  cache_entries Sample.env (fs Sample.fresh) Sample.A = Some [Sample.entry]
  /\ cache_entries Sample.env (fs Sample.fresh) Sample.B = None
  /\ (exists ix, fst both = Ok (Some ix)
                 /\ index_docs ix = [tagged Sample.A Sample.segment])
  /\ fst alone = Ok None.
Proof.
  intros both alone.
  assert (HA : cache_entries Sample.env (fs Sample.fresh) Sample.A
               = Some [Sample.entry]) by (vm_compute; reflexivity).
  assert (HB : cache_entries Sample.env (fs Sample.fresh) Sample.B = None)
    by (vm_compute; reflexivity).
  split; [exact HA|]. split; [exact HB|].
  destruct (getCombinedIndex_partial_availability Sample.env Sample.fresh
              [Sample.A; Sample.B] (fst both) (snd both)
              (surjective_pairing both)) as (_ & _ & Hpair & _).
  destruct (Hpair Sample.A Sample.B [Sample.entry] eq_refl HA
              ltac:(discriminate) HB) as (_ & _ & Hret).
  destruct (getCombinedIndex_partial_availability Sample.env Sample.fresh
              [Sample.B] (fst alone) (snd alone)
              (surjective_pairing alone)) as (_ & _ & _ & Hone).
  split; [|exact (Hone Sample.B eq_refl HB)].
  destruct (Hret eq_refl eq_refl (fun _ _ => eq_refl)) as (ix & Hix).
  exists ix. split; [exact Hix|].
  assert (E : fst both = Ok (Some {| index_id := 0;
                 index_docs := [tagged Sample.A Sample.segment] |}))
    by (vm_compute; reflexivity).
  rewrite E in Hix. injection Hix as <-. reflexivity.
Defined.




(** ** Saving and loading *)

Section RoundTrip.

Variable env : Env.


Lemma documentsPath_neq_metadataPath ref :
  documentsPath (getParsedPaths (cwd env) ref)
  <> metadataPath (getParsedPaths (cwd env) ref).
Proof.
  rewrite documentsPath_push, metadataPath_push. intros H.
  apply rev_inj in H. discriminate.
Qed.

Lemma documentsPath_not_root ref :
  documentsPath (getParsedPaths (cwd env) ref) <> [].
Proof.
  rewrite documentsPath_push. simpl. intros H.
  apply List.app_eq_nil in H as [_ H]. discriminate.
Qed.

Lemma node_at_lookup f p : p <> [] -> node_at f p = f !! p.
Proof. destruct p; [congruence|reflexivity]. Qed.







End RoundTrip.




(** ** Preparing and getting an index *)

Ltac unfold_manager :=
  unfold prepare_documents, parseAndSaveDocuments, saveParsedDocuments,
    saveParsedDocuments_try, loadParsedDocuments, shouldUseParsedFiles,
    result_documents, page_document, layout_item, revive, new_Document,
    loadJson, loadData, array_map, get_prop, JSON_parse,
    mkdir, writeFile, readFile, stat, guard.

Section Prepare.

Variable env : Env.

(** Obtaining the segments never touches the registry. *)
Lemma prepare_documents_same_indices ref :
  respects same_indices (prepare_documents env ref).
Proof. unfold_manager. frame. Qed.


Lemma count_none (P : Event -> bool) evs :
  List.forallb (fun ev => negb (P ev)) evs = true -> count P evs = 0%nat.
Proof.
  unfold count. induction evs as [|ev evs IH]; simpl; [reflexivity|].
  intros H. apply andb_prop in H as [H1 H2].
  apply negb_true_iff in H1. rewrite H1. now apply IH.
Qed.

Lemma count_app (P : Event -> bool) evs1 evs2 :
  count P (evs1 ++ evs2) = (count P evs1 + count P evs2)%nat.
Proof. unfold count. now rewrite List.filter_app, List.length_app. Qed.

(** [prepareIndex], computed up to the segments. *)
Lemma prepareIndex_run ref w :
  prepareIndex env ref w
  = match configureSettings env w with
    | (Throw e, w0) => (Throw e, w0)
    | (Ok _, w0) =>
        match documentIndices w0 !! ref with
        | Some _ => (Ok tt, w0)
        | None =>
            match prepare_documents env ref w0 with
            | (Throw e, w1) => (Throw e, w1)
            | (Ok docs, w1) =>
                if is_empty docs then (Throw EmptyDocument, w1)
                else
                  match embed_documents env (ticks w1) docs with
                  | Some e => (Throw e, ticked (log [EFromDocuments docs] w1))
                  | None =>
                      (Ok tt,
                       registered ref {| index_id := ticks w1; index_docs := docs |}
                         (ticked (log [EFromDocuments docs] w1)))
                  end
            end
        end
    end.
Proof.
  unfold prepareIndex, bind at 1.
  destruct (configureSettings env w) as [[[]|e] w0]; [|reflexivity].
  unfold bind at 1, get_world at 1.
  destruct (documentIndices w0 !! ref); [reflexivity|].
  unfold bind at 1.
  destruct (prepare_documents env ref w0) as [[docs|e] w1]; [|reflexivity].
  destruct (is_empty docs); [reflexivity|].
  unfold bind at 1. rewrite fromDocuments_run.
  destruct (embed_documents env (ticks w1) docs); reflexivity.
Qed.

End Prepare.



(** C3: when the segments obtained for a document path (from the cache or
    from the parser) are zero, [prepareIndex] throws the empty-document error
    and the registry is as before.  More generally a [prepareIndex] call that
    throws leaves the registry as it was, and a call that changes the
    registry has returned normally after an index build that succeeded: the
    change is the insertion of the index built from the segments. *)
Theorem prepareIndex_empty_document (env : Env) (w : World) (ref : string)
    (r : Res unit) (w' : World) :
  prepareIndex env ref w = (r, w') ->
  (forall w0 w1,
     documentIndices w !! ref = None ->
     configureSettings env w = (Ok tt, w0) ->
     prepare_documents env ref w0 = (Ok [], w1) ->
     r = Throw EmptyDocument /\ w' = w1
     /\ documentIndices w' = documentIndices w
     /\ documentIndices w' !! ref = None)
  /\ (forall e, r = Throw e -> documentIndices w' = documentIndices w)
  /\ (documentIndices w' <> documentIndices w ->
      r = Ok tt
      /\ exists ix,
           documentIndices w' = <[ref := ix]> (documentIndices w)
           /\ index_docs ix <> []
           /\ embed_documents env (index_id ix) (index_docs ix) = None
           /\ List.last (trace w') (EFromDocuments [])
              = EFromDocuments (index_docs ix)).
Proof.
  intros Hrun. rewrite prepareIndex_run in Hrun.
  assert (Hcfg : forall rc w0, configureSettings env w = (rc, w0) ->
                   documentIndices w0 = documentIndices w).
  { intros rc w0. rewrite configureSettings_run.
    destruct (deepseek_init env); [now intros [= _ <-]|].
    destruct (huggingface_init env); now intros [= _ <-]. }
  destruct (configureSettings env w) as [[[]|e0] w0] eqn:Hconf.
  2:{ injection Hrun as <- <-. pose proof (Hcfg _ _ eq_refl) as Hsame.
      split; [intros ? ? _ [=]|]. split; [intros _ _; assumption|].
      intros H; contradiction. }
  pose proof (Hcfg _ _ eq_refl) as Hsame0.
  rewrite Hsame0 in Hrun.
  destruct (documentIndices w !! ref) as [ix0|] eqn:Hreg.
  { injection Hrun as <- <-.
    split; [intros ? ? [=]|]. split; [intros _ _; assumption|].
    intros H; contradiction. }
  pose proof (prepare_documents_same_indices env ref w0) as Hsame1.
  unfold same_indices in Hsame1.
  destruct (prepare_documents env ref w0) as [[docs|e1] w1] eqn:Hprep;
    simpl in Hsame1.
  2:{ injection Hrun as <- <-.
      split; [intros ? ? _ [= <-]; congruence|].
      split; [intros _ _; congruence|]. intros H; exfalso; apply H; congruence. }
  destruct docs as [|d docs]; simpl in Hrun.
  { injection Hrun as <- <-.
    split; [|split; [intros _ _; congruence|
                     intros H; exfalso; apply H; congruence]].
    intros w0' w1' _ [= <-] Hp. rewrite Hprep in Hp. injection Hp as <-.
    repeat split; congruence. }
  destruct (embed_documents env (ticks w1) (d :: docs)) eqn:Hembed.
  { injection Hrun as <- <-. simpl.
    split; [intros w0' w1' _ [= <-] Hp; rewrite Hprep in Hp; discriminate|].
    split; [intros _ _; congruence|]. intros H; exfalso; apply H; congruence. }
  injection Hrun as <- <-. simpl.
  split; [intros w0' w1' _ [= <-] Hp; rewrite Hprep in Hp; discriminate|].
  split; [discriminate|]. intros _. split; [reflexivity|].
  eexists. split; [rewrite Hsame1, Hsame0; reflexivity|]. simpl.
  split; [discriminate|]. split; [assumption|].
  now rewrite List.last_last.
Qed.

Lemma prepareIndex_empty_document_witness :
  let configured_world := snd (configureSettings Sample.env_blank Sample.uncached) in
  let segments := prepare_documents Sample.env_blank Sample.A configured_world in
  let run := prepareIndex Sample.env_blank Sample.A Sample.uncached in
  documentIndices Sample.uncached !! Sample.A = None
  /\ configureSettings Sample.env_blank Sample.uncached = (Ok tt, configured_world)
  /\ segments = (Ok [], snd segments)
  /\ fst run = Throw EmptyDocument
  /\ documentIndices (snd run) = documentIndices Sample.uncached.
Proof.
  intros configured_world segments run.
  assert (Hmiss : documentIndices Sample.uncached !! Sample.A = None)
    by (vm_compute; reflexivity).
  assert (Hconf : configureSettings Sample.env_blank Sample.uncached
                  = (Ok tt, configured_world)) by (vm_compute; reflexivity).
  assert (Hsegs : segments = (Ok [], snd segments)) by (vm_compute; reflexivity).
  destruct (prepareIndex_empty_document Sample.env_blank Sample.uncached
              Sample.A (fst run) (snd run) (surjective_pairing run))
    as (Hempty & _).
  destruct (Hempty configured_world (snd segments) Hmiss Hconf Hsegs)
    as (Hr & _ & Hsame & _).
  split; [exact Hmiss|]. split; [exact Hconf|]. split; [exact Hsegs|].
  split; assumption.
Defined.

Lemma clearIndices_one (ref : string) (w : World) :
  let w' := snd (clearIndices [ref] w) in
  documentIndices w' !! ref = None
  /\ fs w' = fs w
  /\ (forall other, other <> ref ->
        documentIndices w' !! other = documentIndices w !! other).
Proof.
  unfold clearIndices, for_each, bind, get_world, hasIndex. simpl.
  case_bool_decide as Hreg; simpl.
  - split; [apply lookup_delete_eq|]. split; [reflexivity|].
    intros other Hne. now apply lookup_delete_ne.
  - split; [|split; reflexivity].
    destruct (documentIndices w !! ref) eqn:E; [|reflexivity].
    exfalso. apply Hreg. eauto.
Qed.

(** C4: for a document path that is not in the registry, [getIndex] never
    throws and never calls the parser.  It returns an index only after the
    freshness check answered [true] and the cached segments file loaded with
    at least one segment; the index is built from those segments and
    registered, the external calls being, in order, the three [stat]s, the
    read of the segments file and the build.  When the cache is not fresh,
    cannot be loaded or is empty it returns [undefined] and leaves the
    registry as it is.  [clearIndices [ref]] puts [ref] in that situation
    without touching the parse cache. *)
Theorem getIndex_rebuilds_from_cache (env : Env) (w : World) (ref : string) :
  documentIndices w !! ref = None ->
  (exists r w',
     getIndex env ref w = (Ok r, w')
     /\ parser_invocations w w' = 0%nat
     /\ fs w' = fs w
     /\ (r = None -> documentIndices w' = documentIndices w)
     /\ (forall ix, r = Some ix ->
           documentIndices w' = <[ref := ix]> (documentIndices w)
           /\ fst (shouldUseParsedFiles env ref w) = Ok true
           /\ (exists items,
                 cache_entries env (fs w) ref = Some items
                 /\ List.Forall2 loaded_from items (index_docs ix))
           /\ events_since w w'
              = (stats_of env ref
                 ++ [EReadFile (documentsPath (getParsedPaths (cwd env) ref));
                     EFromDocuments (index_docs ix)])%list)
     /\ (fst (shouldUseParsedFiles env ref w) = Ok false
         \/ cache_entries env (fs w) ref = None
         \/ cache_entries env (fs w) ref = Some [] ->
         r = None))
  /\ (forall w0,
        hasIndex (snd (clearIndices [ref] w0)) ref = false
        /\ fs (snd (clearIndices [ref] w0)) = fs w0).
Proof.
  intros Hmiss. split.
  2:{ intros w0. destruct (clearIndices_one ref w0) as (Hgone & Hfs & _).
      split; [|assumption]. unfold hasIndex. rewrite Hgone.
      apply bool_decide_eq_false. intros [x Hx]. discriminate. }
  unfold getIndex, bind at 1, get_world at 1. rewrite Hmiss.
  unfold bind at 1. rewrite shouldUseParsedFiles_run. cbv zeta.
  fold (stats_of env ref).
  set (fresh := match lookup_stats env w (sourcePath env ref) with
                | Some _ => _ | None => _ end).
  assert (Hnoparse : forall evs, List.forallb not_parse evs = true ->
            forall w', trace w' = (trace w ++ evs)%list ->
            parser_invocations w w' = 0%nat).
  { intros evs Hevs w' Htr. unfold parser_invocations.
    rewrite (events_since_app _ _ _ Htr). now apply count_none. }
  destruct fresh.
  2:{ exists None, (log (stats_of env ref) w). split; [reflexivity|].
      split; [eapply Hnoparse; [|reflexivity]; reflexivity|].
      split; [reflexivity|]. split; [reflexivity|].
      split; [discriminate|reflexivity]. }
  unfold try_catch, bind at 1.
  destruct (loadParsedDocuments_spec env ref (log (stats_of env ref) w))
    as (rl & w1 & Hrun & Hfs & Hix & Htr & Hr).
  rewrite Hrun. simpl in Hfs, Hix, Htr, Hr.
  rewrite <- List.app_assoc in Htr.
  assert (Hundefined :
            parser_invocations w w1 = 0%nat
            /\ fs w1 = fs w
            /\ (@None VectorStoreIndex = None ->
                documentIndices w1 = documentIndices w)).
  { split; [eapply Hnoparse; [|eassumption]; reflexivity|]. tauto. }
  destruct (cache_entries env (fs w) ref) as [items|] eqn:Hce.
  2:{ subst rl. exists None, w1. split; [reflexivity|].
      split; [tauto|]. split; [tauto|]. split; [tauto|].
      split; [discriminate|reflexivity]. }
  destruct Hr as (docs & -> & Hdocs).
  destruct docs as [|d docs]; simpl.
  { exists None, w1. split; [reflexivity|].
    split; [tauto|]. split; [tauto|]. split; [tauto|].
    split; [discriminate|reflexivity]. }
  unfold bind at 1. rewrite configureSettings_run.
  destruct (deepseek_init env).
  { exists None, w1. split; [reflexivity|].
    split; [tauto|]. split; [tauto|]. split; [tauto|].
    split; [discriminate|reflexivity]. }
  destruct (huggingface_init env).
  2:{ exists None, w1. split; [reflexivity|].
      split; [tauto|]. split; [tauto|]. split; [tauto|].
      split; [discriminate|reflexivity]. }
  unfold bind at 1. rewrite fromDocuments_run.
  assert (Htr' : forall w2, trace w2 = (trace w1 ++ [EFromDocuments (d :: docs)])%list ->
            trace w2
            = (trace w ++ stats_of env ref
                 ++ [EReadFile (documentsPath (getParsedPaths (cwd env) ref));
                     EFromDocuments (d :: docs)])%list).
  { intros w2 ->. rewrite Htr, <- !List.app_assoc. reflexivity. }
  destruct (embed_documents env (ticks (configured w1)) (d :: docs)).
  { eexists None, _. split; [reflexivity|]. simpl.
    split; [eapply Hnoparse; [|apply Htr'; reflexivity]; reflexivity|].
    split; [assumption|]. split; [intros _; assumption|].
    split; [discriminate|reflexivity]. }
  eexists (Some _), _. split; [reflexivity|]. simpl.
  split; [eapply Hnoparse; [|apply Htr'; reflexivity]; reflexivity|].
  split; [assumption|]. split; [discriminate|]. split.
  - intros ix [= <-]. simpl. split; [now rewrite Hix|].
    split; [reflexivity|]. split; [eauto|].
    apply events_since_app. apply Htr'. reflexivity.
  - intros [H|[H|H]]; [discriminate| discriminate|].
    injection H as ->. inversion Hdocs.
Qed.

Lemma getIndex_rebuilds_from_cache_witness :
  let evicted := snd (clearIndices [Sample.A] Sample.fresh) in
  let run := getIndex Sample.env Sample.A evicted in
  documentIndices evicted !! Sample.A = None
  /\ (exists ix, fst run = Ok (Some ix) /\ index_docs ix = [Sample.segment])
  /\ parser_invocations evicted (snd run) = 0%nat.
Proof.
  intros evicted run.
  assert (Hmiss : documentIndices evicted !! Sample.A = None)
    by (vm_compute; reflexivity).
  destruct (getIndex_rebuilds_from_cache Sample.env evicted Sample.A Hmiss)
    as ((r & w' & Hrun & Hparse & _) & _).
  split; [exact Hmiss|].
  assert (E : fst run = Ok (Some {| index_id := 0;
                                    index_docs := [Sample.segment] |}))
    by (vm_compute; reflexivity).
  split; [eexists; split; [exact E|reflexivity]|].
  unfold run. rewrite Hrun. exact Hparse.
Defined.

(** ** Concurrent calls *)

Section Concurrency.

Variable env : Env.

(** A call resumed until it settles, nothing else running, is
    [prepareIndex]. *)
Lemma alone_is_prepareIndex ref w :
  let '(t, w') := alone env 5 (T_start ref) w in
  outcome t = Some (fst (prepareIndex env ref w))
  /\ w' = snd (prepareIndex env ref w).
Proof.
  destruct (prepareIndex env ref w) as [r wp] eqn:Hp.
  rewrite prepareIndex_run in Hp. unfold alone, task_step at 1.
  destruct (configureSettings env w) as [[[]|e] w0];
    [|injection Hp as <- <-; simpl; tauto].
  destruct (documentIndices w0 !! ref);
    [injection Hp as <- <-; simpl; tauto|].
  unfold prepare_documents, bind, try_catch in Hp. unfold task_step at 1.
  destruct (shouldUseParsedFiles env ref w0) as [[[]|e] w1];
    [| |injection Hp as <- <-; simpl; tauto].
  - unfold task_step at 1.
    destruct (loadParsedDocuments env ref w1) as [[docs|e] w2].
    + unfold after_documents.
      destruct (is_empty docs); [injection Hp as <- <-; simpl; tauto|].
      unfold task_step at 1, bind at 1. rewrite fromDocuments_run.
      destruct (embed_documents env (ticks w2) docs);
        injection Hp as <- <-; simpl; tauto.
    + unfold task_step at 1.
      destruct (parseAndSaveDocuments env ref w2) as [[docs|e'] w3];
        [|injection Hp as <- <-; simpl; tauto].
      unfold after_documents.
      destruct (is_empty docs); [injection Hp as <- <-; simpl; tauto|].
      unfold task_step at 1, bind at 1. rewrite fromDocuments_run.
      destruct (embed_documents env (ticks w3) docs);
        injection Hp as <- <-; simpl; tauto.
  - unfold task_step at 1.
    destruct (parseAndSaveDocuments env ref w1) as [[docs|e'] w3];
      [|injection Hp as <- <-; simpl; tauto].
    unfold after_documents.
    destruct (is_empty docs); [injection Hp as <- <-; simpl; tauto|].
    unfold task_step at 1, bind at 1. rewrite fromDocuments_run.
    destruct (embed_documents env (ticks w3) docs);
      injection Hp as <- <-; simpl; tauto.
Qed.

Lemma loadParsedDocuments_not_build ref :
  respects (appends not_build) (loadParsedDocuments env ref).
Proof. unfold_manager. frame. Qed.

Lemma parseAndSaveDocuments_not_build ref :
  respects (appends not_build) (parseAndSaveDocuments env ref).
Proof. unfold_manager. frame. Qed.

(** One resumption of a call that is in the pipeline: it stays in the
    pipeline, it becomes [created] only through a build, and a build settles
    it. *)
Lemma task_step_pipeline t w0 :
  in_pipeline t = true ->
  let '(t', w1) := task_step env t w0 in
  in_pipeline t' = true
  /\ exists evs,
      trace w1 = (trace w0 ++ evs)%list
      /\ (one (created t') <= one (created t) + count is_build evs)%nat
      /\ (count is_build evs + one (settled t) <= one (settled t'))%nat.
Proof.
  destruct t as [p|p|p|p|p docs|p|p ix|p e]; simpl; try discriminate; intros _.
  - pose proof (shouldUseParsedFiles_appends env not_build p (fun _ => eq_refl) w0)
      as (evs & Htr & Hevs).
    destruct (shouldUseParsedFiles env p w0) as [[[]|e] w1]; simpl in *;
      (split; [reflexivity|]); exists evs;
      rewrite (count_none is_build evs Hevs);
      (split; [assumption|]); split; simpl; lia.
  - pose proof (loadParsedDocuments_not_build p w0) as (evs & Htr & Hevs).
    destruct (loadParsedDocuments env p w0) as [[docs|e] w1]; simpl in *.
    + unfold after_documents. destruct (is_empty docs); simpl;
        (split; [reflexivity|]); exists evs;
        rewrite (count_none is_build evs Hevs);
        (split; [assumption|]); split; simpl; lia.
    + split; [reflexivity|]. exists evs.
      rewrite (count_none is_build evs Hevs).
      split; [assumption|]. split; simpl; lia.
  - pose proof (parseAndSaveDocuments_not_build p w0) as (evs & Htr & Hevs).
    destruct (parseAndSaveDocuments env p w0) as [[docs|e] w1]; simpl in *.
    + unfold after_documents. destruct (is_empty docs); simpl;
        (split; [reflexivity|]); exists evs;
        rewrite (count_none is_build evs Hevs);
        (split; [assumption|]); split; simpl; lia.
    + split; [reflexivity|]. exists evs.
      rewrite (count_none is_build evs Hevs).
      split; [assumption|]. split; simpl; lia.
  - unfold bind at 1. rewrite fromDocuments_run.
    destruct (embed_documents env (ticks w0) docs); simpl;
      (split; [reflexivity|]); exists [EFromDocuments docs];
      (split; [reflexivity|]); split; unfold count; simpl; lia.
  - split; [reflexivity|]. exists []. rewrite List.app_nil_r.
    split; [reflexivity|]. split; unfold count; simpl; lia.
  - split; [reflexivity|]. exists []. rewrite List.app_nil_r.
    split; [reflexivity|]. split; unfold count; simpl; lia.
Qed.

Lemma tally_insert (P : Task -> bool) (ts : list Task) i t t' :
  ts !! i = Some t ->
  (tally P (<[i := t']> ts) + one (P t) = tally P ts + one (P t'))%nat.
Proof.
  unfold tally. revert i. induction ts as [|x ts IH]; intros i; [discriminate|].
  destruct i as [|i]; simpl.
  - intros [= ->]. destruct (P t), (P t'); simpl; lia.
  - intros H. specialize (IH i H). destruct (P x); simpl; lia.
Qed.

Lemma tally_all (P : Task -> bool) (ts : list Task) :
  tally P ts = 0%nat <-> List.Forall (fun t => P t = false) ts.
Proof.
  unfold tally. induction ts as [|t ts IH]; simpl.
  - split; [constructor|reflexivity].
  - destruct (P t) eqn:E; simpl.
    + split; [discriminate|]. intros H. inversion H; congruence.
    + rewrite IH. split; [now constructor|]. intros H. now inversion H.
Qed.

Lemma tally_le_length (P : Task -> bool) (ts : list Task) :
  (tally P ts <= List.length ts)%nat.
Proof. unfold tally. apply List.filter_length_le. Qed.

Lemma resume_racing w i c : racing w c -> racing w (resume env i c).
Proof.
  intros (Hall & evs & Htr & Hlo & Hhi). unfold resume.
  destruct (snd c !! i) as [t|] eqn:Hi; [|repeat split; eauto].
  assert (Hin : in_pipeline t = true).
  { rewrite List.Forall_forall in Hall. apply Hall.
    apply list_elem_of_In. eapply list_elem_of_lookup_2; eassumption. }
  pose proof (task_step_pipeline t (fst c) Hin) as Hstep.
  destruct (task_step env t (fst c)) as [t' w1].
  destruct Hstep as (Hin' & evs' & Htr' & Hc & Hs). simpl. split.
  - apply Forall_insert; [|assumption].
    apply Forall_forall. intros x Hx. rewrite List.Forall_forall in Hall.
    apply Hall. now apply list_elem_of_In.
  - exists (evs ++ evs')%list. cbn [fst snd].
    split; [rewrite Htr', Htr; now rewrite List.app_assoc|].
    rewrite count_app.
    pose proof (tally_insert created _ _ _ t' Hi).
    pose proof (tally_insert settled _ _ _ t' Hi). lia.
Qed.

Lemma run_racing w schedule c : racing w c -> racing w (run env schedule c).
Proof.
  unfold run. revert c. induction schedule as [|i schedule IH]; intros c H;
    simpl; [assumption|].
  apply IH, resume_racing, H.
Qed.

Lemma run_length schedule c :
  List.length (snd (run env schedule c)) = List.length (snd c).
Proof.
  unfold run. revert c. induction schedule as [|i schedule IH]; intros c;
    simpl; [reflexivity|].
  rewrite IH. unfold resume. destruct (snd c !! i); [|reflexivity].
  destruct (task_step env t (fst c)). simpl. apply length_insert.
Qed.

(** Begun together on paths that are not registered, all calls enter the
    pipeline. *)
Lemma begin_all_pipeline refs :
  deepseek_init env = None -> huggingface_init env = true ->
  forall pre w0,
    (forall ref, In ref refs -> documentIndices w0 !! ref = None) ->
    exists w1,
      run env (List.seq (List.length pre) (List.length refs))
        (w0, (pre ++ List.map T_start refs)%list)
      = (w1, (pre ++ List.map T_fresh refs)%list)
      /\ trace w1 = trace w0
      /\ documentIndices w1 = documentIndices w0.
Proof.
  intros Hd Hh. induction refs as [|ref refs IH]; intros pre w0 Hmiss; simpl.
  - exists w0. repeat split.
  - unfold run. simpl. unfold resume at 2. simpl.
    rewrite list_lookup_middle by reflexivity. simpl.
    rewrite configureSettings_run, Hd, Hh. simpl.
    rewrite (Hmiss ref (or_introl eq_refl)).
    replace (<[List.length pre := T_fresh ref]>
               (pre ++ T_start ref :: List.map T_start refs)%list)
      with ((pre ++ [T_fresh ref]) ++ List.map T_start refs)%list.
    2:{ rewrite <- (Nat.add_0_r (List.length pre)), insert_app_r. simpl.
        now rewrite <- List.app_assoc. }
    destruct (IH (pre ++ [T_fresh ref])%list (configured w0))
      as (w1 & Hrun & Htr & Hix).
    { intros r Hr. simpl. apply Hmiss. now right. }
    rewrite List.length_app in Hrun. simpl in Hrun.
    rewrite Nat.add_1_r in Hrun. unfold run in Hrun. rewrite Hrun.
    exists w1. rewrite <- List.app_assoc. repeat split; assumption.
Qed.

End Concurrency.

Lemma in_pipeline_not_skipped ts :
  List.Forall (fun t => in_pipeline t = true) ts -> tally skipped ts = 0%nat.
Proof.
  intros H. apply tally_all. eapply List.Forall_impl; [|exact H].
  intros [] Ht; simpl in *; congruence.
Qed.

Lemma tally_map_T_fresh (P : Task -> bool) refs :
  (forall ref, P (T_fresh ref) = false) ->
  tally P (List.map T_fresh refs) = 0%nat.
Proof.
  intros HP. apply tally_all. apply List.Forall_forall.
  intros t Ht. apply List.in_map_iff in Ht as (ref & <- & _). apply HP.
Qed.

(** C1 (as stated, refuted): two [prepareIndex] calls for one document path,
    begun together as [prepareMultipleIndices] begins them and resumed in
    turn, both settle with an index created: the parser is invoked twice and
    two indices are built. *)
Lemma concurrent_prepareIndex_duplicates :
  let c := run Sample.env [0; 1; 0; 1; 0; 1]%nat
             (begin_all Sample.env [Sample.A; Sample.A] Sample.uncached) in
  List.map outcome (snd c) = [Some (Ok tt); Some (Ok tt)]
  /\ tally created (snd c) = 2%nat
  /\ parser_invocations Sample.uncached (fst c) = 2%nat
  /\ index_builds Sample.uncached (fst c) = 2%nat.
Proof. vm_compute. repeat split. Qed.

(** C1 (amended): [prepareIndex] consults the registry once, when the call
    begins, and has no guard for builds in progress.  A call that begins
    while its document path is registered is skipped without any external
    call.  Calls that are begun together on document paths that are not
    registered all enter the pipeline, whatever the order in which the
    runtime resumes them afterwards: none is skipped, the number of index
    builds is at least the number of calls that settle with an index created
    and at most the number of settled calls, so that N calls for one document
    path that all succeed perform N index builds. *)
Theorem concurrent_prepareIndex_no_guard (env : Env) (w : World)
    (refs : list string) (schedule : list nat) :
  deepseek_init env = None -> huggingface_init env = true ->
  (forall ref, In ref refs -> documentIndices w !! ref = None) ->
  let c := run env schedule (begin_all env refs w) in
  List.length (snd c) = List.length refs
  /\ tally skipped (snd c) = 0%nat
  /\ (tally created (snd c) <= index_builds w (fst c))%nat
  /\ (index_builds w (fst c) <= tally settled (snd c))%nat
  /\ (tally created (snd c) = List.length refs ->
      index_builds w (fst c) = List.length refs)
  /\ (forall w0 ref ix,
        documentIndices w0 !! ref = Some ix ->
        task_step env (T_start ref) w0 = (T_skipped ref, configured w0)).
Proof.
  intros Hd Hh Hmiss c.
  destruct (begin_all_pipeline env refs Hd Hh [] w Hmiss)
    as (w1 & Hbegin & Htr & Hix).
  simpl in Hbegin.
  assert (Hc : c = run env schedule (w1, List.map T_fresh refs)).
  { unfold c, begin_all. now rewrite Hbegin. }
  assert (Hrace : racing w c).
  { rewrite Hc. apply run_racing. split.
    - simpl. apply List.Forall_forall. intros t Ht.
      apply List.in_map_iff in Ht as (ref & <- & _). reflexivity.
    - exists []. simpl. rewrite List.app_nil_r.
      split; [assumption|].
      rewrite (tally_map_T_fresh created) by reflexivity.
      unfold count. simpl. lia. }
  destruct Hrace as (Hall & evs & Htrc & Hlo & Hhi).
  assert (Hlen : List.length (snd c) = List.length refs).
  { rewrite Hc, run_length. simpl. apply List.length_map. }
  assert (Hbuilds : index_builds w (fst c) = count is_build evs).
  { unfold index_builds. now rewrite (events_since_app _ _ _ Htrc). }
  rewrite Hbuilds.
  split; [assumption|]. split; [now apply in_pipeline_not_skipped|].
  split; [assumption|]. split; [assumption|]. split.
  - intros Hcreated. pose proof (tally_le_length settled (snd c)). lia.
  - intros w0 ref ix Hreg. simpl.
    rewrite configureSettings_run, Hd, Hh. simpl. now rewrite Hreg.
Qed.

Lemma concurrent_prepareIndex_no_guard_witness :
  let c := run Sample.env [0; 1; 0; 1; 0; 1]%nat
             (begin_all Sample.env [Sample.A; Sample.A] Sample.uncached) in
  deepseek_init Sample.env = None
  /\ huggingface_init Sample.env = true
  /\ (forall ref, In ref [Sample.A; Sample.A] ->
        documentIndices Sample.uncached !! ref = None)
  /\ tally skipped (snd c) = 0%nat
  /\ index_builds Sample.uncached (fst c) = 2%nat.
Proof.
  intros c.
  assert (Hmiss : forall ref, In ref [Sample.A; Sample.A] ->
                    documentIndices Sample.uncached !! ref = None).
  { intros ref [<-|[<-|[]]]; vm_compute; reflexivity. }
  destruct (concurrent_prepareIndex_no_guard Sample.env Sample.uncached
              [Sample.A; Sample.A] [0; 1; 0; 1; 0; 1]%nat eq_refl eq_refl Hmiss)
    as (_ & Hskip & _ & _ & Hall & _).
  split; [reflexivity|]. split; [reflexivity|]. split; [exact Hmiss|].
  split; [exact Hskip|]. apply Hall. vm_compute. reflexivity.
Defined.

(** * Further properties of the code *)

(** ** Eviction *)

Lemma clearIndices_lookup (paths : list string) :
  forall w, exists w',
    clearIndices paths w = (Ok tt, w')
    /\ (forall p, documentIndices w' !! p
                  = if decide (p ∈ paths) then None
                    else documentIndices w !! p)
    /\ fs w' = fs w /\ trace w' = trace w /\ ticks w' = ticks w.
Proof.
  induction paths as [|q paths IH]; intros w.
  - exists w. simpl. split; [reflexivity|]. split; [|repeat split].
    intros p. destruct (decide (p ∈ [])) as [H|H];
      [now apply elem_of_nil in H|reflexivity].
  - unfold clearIndices in *. simpl. unfold bind at 1, bind at 1, get_world at 1.
    set (w1 := snd ((if hasIndex w q
                     then put_indices (delete q (documentIndices w))
                     else ret tt) w)).
    assert (Hstep : (if hasIndex w q
                     then put_indices (delete q (documentIndices w))
                     else ret tt) w = (Ok tt, w1)).
    { unfold w1. destruct (hasIndex w q); reflexivity. }
    assert (Hreg : forall p, documentIndices w1 !! p
                             = if decide (p = q) then None
                               else documentIndices w !! p).
    { intros p. unfold w1, hasIndex. case_bool_decide as Hq; simpl.
      - case_decide; subst; [apply lookup_delete_eq|now apply lookup_delete_ne].
      - case_decide; subst; [|reflexivity].
        destruct (documentIndices w !! q) eqn:E; [|reflexivity].
        exfalso. apply Hq. eauto. }
    assert (Hrest : fs w1 = fs w /\ trace w1 = trace w /\ ticks w1 = ticks w).
    { unfold w1. destruct (hasIndex w q); repeat split. }
    rewrite Hstep. destruct (IH w1) as (w' & Hrun & Hlook & Hfs & Htr & Htk).
    exists w'. split; [exact Hrun|].
    destruct Hrest as (Hfs1 & Htr1 & Htk1).
    split; [|repeat split; congruence].
    intros p. rewrite Hlook, Hreg.
    destruct (decide (p ∈ paths)) as [H1|H1], (decide (p = q)) as [H2|H2],
      (decide (p ∈ q :: paths)) as [H3|H3];
      try reflexivity; exfalso; rewrite elem_of_cons in H3; tauto.
Qed.

(** X1: [clearIndices] never throws; afterwards none of the listed paths has
    an index, every other path has the registry entry it had, and neither the
    file system (hence the parse cache) nor the trace has changed.  So
    [hasAllIndices] of a non-empty list of evicted paths is [false]. *)
Theorem clearIndices_evicts (paths : list string) (w : World) :
  exists w',
    clearIndices paths w = (Ok tt, w')
    /\ (forall p, In p paths -> hasIndex w' p = false)
    /\ (forall p, ~ In p paths ->
          documentIndices w' !! p = documentIndices w !! p)
    /\ fs w' = fs w
    /\ trace w' = trace w
    /\ (paths <> [] -> hasAllIndices w' paths = false).
Proof.
  destruct (clearIndices_lookup paths w) as (w' & Hrun & Hlook & Hfs & Htr & _).
  exists w'. split; [exact Hrun|].
  assert (Hgone : forall p, In p paths -> hasIndex w' p = false).
  { intros p Hp. unfold hasIndex. rewrite Hlook.
    case_decide as Hin; [|exfalso; apply Hin; now apply list_elem_of_In].
    apply bool_decide_eq_false. intros [x Hx]. discriminate. }
  split; [exact Hgone|]. split.
  - intros p Hp. rewrite Hlook.
    case_decide as Hin; [apply list_elem_of_In in Hin; contradiction|reflexivity].
  - split; [assumption|]. split; [assumption|].
    destruct paths as [|q paths]; [congruence|]. intros _.
    unfold hasAllIndices. simpl. now rewrite (Hgone q (or_introl eq_refl)).
Qed.

(** X2: evicting a list that names every indexed path leaves the registry
    that [clearAllIndices] leaves: the empty one. *)
Theorem clearIndices_all (paths : list string) (w : World) :
  (forall p, is_Some (documentIndices w !! p) -> In p paths) ->
  documentIndices (snd (clearIndices paths w))
  = documentIndices (snd (clearAllIndices w))
  /\ documentIndices (snd (clearAllIndices w)) = ∅.
Proof.
  intros Hcover.
  destruct (clearIndices_lookup paths w) as (w' & Hrun & Hlook & _).
  rewrite Hrun. simpl. split; [|reflexivity].
  apply map_eq. intros p. rewrite Hlook, lookup_empty.
  case_decide as Hin; [reflexivity|].
  destruct (documentIndices w !! p) eqn:E; [|reflexivity].
  exfalso. apply Hin, list_elem_of_In, Hcover. eauto.
Qed.

Lemma clearIndices_all_witness :
  let w := snd (prepareIndex Sample.env Sample.A Sample.fresh) in
  (forall p, is_Some (documentIndices w !! p) -> In p [Sample.A])
  /\ hasIndex w Sample.A = true
  /\ documentIndices (snd (clearIndices [Sample.A] w)) = ∅.
Proof.
  intros w.
  assert (Hreg : documentIndices w
                 = <[Sample.A := {| index_id := 0;
                                   index_docs := [Sample.segment] |}]> ∅)
    by (vm_compute; reflexivity).
  assert (Hcover : forall p, is_Some (documentIndices w !! p) -> In p [Sample.A]).
  { intros p. rewrite Hreg. intros [x Hx].
    destruct (decide (p = Sample.A)) as [->|Hne]; [now left|].
    rewrite lookup_insert_ne, lookup_empty in Hx by congruence. discriminate. }
  split; [exact Hcover|]. split; [vm_compute; reflexivity|].
  destruct (clearIndices_all [Sample.A] w Hcover) as [H1 H2].
  now rewrite H1.
Defined.

(** ** Getting indices *)

Section Getting.

Variable env : Env.

Lemma getIndex_not_parse p : respects (appends not_parse) (getIndex env p).
Proof.
  unfold getIndex, set_index, configureSettings, fromDocuments.
  unfold_manager. frame.
Qed.

Lemma getIndex_same_fs p : respects same_fs (getIndex env p).
Proof.
  unfold getIndex, set_index, configureSettings, fromDocuments.
  unfold_manager. frame.
Qed.

(** [getIndex] never throws; what it returns is the registry entry of the
    path afterwards; no other entry changes, and nothing at all changes when
    the path was registered. *)
Lemma getIndex_registry p w :
  exists r w',
    getIndex env p w = (Ok r, w')
    /\ documentIndices w' !! p = r
    /\ (forall q, q <> p -> documentIndices w' !! q = documentIndices w !! q)
    /\ (forall ix, documentIndices w !! p = Some ix -> w' = w).
Proof.
  unfold getIndex, bind at 1, get_world at 1.
  destruct (documentIndices w !! p) as [ix|] eqn:Hreg.
  { exists (Some ix), w. repeat split; auto. }
  unfold bind at 1. rewrite shouldUseParsedFiles_run. cbv zeta.
  set (fresh := match lookup_stats env w (sourcePath env p) with
                | Some _ => _ | None => _ end).
  destruct fresh.
  2:{ eexists None, _. split; [reflexivity|]. simpl.
      split; [assumption|]. split; [reflexivity|discriminate]. }
  unfold try_catch, bind at 1.
  match goal with
  | |- context [loadParsedDocuments env p ?w0] =>
      destruct (loadParsedDocuments_spec env p w0)
        as (rl & w1 & Hrun & _ & Hix & _ & _)
  end.
  rewrite Hrun. simpl in Hix.
  assert (Hnone : documentIndices w1 !! p = None
                  /\ (forall q, q <> p ->
                        documentIndices w1 !! q = documentIndices w !! q)
                  /\ (forall ix, @None VectorStoreIndex = Some ix -> w1 = w)).
  { rewrite Hix. split; [assumption|]. split; [reflexivity|discriminate]. }
  destruct rl as [docs|e]; [|now exists None, w1].
  destruct docs as [|d docs]; simpl; [now exists None, w1|].
  unfold bind at 1. rewrite configureSettings_run.
  destruct (deepseek_init env); [now exists None, w1|].
  destruct (huggingface_init env); [|now exists None, w1].
  unfold bind at 1. rewrite fromDocuments_run.
  destruct (embed_documents env (ticks (configured w1)) (d :: docs)).
  { eexists None, _. split; [reflexivity|]. simpl. rewrite Hix.
    split; [assumption|]. split; [reflexivity|discriminate]. }
  eexists (Some _), _. split; [reflexivity|]. simpl.
  split; [apply lookup_insert_eq|]. split; [|discriminate].
  intros q Hq. rewrite lookup_insert_ne, Hix by congruence. reflexivity.
Qed.

Lemma collect_indices_spec paths :
  forall acc w,
    (forall p ix, acc !! p = Some ix -> documentIndices w !! p = Some ix) ->
    exists result w',
      collect_indices env paths acc w = (Ok result, w')
      /\ (forall p, p ∈ paths -> result !! p = documentIndices w' !! p)
      /\ (forall p, p ∉ paths ->
            result !! p = acc !! p
            /\ documentIndices w' !! p = documentIndices w !! p)
      /\ (forall p ix, documentIndices w !! p = Some ix ->
            documentIndices w' !! p = Some ix)
      /\ fs w' = fs w
      /\ appends not_parse w w'.
Proof.
  induction paths as [|q paths IH]; intros acc w Hacc; simpl.
  - exists acc, w. split; [reflexivity|].
    split; [intros p Hp; now apply elem_of_nil in Hp|].
    split; [auto|]. split; [auto|]. split; [reflexivity|reflexivity].
  - unfold bind at 1.
    destruct (getIndex_registry q w) as (r & w1 & Hrun & Hr & Hother & Hsame).
    pose proof (getIndex_not_parse q w) as Hnp.
    pose proof (getIndex_same_fs q w) as Hfs1.
    rewrite Hrun in Hnp, Hfs1. simpl in Hnp, Hfs1. rewrite Hrun.
    set (acc' := match r with
                 | Some ix => <[q := ix]> acc
                 | None => acc
                 end).
    assert (Hmono1 : forall p ix, documentIndices w !! p = Some ix ->
                       documentIndices w1 !! p = Some ix).
    { intros p ix Hp. destruct (decide (p = q)) as [->|Hne].
      - now rewrite (Hsame ix Hp).
      - now rewrite Hother. }
    assert (Hacc' : forall p ix, acc' !! p = Some ix ->
                      documentIndices w1 !! p = Some ix).
    { intros p ix. unfold acc'. destruct r as [ixq|].
      - destruct (decide (p = q)) as [->|Hne].
        + rewrite lookup_insert_eq. intros [= <-]. exact Hr.
        + rewrite lookup_insert_ne by congruence. intros Hp.
          apply Hmono1, Hacc, Hp.
      - intros Hp. apply Hmono1, Hacc, Hp. }
    assert (Haccq : acc' !! q = r).
    { unfold acc'. destruct r as [ixq|]; [apply lookup_insert_eq|].
      destruct (acc !! q) as [ix|] eqn:E; [|reflexivity].
      rewrite (Hmono1 q ix (Hacc q ix E)) in Hr. discriminate. }
    destruct (IH acc' w1 Hacc')
      as (result & w' & Hrun' & Hin & Hout & Hmono & Hfs & Hnp').
    exists result, w'. split; [exact Hrun'|].
    split; [|split; [|split; [|split]]].
    + intros p Hp. destruct (decide (p ∈ paths)) as [Hrest|Hrest];
        [now apply Hin|].
      apply elem_of_cons in Hp as [->|Hp]; [|contradiction].
      destruct (Hout q Hrest) as [Hres Hreg]. now rewrite Hres, Hreg, Haccq.
    + intros p Hp. apply not_elem_of_cons in Hp as [Hne Hp].
      destruct (Hout p Hp) as [Hres Hreg]. rewrite Hres, Hreg. split.
      * unfold acc'. destruct r; [now rewrite lookup_insert_ne by congruence|].
        reflexivity.
      * now apply Hother.
    + intros p ix Hp. apply Hmono, Hmono1, Hp.
    + unfold same_fs in Hfs1. congruence.
    + etransitivity; eassumption.
Qed.

End Getting.

(** X3: [getMultipleIndices] never throws and never calls the parser.  The
    map it returns has exactly the listed paths that are registered when it
    returns, each with its registry entry; whatever was registered before
    stays registered with the same index, and paths that are not listed keep
    their registry state. *)
Theorem getMultipleIndices_registry (env : Env) (w : World)
    (paths : list string) :
  exists result w',
    getMultipleIndices env paths w = (Ok result, w')
    /\ (forall p, In p paths -> result !! p = documentIndices w' !! p)
    /\ (forall p, ~ In p paths ->
          result !! p = None
          /\ documentIndices w' !! p = documentIndices w !! p)
    /\ (forall p ix, documentIndices w !! p = Some ix ->
          documentIndices w' !! p = Some ix)
    /\ fs w' = fs w
    /\ parser_invocations w w' = 0%nat.
Proof.
  destruct (collect_indices_spec env paths ∅ w)
    as (result & w' & Hrun & Hin & Hout & Hmono & Hfs & evs & Htr & Hevs).
  { intros p ix Hp. rewrite lookup_empty in Hp. discriminate. }
  exists result, w'. split; [exact Hrun|].
  split; [intros p Hp; now apply Hin, list_elem_of_In|]. split.
  - intros p Hp.
    destruct (Hout p) as [Hres Hreg].
    { intros H. now apply list_elem_of_In in H. }
    rewrite Hres, lookup_empty. now split.
  - split; [exact Hmono|]. split; [exact Hfs|].
    unfold parser_invocations. rewrite (events_since_app _ _ _ Htr).
    now apply count_none.
Qed.

(** X4: after a [prepareIndex] that returned normally, [getIndex] returns the
    registered index without any external call and without changing
    anything; when the path was not registered before, that index holds at
    least one segment and is the one of the last build. *)
Theorem prepareIndex_then_getIndex (env : Env) (w : World) (ref : string)
    (w1 : World) :
  prepareIndex env ref w = (Ok tt, w1) ->
  exists ix,
    documentIndices w1 !! ref = Some ix
    /\ getIndex env ref w1 = (Ok (Some ix), w1)
    /\ hasIndex w1 ref = true
    /\ (documentIndices w !! ref = None ->
        index_docs ix <> []
        /\ List.last (trace w1) (EFromDocuments [])
           = EFromDocuments (index_docs ix)).
Proof.
  intros Hrun. rewrite prepareIndex_run, configureSettings_run in Hrun.
  assert (Hix : exists ix,
             documentIndices w1 !! ref = Some ix
             /\ (documentIndices w !! ref = None ->
                 index_docs ix <> []
                 /\ List.last (trace w1) (EFromDocuments [])
                    = EFromDocuments (index_docs ix))).
  { destruct (deepseek_init env); [discriminate|].
    destruct (huggingface_init env); [|discriminate]. simpl in Hrun.
    destruct (documentIndices w !! ref) as [ix|] eqn:Hreg.
    { injection Hrun as <-. exists ix. split; [exact Hreg|discriminate]. }
    destruct (prepare_documents env ref (configured w)) as [[docs|e] w0];
      [|discriminate].
    destruct docs as [|d docs]; [discriminate|]. simpl in Hrun.
    destruct (embed_documents env (ticks w0) (d :: docs)); [discriminate|].
    injection Hrun as <-. eexists. split; [apply lookup_insert_eq|].
    intros _. simpl. split; [discriminate|]. apply List.last_last. }
  destruct Hix as (ix & Hreg & Hbuilt). exists ix.
  split; [exact Hreg|]. split; [|split; [|exact Hbuilt]].
  - destruct (getIndex_registry env ref w1) as (r & w' & Hget & Hr & _ & Hsame).
    rewrite Hget. rewrite (Hsame ix Hreg) in *. congruence.
  - unfold hasIndex. rewrite Hreg. apply bool_decide_eq_true. eauto.
Qed.

Lemma prepareIndex_then_getIndex_witness :
  let prepared := prepareIndex Sample.env Sample.A Sample.uncached in
  prepared = (Ok tt, snd prepared)
  /\ exists ix,
      getIndex Sample.env Sample.A (snd prepared) = (Ok (Some ix), snd prepared)
      /\ index_docs ix <> [].
Proof.
  intros prepared.
  assert (Hrun : prepared = (Ok tt, snd prepared)) by (vm_compute; reflexivity).
  split; [exact Hrun|].
  destruct (prepareIndex_then_getIndex Sample.env Sample.uncached Sample.A
              (snd prepared) Hrun) as (ix & _ & Hget & _ & Hbuilt).
  exists ix. split; [exact Hget|]. apply Hbuilt. vm_compute. reflexivity.
Defined.

(** ** Parsing *)

Lemma bind_ok {A B} (m : M A) (k : A -> M B) w b w' :
  bind m k w = (Ok b, w') ->
  exists a w1, m w = (Ok a, w1) /\ k a w1 = (Ok b, w').
Proof.
  unfold bind. destruct (m w) as [[a|e] w1]; [eauto|discriminate].
Qed.

Lemma get_prop_ok v k w a w1 :
  get_prop v k w = (Ok a, w1) -> a = Js.field v k /\ w1 = w.
Proof.
  unfold get_prop. destruct (Js.nullish v); [discriminate|].
  now intros [= <- <-].
Qed.

Lemma map_m_ok {A B} (f : A -> M B) (Q : B -> Prop) :
  (forall x w y w', f x w = (Ok y, w') -> Q y) ->
  forall l w ys w', map_m f l w = (Ok ys, w') ->
    List.Forall Q ys /\ (List.length ys = List.length l)%nat.
Proof.
  intros Hf. induction l as [|x l IH]; intros w ys w' H; simpl in H.
  - injection H as <- <-. split; [constructor|reflexivity].
  - apply bind_ok in H as (y & w1 & Hy & H).
    apply bind_ok in H as (ys' & w2 & Hys & H).
    injection H as <- <-. destruct (IH _ _ _ Hys) as [Hall Hlen].
    split; [constructor; eauto|simpl; now rewrite Hlen].
Qed.

Ltac inv_bind H :=
  let a := fresh "a" in
  let w := fresh "w" in
  let Ha := fresh "Ha" in
  apply bind_ok in H as (a & w & Ha & H).

Section Parsing.

Variable env : Env.

Lemma page_document_parsed p result page w r w' :
  page_document env p result page w = (Ok r, w') ->
  forall d, r = Some d -> parsed_page p d.
Proof.
  unfold page_document. intros H d ->.
  inv_bind H. apply get_prop_ok in Ha as [-> ->].
  inv_bind H. apply get_prop_ok in Ha as [-> ->].
  inv_bind H.
  destruct (Js.or (Js.field page "text")
              (Js.or (Js.field page "md") (JStr ""))) as [| | | |s| |] eqn:Htext;
    try discriminate.
  injection Ha as <- <-.
  destruct (JsString.blank s) eqn:Hblank; simpl in H; [discriminate|].
  inv_bind H. apply get_prop_ok in Ha as [-> ->].
  inv_bind H. apply get_prop_ok in Ha as [-> ->].
  inv_bind H. rename a into processed. clear Ha.
  inv_bind H. apply get_prop_ok in Ha as [-> ->].
  inv_bind H. apply get_prop_ok in Ha as [-> ->].
  inv_bind H. apply get_prop_ok in Ha as [-> ->].
  inv_bind H. apply get_prop_ok in Ha as [-> ->].
  inv_bind H. injection H as <- <-.
  unfold new_Document, bind, tick in Ha. simpl in Ha.
  injection Ha as <- _. unfold parsed_page. simpl.
  split; [eauto|]. split; [eauto|]. repeat eexists.
Qed.

Lemma result_documents_parsed p result w docs w' :
  result_documents env p result w = (Ok docs, w') ->
  List.Forall (parsed_page p) docs.
Proof.
  unfold result_documents. intros H.
  inv_bind H. apply get_prop_ok in Ha as [-> ->].
  destruct (Js.field result "pages") as [| | | | |ps|];
    try (injection H as <- <-; constructor).
  inv_bind H. injection H as <- <-.
  apply (map_m_ok _ (fun r => forall d, r = Some d -> parsed_page p d)) in Ha
    as [Hall _]; [|intros; eapply page_document_parsed; eauto].
  clear -Hall. induction Hall as [|[d|] rs Hr _ IH]; simpl;
    [constructor| |exact IH].
  constructor; [now apply Hr|exact IH].
Qed.

Lemma saveParsedDocuments_returns p docs w :
  exists w', saveParsedDocuments env p docs w = (Ok tt, w').
Proof.
  unfold saveParsedDocuments, try_catch.
  destruct (saveParsedDocuments_try env p docs w) as [[[]|e] w']; eauto.
Qed.

Lemma saveParsedDocuments_not_parse p docs :
  respects (appends not_parse) (saveParsedDocuments env p docs).
Proof. unfold_manager. frame. Qed.

Lemma parseAndSaveDocuments_same_indices p :
  respects same_indices (parseAndSaveDocuments env p).
Proof. unfold_manager. frame. Qed.

Lemma pages_not_parse p results :
  respects (appends not_parse) (map_m (result_documents env p) results).
Proof. unfold_manager. frame. Qed.

End Parsing.

Lemma count_parse_cons ev evs :
  count is_parse (ev :: evs)
  = ((if is_parse ev then 1 else 0) + count is_parse evs)%nat.
Proof. unfold count. simpl. now destruct (is_parse ev). Qed.

(** The two ways through [parseAndSaveDocuments]. *)
Lemma parseAndSaveDocuments_paths (env : Env) (w : World) (ref : string) :
  exists r w',
    parseAndSaveDocuments env ref w = (r, w')
    /\ documentIndices w' = documentIndices w
    /\ (exists evs, trace w' = (trace w ++ ELoadJson (sourcePath env ref) :: evs)%list)
    /\ match r with
       | Ok docs =>
           (List.Forall (parsed_page ref) docs
            /\ parser_invocations w w' = 1%nat)
           \/ ((exists n, llama_loadData env n (sourcePath env ref) = Ok docs)
               /\ parser_invocations w w' = 2%nat)
       | Throw e =>
           (exists n, llama_loadData env n (sourcePath env ref) = Throw e)
           /\ parser_invocations w w' = 2%nat
       end.
Proof.
  pose proof (parseAndSaveDocuments_same_indices env ref w) as Hreg.
  unfold same_indices in Hreg.
  destruct (parseAndSaveDocuments env ref w) as [r w'] eqn:Hrun.
  simpl in Hreg. exists r, w'. split; [reflexivity|]. split; [exact Hreg|].
  unfold parseAndSaveDocuments, try_catch in Hrun.
  set (src := sourcePath env ref) in *.
  (* the body of the [try] *)
  match type of Hrun with
  | (match ?body with _ => _ end) = _ =>
      destruct body as [rb wb] eqn:Hb
  end.
  assert (Hbody : exists evs,
            trace wb = (trace w ++ ELoadJson src :: evs)%list
            /\ List.forallb not_parse evs = true
            /\ forall docs, rb = Ok docs -> List.Forall (parsed_page ref) docs).
  { unfold bind at 1, loadJson, bind at 1, emit, bind at 1, tick, of_res in Hb.
    simpl in Hb.
    destruct (llama_loadJson env (ticks w) src) as [results|e].
    2:{ injection Hb as <- <-. exists []. simpl.
        split; [reflexivity|]. split; [reflexivity|discriminate]. }
    match type of Hb with
    | ?rest ?w0 = _ =>
        assert (Happ : appends not_parse w0 (snd (rest w0)))
    end.
    { apply respects_bind; [typeclasses eauto|apply pages_not_parse|].
      intros chunks. apply respects_bind;
        [typeclasses eauto|apply saveParsedDocuments_not_parse|].
      intros _. apply respects_ret. typeclasses eauto. }
    rewrite Hb in Happ.
    destruct Happ as (evs & Htr & Hevs). simpl in Htr.
    exists evs.
    split; [rewrite Htr, <- List.app_assoc; reflexivity|].
    split; [exact Hevs|].
    intros docs ->.
    inv_bind Hb. inv_bind Hb. injection Hb as <- _.
    apply (map_m_ok _ (List.Forall (parsed_page ref))) in Ha as [Hall _];
      [|intros; eapply result_documents_parsed; eauto].
    clear -Hall. induction Hall as [|c cs Hc _ IH]; simpl; [constructor|].
    apply List.Forall_app. now split. }
  destruct Hbody as (evs & Htr & Hevs & Hparsed).
  assert (Hone : count is_parse (ELoadJson src :: evs) = 1%nat).
  { rewrite count_parse_cons. simpl. now rewrite (count_none is_parse evs Hevs). }
  destruct rb as [docs|e0].
  { injection Hrun as <- <-.
    split; [now exists evs|].
    left. split; [now apply Hparsed|].
    unfold parser_invocations. now rewrite (events_since_app _ _ _ Htr). }
  (* the fallback *)
  unfold bind at 1, loadData, bind at 1, emit, bind at 1, tick, of_res in Hrun.
  simpl in Hrun.
  assert (Htwo : forall evs', List.forallb not_parse evs' = true ->
            count is_parse (ELoadJson src :: evs ++ ELoadData src :: evs')
            = 2%nat).
  { intros evs' Hevs'. rewrite count_parse_cons, count_app, count_parse_cons.
    simpl. rewrite (count_none is_parse evs Hevs),
             (count_none is_parse evs' Hevs'). reflexivity. }
  destruct (llama_loadData env (ticks wb) src) as [docs|e] eqn:Hdata.
  2:{ injection Hrun as <- Hw'.
      assert (Htr' : trace w'
                     = (trace w ++ ELoadJson src :: evs ++ [ELoadData src])%list).
      { rewrite <- Hw'. simpl. rewrite Htr, <- List.app_assoc. reflexivity. }
      split; [eexists; exact Htr'|].
      split; [eauto|].
      unfold parser_invocations. rewrite (events_since_app _ _ _ Htr').
      now apply Htwo. }
  unfold bind at 1 in Hrun.
  match type of Hrun with
  | context [saveParsedDocuments env ref docs ?w0] =>
      pose proof (saveParsedDocuments_not_parse env ref docs w0) as Happ;
      destruct (saveParsedDocuments_returns env ref docs w0) as (ws & Hsave)
  end.
  rewrite Hsave in Happ, Hrun. simpl in Happ.
  injection Hrun as <- <-.
  destruct Happ as (evs' & Htr' & Hevs'). simpl in Htr'.
  assert (Htr'' : trace ws
                  = (trace w ++ ELoadJson src :: evs ++ ELoadData src :: evs')%list).
  { rewrite Htr', Htr, <- !List.app_assoc. reflexivity. }
  split; [eexists; exact Htr''|].
  right. split; [eauto|].
  unfold parser_invocations. rewrite (events_since_app _ _ _ Htr'').
  now apply Htwo.
Qed.


(** X6: for documents built from pages the layout flag that
    [saveParsedDocuments] records says only whether there is a document at
    all: every such document has the metadata key [page_number], which
    counts as layout information, so [hasLayoutData] is [true] exactly when
    the list is not empty. *)
Theorem hasLayoutData_of_pages (ref : string) (docs : list Document) :
  List.Forall (parsed_page ref) docs ->
  hasLayoutData docs = negb (is_empty docs).
Proof.
  intros Hall. destruct Hall as [|d docs Hd _]; [reflexivity|].
  destruct Hd as (_ & _ & pn & j & f & l & i & h & Hm).
  unfold hasLayoutData. simpl. rewrite Hm. reflexivity.
Qed.

Lemma hasLayoutData_of_pages_witness :
  let docs := match fst (parseAndSaveDocuments Sample.env Sample.A Sample.uncached) with
              | Ok docs => docs
              | Throw _ => []
              end in
  List.Forall (parsed_page Sample.A) docs
  /\ List.length docs = 1%nat
  /\ hasLayoutData docs = true.
Proof.
  intros docs.
  assert (Hdocs : docs
                  = [{| id_ := JStr "uuid-1";
                        text := JStr "Resilient consensus";
                        metadata :=
                          JObj [("page_number", Js.of_Z 1);
                                ("source_document", JStr Sample.A);
                                ("job_id", JStr "job-1");
                                ("file_path", JUndef);
                                ("layout_items", JArr []);
                                ("images", JArr []);
                                ("has_layout_data", JBool false)] |}])
    by (vm_compute; reflexivity).
  assert (Hall : List.Forall (parsed_page Sample.A) docs).
  { rewrite Hdocs. constructor; [|constructor].
    unfold parsed_page. simpl. split; [eauto|]. split; [eauto|].
    repeat eexists. }
  split; [exact Hall|]. split; [now rewrite Hdocs|].
  rewrite (hasLayoutData_of_pages Sample.A docs Hall). now rewrite Hdocs.
Defined.

(** ** Saving *)

#[export] Instance keeps_nodes_preorder spared : PreOrder (keeps_nodes spared).
Proof.
  split.
  - intros w q n H _. exact H.
  - intros w1 w2 w3 H12 H23 q n H Hq. apply H23; [|exact Hq]. now apply H12.
Qed.

Section Saving.

Variable env : Env.



Lemma mkdir_ticks p w w0 :
  mkdir env p w = (Ok tt, w0) -> ticks w0 = S (ticks w).
Proof.
  unfold mkdir, bind, emit, guard, tick, get_world, put_fs. simpl.
  destruct (fs_denied env p); simpl; [discriminate|].
  destruct (make_dirs (clock env (ticks w)) [] p (fs w)); simpl;
    [|discriminate].
  now intros [= <-].
Qed.




Lemma writeFile_ok p v w w' :
  writeFile env p v w = (Ok tt, w') ->
  fs_denied env p = false
  /\ fs w' = <[p := NFile (JsonText v) (rendered_size env v)
                       (clock env (ticks w))]> (fs w)
  /\ ticks w' = S (ticks w).
Proof.
  unfold writeFile, bind, emit, guard, tick, get_world, put_fs. simpl.
  destruct (fs_denied env p); simpl; [discriminate|].
  destruct (node_at (fs w) (List.removelast p)) as [[]|]; simpl;
    try discriminate.
  destruct (node_at (fs w) p) as [[]|]; simpl; try discriminate;
    now intros [= <-].
Qed.



(** What a save that did not fail has done. *)
Lemma saveParsedDocuments_try_inv p docs w w1 :
  saveParsedDocuments_try env p docs w = (Ok tt, w1) ->
  let paths := getParsedPaths (cwd env) p in
  exists w0 src sizeD sizeM,
    mkdir env (parsedDir paths) w = (Ok tt, w0)
    /\ lookup_stats env w0 (sourcePath env p) = Some src
    /\ fs_denied env (documentsPath paths) = false
    /\ fs_denied env (metadataPath paths) = false
    /\ fs w1
       = <[metadataPath paths
           := NFile (JsonText
                       (JObj [("documentPath", JStr p);
                              ("originalFileSize", Js.of_Z (st_size src));
                              ("originalModifiedTime",
                                JStr (toISOString env (st_mtime src)));
                              ("cachedAt",
                                JStr (toISOString env (clock env (S (ticks w)))));
                              ("documentsCount", Js.of_nat (List.length docs));
                              ("hasLayoutData", JBool (hasLayoutData docs));
                              ("layoutExtractionAttempted", JBool true)]))
                 sizeM (clock env (3 + ticks w)%nat)]>
         (<[documentsPath paths
            := NFile (JsonText
                        (Json.image
                           (JArr (List.map
                                    (fun doc => JObj [("id_", id_ doc);
                                                      ("text", text doc);
                                                      ("metadata", metadata doc)])
                                    docs))))
                 sizeD (clock env (2 + ticks w)%nat)]> (fs w0)).
Proof.
  unfold saveParsedDocuments_try. cbv zeta.
  generalize (documentsPath (getParsedPaths (cwd env) p))
             (metadataPath (getParsedPaths (cwd env) p))
             (parsedDir (getParsedPaths (cwd env) p)).
  intros dp mp dir H.
  inv_bind H. destruct a. rename w0 into w0'. rename Ha into Hmk.
  pose proof (mkdir_ticks _ _ _ Hmk) as Htk.
  inv_bind H. rewrite stat_run in Ha.
  destruct (lookup_stats env w0' (sourcePath env p)) as [src|] eqn:Hsrc;
    [|discriminate].
  injection Ha as <- <-.
  inv_bind H. unfold tick in Ha. injection Ha as <- <-. simpl in H.
  inv_bind H. injection H as <-. unfold all2 in Ha.
  match type of Ha with
  | context [writeFile env dp ?v ?w] =>
      pose proof (writeFile_ok dp v w) as H1;
      destruct (writeFile env dp v w) as [r1 w2]
  end.
  match type of Ha with
  | context [writeFile env mp ?v ?w] =>
      pose proof (writeFile_ok mp v w) as H2;
      destruct (writeFile env mp v w) as [r2 w3]
  end.
  destruct r1 as [[]|e1]; [|discriminate].
  destruct r2 as [[]|e2]; [|discriminate].
  injection Ha as _ <-.
  destruct (H1 _ eq_refl) as (Hd1 & Hfs1 & Htk1).
  destruct (H2 _ eq_refl) as (Hd2 & Hfs2 & Htk2).
  simpl in Hfs1, Htk1. rewrite Htk1 in Hfs2. rewrite Htk in *.
  exists w0', src. eexists _, _.
  split; [exact Hmk|]. split; [exact Hsrc|].
  split; [exact Hd1|]. split; [exact Hd2|].
  rewrite Hfs2, Hfs1. reflexivity.
Qed.

End Saving.


Lemma metadataPath_not_root (env : Env) (ref : string) :
  metadataPath (getParsedPaths (cwd env) ref) <> [].
Proof.
  rewrite metadataPath_push. simpl. intros H.
  apply List.app_eq_nil in H as [_ H]. discriminate.
Qed.

Lemma lookup_stats_file (env : Env) (w : World) (p : list string)
    (data : FileData) (size mtime : Z) :
  p <> [] -> fs_denied env p = false ->
  fs w !! p = Some (NFile data size mtime) ->
  lookup_stats env w p = Some {| st_size := size; st_mtime := mtime |}.
Proof.
  intros Hp Hd Hf. unfold lookup_stats.
  now rewrite Hd, node_at_lookup, Hf by assumption.
Qed.

Lemma lookup_stats_same (env : Env) (w w' : World) (p : list string) :
  fs w' !! p = fs w !! p -> lookup_stats env w' p = lookup_stats env w p.
Proof.
  intros H. unfold lookup_stats, node_at. destruct p; [reflexivity|].
  now rewrite H.
Qed.

(** X8: right after a save that did not fail, the cache of the document is
    fresh exactly when the two cache files were written no earlier than the
    source file was modified (the source being neither of the two cache
    files): the freshness check compares the source's modification time with
    the times of the two writes. *)
Theorem save_then_fresh (env : Env) (w : World) (ref : string)
    (docs : list Document) (w1 : World) :
  let paths := getParsedPaths (cwd env) ref in
  saveParsedDocuments_try env ref docs w = (Ok tt, w1) ->
  sourcePath env ref <> documentsPath paths ->
  sourcePath env ref <> metadataPath paths ->
  exists src,
    fst (stat env (sourcePath env ref) w1) = Ok src
    /\ fst (shouldUseParsedFiles env ref w1)
       = Ok ((clock env (2 + ticks w)%nat >=? st_mtime src)
             && (clock env (3 + ticks w)%nat >=? st_mtime src)).
Proof.
  intros paths Hsave Hnd Hnm.
  destruct (saveParsedDocuments_try_inv env ref docs w w1 Hsave)
    as (w0 & src & sizeD & sizeM & _ & Hsrc & Hdd & Hdm & Hfs).
  fold paths in Hdd, Hdm, Hfs.
  assert (Hs : lookup_stats env w1 (sourcePath env ref) = Some src).
  { rewrite <- Hsrc. apply lookup_stats_same. rewrite Hfs.
    now rewrite !lookup_insert_ne by congruence. }
  assert (Hd : lookup_stats env w1 (documentsPath paths)
               = Some {| st_size := sizeD;
                         st_mtime := clock env (2 + ticks w)%nat |}).
  { eapply lookup_stats_file; [apply documentsPath_not_root|exact Hdd|].
    rewrite Hfs, lookup_insert_ne, lookup_insert_eq; [reflexivity|].
    intros H. symmetry in H. revert H. apply documentsPath_neq_metadataPath. }
  assert (Hm : lookup_stats env w1 (metadataPath paths)
               = Some {| st_size := sizeM;
                         st_mtime := clock env (3 + ticks w)%nat |}).
  { eapply lookup_stats_file; [apply metadataPath_not_root|exact Hdm|].
    rewrite Hfs, lookup_insert_eq. reflexivity. }
  exists src. split; [now apply stat_ok_iff|].
  rewrite shouldUseParsedFiles_run. cbv zeta. fold paths.
  rewrite Hs, Hd, Hm. reflexivity.
Qed.

Lemma save_then_fresh_witness :
  let saved := saveParsedDocuments_try Sample.env Sample.A [Sample.segment]
                 Sample.uncached in
  saved = (Ok tt, snd saved)
  /\ fst (shouldUseParsedFiles Sample.env Sample.A (snd saved)) = Ok true.
Proof.
  intros saved.
  assert (Hsaved : saved = (Ok tt, snd saved)) by (vm_compute; reflexivity).
  split; [exact Hsaved|].
  destruct (save_then_fresh Sample.env Sample.uncached Sample.A
              [Sample.segment] (snd saved) Hsaved)
    as (src & Hsrc & Hfresh); [vm_compute; discriminate..|].
  rewrite Hfresh. f_equal.
  assert (E : fst (stat Sample.env (sourcePath Sample.env Sample.A) (snd saved))
              = Ok {| st_size := 8; st_mtime := 50 |})
    by (vm_compute; reflexivity).
  rewrite E in Hsrc. injection Hsrc as <-. vm_compute. reflexivity.
Defined.



Lemma parser_invocations_split (w w1 w' : World) evs1 evs2 :
  trace w1 = (trace w ++ evs1)%list ->
  trace w' = (trace w1 ++ evs2)%list ->
  List.forallb not_parse evs1 = true ->
  parser_invocations w w' = parser_invocations w1 w'.
Proof.
  intros H1 H2 Hevs. unfold parser_invocations.
  rewrite (events_since_app w1 w' evs2 H2).
  rewrite (events_since_app w w' (evs1 ++ evs2)).
  - rewrite count_app, (count_none is_parse evs1 Hevs). reflexivity.
  - rewrite H2, H1. now rewrite List.app_assoc.
Qed.

Lemma parseAndSaveDocuments_calls (env : Env) (w : World) (ref : string) :
  let w' := snd (parseAndSaveDocuments env ref w) in
  (exists evs, trace w' = (trace w ++ evs)%list)
  /\ (parser_invocations w w' = 1%nat \/ parser_invocations w w' = 2%nat).
Proof.
  destruct (parseAndSaveDocuments_paths env w ref)
    as (r & w' & Hrun & _ & (evs & Htr) & Hr).
  rewrite Hrun. simpl. split; [eauto|].
  destruct r; [destruct Hr as [[_ H]|[_ H]]|destruct Hr as [_ H]]; auto.
Qed.

(** X10: the segments [prepareIndex] works on come from the cache, without
    any parser call, exactly when the freshness check answers [true] and the
    cached segments file loads; otherwise [parseAndSaveDocuments] runs and
    the parser is called once or twice. *)
Theorem prepare_documents_source (env : Env) (w : World) (ref : string) :
  exists r w',
    prepare_documents env ref w = (r, w')
    /\ (parser_invocations w w' = 0%nat <->
        fst (shouldUseParsedFiles env ref w) = Ok true
        /\ cache_entries env (fs w) ref <> None)
    /\ (parser_invocations w w' <= 2)%nat
    /\ (forall items,
          fst (shouldUseParsedFiles env ref w) = Ok true ->
          cache_entries env (fs w) ref = Some items ->
          fs w' = fs w
          /\ exists docs, r = Ok docs /\ List.Forall2 loaded_from items docs).
Proof.
  unfold prepare_documents, bind at 1.
  rewrite shouldUseParsedFiles_run. cbv zeta.
  set (fresh := match lookup_stats env w (sourcePath env ref) with
                | Some _ => _ | None => _ end).
  set (w0 := log _ w).
  assert (Htr0 : trace w0 = (trace w ++ stats_of env ref)%list) by reflexivity.
  assert (Hnp0 : List.forallb not_parse (stats_of env ref) = true)
    by reflexivity.
  cbn [fst].
  destruct fresh.
  - unfold try_catch.
    destruct (loadParsedDocuments_spec env ref w0)
      as (rl & w1 & Hrun & Hfs & _ & Htr & Hr).
    rewrite Hrun. change (fs w0) with (fs w) in Hfs, Hr.
    assert (Htr1 : trace w1
                   = (trace w ++ stats_of env ref
                        ++ [EReadFile (documentsPath
                                         (getParsedPaths (cwd env) ref))])%list).
    { rewrite Htr, Htr0, <- List.app_assoc. reflexivity. }
    destruct (cache_entries env (fs w) ref) as [items|].
    + destruct Hr as (docs & -> & Hdocs).
      exists (Ok docs), w1. split; [reflexivity|].
      assert (Hzero : parser_invocations w w1 = 0%nat).
      { unfold parser_invocations. rewrite (events_since_app _ _ _ Htr1).
        now apply count_none. }
      rewrite Hzero. split; [split; [split; [reflexivity|discriminate]|reflexivity]|].
      split; [lia|]. intros items' _ [= <-]. split; [exact Hfs|eauto].
    + subst rl.
      destruct (parseAndSaveDocuments_calls env w1 ref) as ((evs & Htr') & Hcalls).
      destruct (parseAndSaveDocuments env ref w1) as [r w'] eqn:Hp.
      simpl in Htr', Hcalls.
      exists r, w'. split; [reflexivity|].
      rewrite (parser_invocations_split w w1 w' _ evs Htr1 Htr' eq_refl).
      split; [split; [intros H; lia|intros [_ H]; congruence]|].
      split; [lia|]. intros items' _ [=].
  - destruct (parseAndSaveDocuments_calls env w0 ref) as ((evs & Htr') & Hcalls).
    destruct (parseAndSaveDocuments env ref w0) as [r w'] eqn:Hp.
    simpl in Htr', Hcalls.
    exists r, w'. split; [reflexivity|].
    rewrite (parser_invocations_split w w0 w' _ evs Htr0 Htr' Hnp0).
    split; [split; [intros H; lia|intros [H _]; discriminate]|].
    split; [lia|]. intros items' [=].
Qed.

Section Together.

Variable env : Env.

(** Resuming a call that has settled changes nothing. *)
Lemma run_settled schedule w ts :
  List.Forall (fun t => settled t = true) ts ->
  run env schedule (w, ts) = (w, ts).
Proof.
  intros Hall. unfold run.
  induction schedule as [|i schedule IH]; simpl; [reflexivity|].
  replace (resume env i (w, ts)) with (w, ts); [exact IH|].
  unfold resume. simpl. destruct (ts !! i) as [t|] eqn:Hi; [|reflexivity].
  assert (Ht : settled t = true).
  { rewrite List.Forall_forall in Hall. apply Hall.
    apply list_elem_of_In. eapply list_elem_of_lookup_2; eassumption. }
  destruct t; try discriminate; simpl; now rewrite list_insert_id.
Qed.

(** Begun on registered paths, every call is skipped at once. *)
Lemma begin_all_registered refs :
  deepseek_init env = None -> huggingface_init env = true ->
  forall pre w0,
    (forall ref, In ref refs -> is_Some (documentIndices w0 !! ref)) ->
    run env (List.seq (List.length pre) (List.length refs))
      (w0, (pre ++ List.map T_start refs)%list)
    = (if is_empty refs then w0 else configured w0,
       (pre ++ List.map T_skipped refs)%list).
Proof.
  intros Hd Hh. induction refs as [|ref refs IH]; intros pre w0 Hreg; simpl.
  - reflexivity.
  - unfold run. simpl. unfold resume at 2. simpl.
    rewrite list_lookup_middle by reflexivity. simpl.
    rewrite configureSettings_run, Hd, Hh. simpl.
    destruct (Hreg ref (or_introl eq_refl)) as [ix Hix]. rewrite Hix.
    replace (<[List.length pre := T_skipped ref]>
               (pre ++ T_start ref :: List.map T_start refs)%list)
      with ((pre ++ [T_skipped ref]) ++ List.map T_start refs)%list.
    2:{ rewrite <- (Nat.add_0_r (List.length pre)), insert_app_r. simpl.
        now rewrite <- List.app_assoc. }
    specialize (IH (pre ++ [T_skipped ref])%list (configured w0)).
    rewrite List.length_app in IH. simpl in IH.
    rewrite Nat.add_1_r in IH. unfold run in IH. rewrite IH.
    + rewrite <- List.app_assoc. simpl. now destruct refs.
    + intros r Hr. simpl. apply Hreg. now right.
Qed.

(** Whether the embedding model can be set up does not depend on the
    state. *)
Lemma configureSettings_throws w e :
  fst (configureSettings env w) = Throw e ->
  forall w0, configureSettings env w0 = (Throw e, w0).
Proof.
  intros He w0. rewrite configureSettings_run in *.
  destruct (deepseek_init env); [simpl in He; congruence|].
  destruct (huggingface_init env); [discriminate|].
  simpl in He. congruence.
Qed.

(** Begun while the embedding model cannot be set up, every call is
    rejected at once. *)
Lemma begin_all_unconfigured refs e :
  (forall w0, configureSettings env w0 = (Throw e, w0)) ->
  forall pre w0,
    run env (List.seq (List.length pre) (List.length refs))
      (w0, (pre ++ List.map T_start refs)%list)
    = (w0, (pre ++ List.map (fun ref => T_failed ref e) refs)%list).
Proof.
  intros Hc.
  induction refs as [|ref refs IH]; intros pre w0; simpl.
  - reflexivity.
  - unfold run. simpl. unfold resume at 2. simpl.
    rewrite list_lookup_middle by reflexivity. simpl.
    rewrite Hc.
    replace (<[List.length pre := T_failed ref e]>
               (pre ++ T_start ref :: List.map T_start refs)%list)
      with ((pre ++ [T_failed ref e]) ++ List.map T_start refs)%list.
    2:{ rewrite <- (Nat.add_0_r (List.length pre)), insert_app_r. simpl.
        now rewrite <- List.app_assoc. }
    specialize (IH (pre ++ [T_failed ref e])%list w0).
    rewrite List.length_app in IH. simpl in IH.
    rewrite Nat.add_1_r in IH. unfold run in IH. rewrite IH.
    now rewrite <- List.app_assoc.
Qed.

End Together.

(** X11: [prepareMultipleIndices] on document paths that are all registered
    (and with the embedding model available) makes no external call: every
    [prepareIndex] call resolves as soon as it is begun, whatever the runtime
    resumes afterwards, and the registry, the files, the clock and the trace
    are as before. *)
Theorem prepareMultipleIndices_registered (env : Env) (w : World)
    (refs : list string) (schedule : list nat) :
  deepseek_init env = None -> huggingface_init env = true ->
  hasAllIndices w refs = true ->
  let c := run env schedule (begin_all env refs w) in
  snd c = List.map T_skipped refs
  /\ List.Forall (fun t => outcome t = Some (Ok tt)) (snd c)
  /\ documentIndices (fst c) = documentIndices w
  /\ fs (fst c) = fs w
  /\ ticks (fst c) = ticks w
  /\ trace (fst c) = trace w.
Proof.
  intros Hd Hh Hall c. subst c. unfold begin_all.
  pose proof (begin_all_registered env refs Hd Hh [] w) as Hb.
  simpl in Hb. rewrite Hb.
  2:{ intros ref Hin. unfold hasAllIndices in Hall.
      rewrite List.forallb_forall in Hall. specialize (Hall ref Hin).
      unfold hasIndex in Hall. now apply bool_decide_eq_true in Hall. }
  rewrite run_settled.
  2:{ apply List.Forall_forall. intros t Ht.
      apply List.in_map_iff in Ht as (ref & <- & _). reflexivity. }
  simpl. split; [reflexivity|]. split.
  - apply List.Forall_forall. intros t Ht.
    apply List.in_map_iff in Ht as (ref & <- & _). reflexivity.
  - destruct refs; repeat split.
Qed.

Lemma prepareMultipleIndices_registered_witness :
  let w := snd (prepareIndex Sample.env Sample.A Sample.fresh) in
  let c := run Sample.env [1%nat; 0%nat; 1%nat]
             (begin_all Sample.env [Sample.A; Sample.A] w) in
  hasAllIndices w [Sample.A; Sample.A] = true
  /\ snd c = [T_skipped Sample.A; T_skipped Sample.A]
  /\ trace (fst c) = trace w.
Proof.
  intros w c.
  assert (Hall : hasAllIndices w [Sample.A; Sample.A] = true)
    by (vm_compute; reflexivity).
  split; [exact Hall|].
  destruct (prepareMultipleIndices_registered Sample.env w
              [Sample.A; Sample.A] [1%nat; 0%nat; 1%nat]
              eq_refl eq_refl Hall) as (H1 & _ & _ & _ & _ & H2).
  split; [exact H1|exact H2].
Defined.

(** X12: when [configureSettings] throws (the LLM or the embedding model
    cannot be set up), [prepareMultipleIndices] rejects every [prepareIndex]
    call with that failure as soon as it is begun; no file is read, no parser
    is called and nothing is registered, whatever the runtime resumes
    afterwards. *)
Theorem prepareMultipleIndices_unconfigured (env : Env) (w : World)
    (refs : list string) (schedule : list nat) (e : Exn) :
  fst (configureSettings env w) = Throw e ->
  run env schedule (begin_all env refs w)
  = (w, List.map (fun ref => T_failed ref e) refs).
Proof.
  intros He. unfold begin_all.
  pose proof (begin_all_unconfigured env refs e
                (configureSettings_throws env w e He) [] w) as Hb.
  simpl in Hb. rewrite Hb.
  apply run_settled. apply List.Forall_forall. intros t Ht.
  apply List.in_map_iff in Ht as (ref & <- & _). reflexivity.
Qed.

Lemma prepareMultipleIndices_unconfigured_witness :
  run env_offline [1%nat; 0%nat]
    (begin_all env_offline [Sample.A; Sample.B] Sample.uncached)
  = (Sample.uncached,
     [T_failed Sample.A EmbeddingInitFailed;
      T_failed Sample.B EmbeddingInitFailed]).
Proof.
  apply (prepareMultipleIndices_unconfigured env_offline Sample.uncached
           [Sample.A; Sample.B] [1%nat; 0%nat] EmbeddingInitFailed).
  reflexivity.
Defined.

Lemma chunk_of_length env f refs chunks1 chunks2 :
  List.Forall2 (chunk_of env f) refs chunks1 ->
  List.Forall2 (chunk_of env f) refs chunks2 ->
  List.length (List.concat chunks1) = List.length (List.concat chunks2).
Proof.
  intros H1. revert chunks2.
  induction H1 as [|ref c1 refs chunks1 Hc1 _ IH]; intros chunks2 H2;
    inversion H2 as [|? c2 ? chunks2' Hc2 H2']; subst; simpl; [reflexivity|].
  rewrite !List.length_app, (IH _ H2'). f_equal.
  unfold chunk_of in Hc1, Hc2.
  destruct (cache_entries env f ref) as [items|]; [|now subst].
  destruct Hc1 as (d1 & Hd1 & ->), Hc2 as (d2 & Hd2 & ->).
  rewrite !List.length_map.
  apply Forall2_length in Hd1, Hd2. congruence.
Qed.

(** One [getCombinedIndex] call, whatever its outcome. *)
Lemma getCombinedIndex_frame (env : Env) (refs : list string) (w0 : World) :
  exists r w' chunks,
    getCombinedIndex env refs w0 = (r, w')
    /\ List.Forall2 (chunk_of env (fs w0)) refs chunks
    /\ documentIndices w' = documentIndices w0 /\ fs w' = fs w0
    /\ (exists evs, trace w' = (trace w0 ++ reads_of env refs ++ evs)%list)
    /\ (r = Ok None <-> List.concat chunks = [])
    /\ (forall ix, r = Ok (Some ix) -> index_docs ix = List.concat chunks).
Proof.
  destruct (getCombinedIndex_spec env refs w0)
    as (chunks & w1 & Hch & Hfs & Hix & Htr & Heq).
  rewrite Heq.
  assert (Hpure : exists evs, trace w1 = (trace w0 ++ reads_of env refs ++ evs)%list).
  { exists []. now rewrite List.app_nil_r. }
  destruct (is_empty (List.concat chunks)) eqn:Hemp.
  { apply is_empty_true in Hemp.
    exists (Ok None), w1, chunks.
    split; [reflexivity|]. split; [assumption|]. split; [assumption|].
    split; [assumption|]. split; [assumption|].
    split; [tauto|discriminate]. }
  assert (Hne : List.concat chunks <> []).
  { intros H. apply is_empty_true in H. congruence. }
  destruct (deepseek_init env) as [e|].
  { exists (Throw e), w1, chunks.
    split; [reflexivity|]. split; [assumption|]. split; [assumption|].
    split; [assumption|]. split; [assumption|].
    split; [split; [discriminate|intros; contradiction]|discriminate]. }
  destruct (huggingface_init env).
  2:{ exists (Throw EmbeddingInitFailed), w1, chunks.
      split; [reflexivity|]. split; [assumption|]. split; [assumption|].
      split; [assumption|]. split; [assumption|].
      split; [split; [discriminate|intros; contradiction]|discriminate]. }
  eexists _, _, chunks. split; [reflexivity|].
  split; [assumption|]. split; [assumption|]. split; [assumption|].
  split; [exists [EFromDocuments (List.concat chunks)]; simpl;
          now rewrite Htr, <- List.app_assoc|].
  destruct (embed_documents env (ticks w1) (List.concat chunks)).
  - split; [split; [discriminate|intros; contradiction]|discriminate].
  - split; [split; [discriminate|intros; contradiction]|].
    intros ix [= <-]. reflexivity.
Qed.

(** X13: [getCombinedIndex] keeps nothing: whatever it returns, the
    registry and the files are as before, so the combined index is not
    registered under any path.  A second call with the same document paths
    reads every segments file again, answers [undefined] exactly when the
    first did, and an index it returns has as many segments as the first. *)
Theorem getCombinedIndex_not_retained (env : Env) (w : World)
    (refs : list string) :
  exists r1 w1 r2 w2,
    getCombinedIndex env refs w = (r1, w1)
    /\ getCombinedIndex env refs w1 = (r2, w2)
    /\ documentIndices w1 = documentIndices w /\ fs w1 = fs w
    /\ documentIndices w2 = documentIndices w /\ fs w2 = fs w
    /\ (exists evs, events_since w1 w2 = (reads_of env refs ++ evs)%list)
    /\ (r1 = Ok None <-> r2 = Ok None)
    /\ (forall ix1 ix2, r1 = Ok (Some ix1) -> r2 = Ok (Some ix2) ->
          List.length (index_docs ix1) = List.length (index_docs ix2)).
Proof.
  destruct (getCombinedIndex_frame env refs w)
    as (r1 & w1 & c1 & Hrun1 & Hch1 & Hix1 & Hfs1 & _ & Hn1 & Hs1).
  destruct (getCombinedIndex_frame env refs w1)
    as (r2 & w2 & c2 & Hrun2 & Hch2 & Hix2 & Hfs2 & (evs & Htr2) & Hn2 & Hs2).
  rewrite Hfs1 in Hch2.
  pose proof (chunk_of_length _ _ _ _ _ Hch1 Hch2) as Hlen.
  exists r1, w1, r2, w2.
  split; [assumption|]. split; [assumption|].
  split; [assumption|]. split; [assumption|].
  split; [congruence|]. split; [congruence|].
  split; [exists evs; now apply events_since_app|].
  split.
  - rewrite Hn1, Hn2. rewrite <- !List.length_zero_iff_nil. now rewrite Hlen.
  - intros ix1 ix2 E1 E2. rewrite (Hs1 _ E1), (Hs2 _ E2). exact Hlen.
Qed.

(** X14: [loadParsedDocuments] reads the segments file once and changes
    neither a file nor the registry.  It returns one document per cache
    entry, in order, each taking text, metadata and (when present) identifier
    from its entry; and whatever goes wrong (file missing or unreadable, not
    JSON, not an array, a [null] entry) it throws the one cache error. *)
Theorem loadParsedDocuments_outcome (env : Env) (w : World) (ref : string) :
  exists r w',
    loadParsedDocuments env ref w = (r, w')
    /\ fs w' = fs w /\ documentIndices w' = documentIndices w
    /\ events_since w w'
       = [EReadFile (documentsPath (getParsedPaths (cwd env) ref))]
    /\ (forall e, r = Throw e ->
          e = CacheCorrupt /\ cache_entries env (fs w) ref = None)
    /\ (forall docs, r = Ok docs ->
          exists items,
            cache_entries env (fs w) ref = Some items
            /\ List.length docs = List.length items
            /\ List.Forall2 loaded_from items docs).
Proof.
  destruct (loadParsedDocuments_spec env ref w)
    as (r & w' & Hrun & Hfs & Hix & Htr & Hr).
  exists r, w'. split; [assumption|]. split; [assumption|].
  split; [assumption|]. split; [now apply events_since_app|].
  destruct (cache_entries env (fs w) ref) as [items|].
  - destruct Hr as (docs & -> & Hdocs). split; [discriminate|].
    intros docs' [= <-]. exists items. split; [reflexivity|].
    split; [|assumption]. symmetry. eapply Forall2_length; eassumption.
  - subst r. split; [|discriminate]. intros e [= <-]. now split.
Qed.

Section Names.

Lemma pop_split_append dir s :
  slash_free s = true ->
  JsString.pop (JsString.split JsString.slash
                  (String.append dir (String JsString.slash s))) = s.
Proof.
  intros Hs. unfold JsString.pop.
  induction dir as [|c dir IH]; simpl.
  - rewrite ?Ascii.eqb_refl, split_slash_free by assumption. reflexivity.
  - pose proof (split_cons_inv JsString.slash
                  (String.append dir (String JsString.slash s))) as Hne.
    destruct (Ascii.eqb c JsString.slash).
    + destruct (JsString.split _ _) as [|x xs] eqn:E; [congruence|]. exact IH.
    + destruct (JsString.split _ _) as [|x xs] eqn:E; [congruence|].
      destruct xs as [|y ys]; [|exact IH].
      (* one component only: impossible, the slash separates two *)
      exfalso. clear IH Hne.
      revert x E. induction dir as [|d dir IHd]; simpl; intros x E.
      * rewrite ?Ascii.eqb_refl in E.
        pose proof (split_cons_inv JsString.slash s).
        destruct (JsString.split JsString.slash s); congruence.
      * pose proof (split_cons_inv JsString.slash
                      (String.append dir (String JsString.slash s))) as Hne.
        destruct (Ascii.eqb d JsString.slash).
        -- destruct (JsString.split _ _); congruence.
        -- destruct (JsString.split _ _) as [|x' xs'] eqn:E'; [congruence|].
           injection E as _ ->. eapply IHd. reflexivity.
Qed.

Lemma ext_tail_plain s : s <> "" -> plain s = true -> JsString.ext_tail s = true.
Proof.
  induction s as [|c s IH]; [congruence|]. intros _. simpl.
  intros H. apply andb_prop in H as [Hc Hs]. rewrite Hc. simpl.
  destruct s; [reflexivity|]. apply IH; [discriminate|assumption].
Qed.

Lemma ext_tail_dot s t :
  JsString.ext_tail (String.append s (String JsString.dot t)) = false.
Proof.
  induction s as [|c s IH]; simpl.
  - rewrite ?Ascii.eqb_refl, ?andb_false_r. reflexivity.
  - destruct (String.append s (String JsString.dot t)) eqn:E.
    + destruct s; discriminate.
    + rewrite IH. now rewrite andb_false_r.
Qed.

Lemma strip_extension_append name ext :
  ext <> "" -> plain ext = true ->
  JsString.strip_extension (String.append name (String JsString.dot ext)) = name.
Proof.
  intros Hne Hext. induction name as [|c name IH]; simpl.
  - rewrite ?Ascii.eqb_refl, ext_tail_plain by assumption. reflexivity.
  - rewrite ext_tail_dot, andb_false_r, IH. reflexivity.
Qed.

Lemma strip_extension_plain s : plain s = true -> JsString.strip_extension s = s.
Proof.
  induction s as [|c s IH]; simpl; [reflexivity|].
  intros H. apply andb_prop in H as [Hc Hs]. apply andb_prop in Hc as [_ Hc].
  apply negb_true_iff in Hc. rewrite Hc. simpl. now rewrite IH.
Qed.

End Names.

(** X15: the base file name of [dir/name.ext] is [name]: for a document
    path whose last component is a non-empty [name] without a slash followed
    by a dot and a non-empty extension without dot or slash, the directory
    part plays no role and only that last extension is removed.  Without any
    extension the last component is the base file name as it is. *)
Theorem fileName_of_path (dir name ext : string) :
  name <> "" -> slash_free name = true ->
  ext <> "" -> plain ext = true ->
  fileName (String.append dir
              (String JsString.slash
                 (String.append name (String JsString.dot ext)))) = name
  /\ fileName (String.append name (String JsString.dot ext)) = name
  /\ (plain name = true ->
      fileName (String.append dir (String JsString.slash name)) = name).
Proof.
  intros Hname Hsf Hext Hplain.
  assert (Hsf' : slash_free (String.append name (String JsString.dot ext)) = true).
  { clear Hname. induction name as [|c name IH]; simpl in *.
    - clear Hext. induction ext as [|d ext IHe]; simpl in *; [reflexivity|].
      apply andb_prop in Hplain as [Hd He].
      apply andb_prop in Hd as [Hd _]. rewrite Hd. simpl. now apply IHe.
    - apply andb_prop in Hsf as [Hc Hs]. rewrite Hc. simpl. now apply IH. }
  split; [|split].
  - unfold fileName. rewrite pop_split_append by assumption.
    rewrite strip_extension_append by assumption. now case_decide.
  - unfold fileName. rewrite split_slash_free by assumption.
    unfold JsString.pop. simpl.
    rewrite strip_extension_append by assumption. now case_decide.
  - intros Hp. unfold fileName. rewrite pop_split_append by assumption.
    rewrite strip_extension_plain by assumption. now case_decide.
Qed.

Lemma fileName_of_path_witness :
  fileName "documents/papers/rcc.v2.pdf" = "rcc.v2"
  /\ fileName "rcc.v2.pdf" = "rcc.v2"
  /\ fileName "documents/papers/rcc" = "rcc".
Proof.
  destruct (fileName_of_path "documents/papers" "rcc.v2" "pdf")
    as (H1 & H2 & _); try reflexivity; try discriminate.
  destruct (fileName_of_path "documents/papers" "rcc" "pdf")
    as (_ & _ & H3); try reflexivity; try discriminate.
  split; [exact H1|]. split; [exact H2|]. exact (H3 eq_refl).
Defined.

(** X16: the cache of a document never leaves the [documents] directory of
    the working directory.  It is the directory [parsed/<base file name>]
    there, holding [documents.json] and [metadata.json], unless the base
    file name is [.] or [..]: then it is [parsed] itself, or the
    [documents] directory itself. *)
Theorem cache_inside_documents (cwd r : string) :
  let root := Path.join [cwd; "documents"] in
  let paths := getParsedPaths cwd r in
  exists rest,
    parsedDir paths = (root ++ rest)%list
    /\ documentsPath paths = (root ++ rest ++ ["documents.json"])%list
    /\ metadataPath paths = (root ++ rest ++ ["metadata.json"])%list
    /\ rest = (if decide (fileName r = "..") then []
               else if decide (fileName r = ".") then ["parsed"]
               else ["parsed"; fileName r]).
Proof.
  intros root paths.
  assert (Hroot : root = (Path.join [cwd] ++ ["documents"])%list).
  { unfold root. change [cwd; "documents"] with ([cwd] ++ ["documents"])%list.
    rewrite (join_snoc _ "documents") by reflexivity.
    rewrite (push_plain _ "documents") by discriminate.
    simpl. now rewrite List.rev_involutive. }
  assert (Hdir : parsedDir paths
                 = (root ++ (if decide (fileName r = "..") then []
                             else if decide (fileName r = ".") then ["parsed"]
                             else ["parsed"; fileName r]))%list).
  { unfold paths. rewrite parsedDir_push, Hroot. unfold Path.push.
    pose proof (fileName_nonempty r).
    repeat case_decide; try congruence; simpl;
      rewrite ?List.rev_involutive, <- ?List.app_assoc; reflexivity. }
  eexists. split; [exact Hdir|]. split; [|split; [|reflexivity]].
  - unfold paths in *. rewrite documentsPath_push, Hdir.
    simpl. rewrite List.rev_involutive, <- List.app_assoc. reflexivity.
  - unfold paths in *. rewrite metadataPath_push, Hdir.
    simpl. rewrite List.rev_involutive, <- List.app_assoc. reflexivity.
Qed.

Section Links.

Import Library.

Lemma lastIndexOf_slash_free s :
  slash_free s = true -> lastIndexOf "/"%char s = None.
Proof.
  induction s as [|c s IH]; simpl; [reflexivity|].
  intros H. apply andb_prop in H as [Hc Hs]. rewrite (IH Hs).
  apply negb_true_iff in Hc. unfold JsString.slash in Hc. now rewrite Hc.
Qed.

Lemma lastIndexOf_append base last :
  slash_free last = true ->
  lastIndexOf "/"%char (String.append base (String "/"%char last))
  = Some (String.length base).
Proof.
  intros H. induction base as [|c base IH]; simpl.
  - now rewrite lastIndexOf_slash_free.
  - now rewrite IH.
Qed.

Lemma substring_prefix a b :
  String.substring 0 (String.length a) (String.append a b) = a.
Proof.
  induction a as [|c a IH]; simpl; [now destruct b|]. now rewrite IH.
Qed.

Lemma updateURL_append base last :
  slash_free last = true ->
  updateURL (String.append base (String "/"%char last))
  = String.append base "/preview".
Proof.
  intros H. unfold updateURL, substring_to.
  rewrite lastIndexOf_append by assumption. simpl default.
  now rewrite substring_prefix.
Qed.

Lemma take_id_id_string s : id_string (take_id s) = true.
Proof.
  induction s as [|c s IH]; simpl; [reflexivity|].
  destruct (id_char c) eqn:E; simpl; [now rewrite E|reflexivity].
Qed.

Lemma take_id_append id rest :
  id_string id = true ->
  take_id rest = "" ->
  take_id (String.append id rest) = id.
Proof.
  intros Hid Hrest. induction id as [|c id IH]; simpl in *; [assumption|].
  apply andb_prop in Hid as [Hc Hid]. rewrite Hc, (IH Hid). reflexivity.
Qed.

Lemma file_id_here_id s id :
  file_id_here s = Some id -> id <> "" /\ id_string id = true.
Proof.
  unfold file_id_here. destruct s as [|a [|b [|c rest]]]; try discriminate.
  destruct (String.prefix _ _); [|discriminate].
  pose proof (take_id_id_string rest) as H.
  destruct (take_id rest); [discriminate|].
  intros [= <-]. split; [discriminate|assumption].
Qed.

Lemma file_id_id s id :
  file_id s = Some id -> id <> "" /\ id_string id = true.
Proof.
  induction s as [|c s IH].
  - discriminate.
  - change (file_id (String c s))
      with (match file_id_here (String c s) with
            | Some id => Some id
            | None => file_id s
            end).
    destruct (file_id_here (String c s)) as [id'|] eqn:E.
    + intros [= <-]. eapply file_id_here_id; eassumption.
    + exact IH.
Qed.

Lemma file_id_here_not_slash a s :
  Ascii.eqb a "/"%char = false -> file_id_here (String a s) = None.
Proof.
  intros H. unfold file_id_here. destruct s as [|b [|c rest]]; try reflexivity.
  cbn [String.prefix].
  destruct (ascii_dec "/"%char a) as [<-|]; [discriminate|reflexivity].
Qed.

Lemma file_id_skip a s :
  file_id_here (String a s) = None -> file_id (String a s) = file_id s.
Proof.
  intros H.
  change (file_id (String a s))
    with (match file_id_here (String a s) with
          | Some id => Some id
          | None => file_id s
          end).
  now rewrite H.
Qed.

Lemma file_id_id_string s : id_string s = true -> file_id s = None.
Proof.
  induction s as [|c s IH]; [reflexivity|]. simpl id_string.
  intros H. apply andb_prop in H as [Hc Hs].
  rewrite file_id_skip; [now apply IH|].
  apply file_id_here_not_slash.
  destruct (Ascii.eqb c "/"%char) eqn:E; [|reflexivity].
  apply Ascii.eqb_eq in E. subst c. discriminate.
Qed.

Lemma file_id_download id :
  id_string id = true -> file_id (String.append download_prefix id) = None.
Proof.
  intros H. cbv [download_prefix String.append].
  repeat first [ rewrite file_id_skip by reflexivity
               | rewrite file_id_skip
                   by (apply file_id_here_not_slash; reflexivity) ].
  now apply file_id_id_string.
Qed.

Lemma append_cons c s t :
  String.append (String c s) t = String c (String.append s t).
Proof. reflexivity. Qed.

Lemma append_nil t : String.append "" t = t.
Proof. reflexivity. Qed.

Lemma file_id_here_before c pre rest :
  String.prefix "/d/" (String c (String.append pre "/")) = false ->
  file_id_here (String c (String.append pre (String "/"%char (String "d"%char rest))))
  = None.
Proof.
  unfold file_id_here.
  destruct pre as [|b [|c2 pre]]; rewrite ?append_cons, ?append_nil;
    cbn [String.prefix].
  - destruct (ascii_dec "/"%char c); [|reflexivity].
    destruct (ascii_dec "d"%char "/"%char); [discriminate|reflexivity].
  - intros H. rewrite H. reflexivity.
  - assert (Hnil : forall s, String.prefix "" s = true) by (now intros []).
    rewrite !Hnil.
    destruct (ascii_dec "/"%char c); [|reflexivity].
    destruct (ascii_dec "d"%char b); [|reflexivity].
    destruct (ascii_dec "/"%char c2); [discriminate|reflexivity].
Qed.

Lemma file_id_append pre id rest :
  JsString.includes (String.append pre "/") "/d/" = false ->
  id <> "" -> id_string id = true -> take_id rest = "" ->
  file_id (String.append pre (String.append "/d/" (String.append id rest)))
  = Some id.
Proof.
  intros Hpre Hne Hid Hrest. induction pre as [|c pre IH].
  - rewrite !append_cons, !append_nil.
    change (file_id (String "/" (String "d" (String "/" (String.append id rest)))))
      with (match file_id_here
                    (String "/" (String "d" (String "/" (String.append id rest))))
            with
            | Some id => Some id
            | None => file_id (String "d" (String "/" (String.append id rest)))
            end).
    unfold file_id_here. cbn [String.prefix].
    destruct (ascii_dec "/"%char "/"%char); [|congruence].
    destruct (ascii_dec "d"%char "d"%char); [|congruence].
    rewrite take_id_append by assumption.
    destruct id; [congruence|reflexivity].
  - rewrite !append_cons, !append_nil in *.
    change (JsString.includes (String c (String.append pre "/")) "/d/")
      with (String.prefix "/d/" (String c (String.append pre "/"))
            || JsString.includes (String.append pre "/") "/d/") in Hpre.
    apply orb_false_iff in Hpre as [Hhere Hlater].
    rewrite file_id_skip; [now apply IH|].
    now apply file_id_here_before.
Qed.

End Links.

(** X17: [updateURL] replaces what follows the last slash of the link by
    [preview]: for [base/last] with no slash in [last] the result is
    [base/preview]. *)
Theorem updateURL_last_segment (base last : string) :
  slash_free last = true ->
  Library.updateURL (String.append base (String "/"%char last))
  = String.append base "/preview".
Proof. apply updateURL_append. Qed.

Lemma updateURL_last_segment_witness :
  Library.updateURL "https://drive.google.com/file/d/1AbC_-9/view?usp=sharing"
  = "https://drive.google.com/file/d/1AbC_-9/preview".
Proof.
  exact (updateURL_last_segment "https://drive.google.com/file/d/1AbC_-9"
           "view?usp=sharing" eq_refl).
Defined.

(** X18: the result of [updateURL] always ends in [/preview] after a prefix
    of the link (the empty one when the link has no slash), and applying
    [updateURL] to a preview link again changes nothing. *)
Theorem updateURL_idempotent (url : string) :
  (exists base,
     String.prefix base url = true
     /\ Library.updateURL url = String.append base "/preview")
  /\ Library.updateURL (Library.updateURL url) = Library.updateURL url.
Proof.
  assert (H : exists base, String.prefix base url = true
                           /\ Library.updateURL url = String.append base "/preview").
  { unfold Library.updateURL, Library.substring_to.
    exists (String.substring 0 (default 0%nat (Library.lastIndexOf "/"%char url)) url).
    split; [|reflexivity].
    generalize (default 0%nat (Library.lastIndexOf "/"%char url)). intros n.
    revert n. induction url as [|c url IH]; intros [|n]; simpl; try reflexivity.
    destruct (ascii_dec c c); [apply IH|congruence]. }
  split; [exact H|].
  destruct H as (base & _ & ->).
  change (String.append base "/preview")
    with (String.append base (String "/"%char "preview")).
  now apply updateURL_append.
Qed.

(** X19: [convertToDownloadUrl] returns either the link as it is or the
    download address of a non-empty identifier made of letters, digits, [_]
    and [-]; a download address is never converted again, so the function is
    idempotent. *)
Theorem convertToDownloadUrl_idempotent (link : string) :
  (Library.convertToDownloadUrl link = link
   \/ exists id, id <> "" /\ Library.id_string id = true
                 /\ Library.convertToDownloadUrl link
                    = String.append Library.download_prefix id)
  /\ Library.convertToDownloadUrl (Library.convertToDownloadUrl link)
     = Library.convertToDownloadUrl link.
Proof.
  destruct (Library.file_id link) as [id|] eqn:E.
  - assert (Hc : Library.convertToDownloadUrl link
                 = String.append Library.download_prefix id)
      by (unfold Library.convertToDownloadUrl; now rewrite E).
    apply file_id_id in E as [Hne Hid]. rewrite Hc. split; [right; eauto|].
    unfold Library.convertToDownloadUrl.
    now rewrite file_id_download.
  - assert (Hc : Library.convertToDownloadUrl link = link)
      by (unfold Library.convertToDownloadUrl; now rewrite E).
    rewrite !Hc. split; [now left|reflexivity].
Qed.

(** X20: for a link [pre/d/<id><rest>] in which no [/d/] occurs before
    that place, [id] being a non-empty run of identifier characters that
    [rest] does not continue, [convertToDownloadUrl] is the download address
    of [id]. *)
Theorem convertToDownloadUrl_file_id (pre id rest : string) :
  JsString.includes (String.append pre "/") "/d/" = false ->
  id <> "" -> Library.id_string id = true -> Library.take_id rest = "" ->
  Library.convertToDownloadUrl
    (String.append pre (String.append "/d/" (String.append id rest)))
  = String.append Library.download_prefix id.
Proof.
  intros Hpre Hne Hid Hrest. unfold Library.convertToDownloadUrl.
  now rewrite file_id_append.
Qed.

Lemma convertToDownloadUrl_file_id_witness :
  Library.convertToDownloadUrl
    "https://drive.google.com/file/d/1AbC_-9/view?usp=sharing"
  = "https://drive.google.com/uc?export=download&id=1AbC_-9".
Proof.
  apply (convertToDownloadUrl_file_id "https://drive.google.com/file"
           "1AbC_-9" "/view?usp=sharing");
    [reflexivity|discriminate|reflexivity|reflexivity].
Defined.

Section Grouping.

Import Library.

Variable title_of : string -> JsVal.




End Grouping.



(** X22: a request that [validateRequest] accepts has a query and an API
    key, and the document paths the handler goes on with are a non-empty
    array: [documentPaths] itself, or the single [documentPath]. *)
Theorem validateRequest_accepts (deepSeekApiKey data : JsVal) :
  Route.validateRequest deepSeekApiKey data = Ok None ->
  Js.truthy (Js.field data "query") = true
  /\ Js.truthy deepSeekApiKey = true
  /\ exists paths,
       Route.chosen_paths data = JArr paths /\ paths <> []
       /\ (Js.truthy (Js.field data "documentPaths") = false ->
           paths = [Js.field data "documentPath"]
           /\ Js.truthy (Js.field data "documentPath") = true).
Proof.
  unfold Route.validateRequest, Route.chosen_paths, Js.or.
  destruct (Js.nullish data); [discriminate|].
  destruct (Js.truthy (Js.field data "query")); [|discriminate].
  destruct (Js.truthy (Js.field data "documentPaths")) eqn:Hps.
  - rewrite andb_false_r. simpl.
    destruct (Js.field data "documentPaths") as [| | | | |[|p ps]|];
      simpl; try discriminate.
    destruct (Js.truthy deepSeekApiKey); [|discriminate].
    intros _. split; [reflexivity|]. split; [reflexivity|].
    exists (p :: ps). split; [reflexivity|]. split; [discriminate|].
    discriminate.
  - destruct (Js.truthy (Js.field data "documentPath")) eqn:Hp;
      [|discriminate].
    simpl. destruct (Js.truthy deepSeekApiKey); [|discriminate].
    intros _. split; [reflexivity|]. split; [reflexivity|].
    eexists. split; [reflexivity|]. split; [discriminate|]. now split.
Qed.

Lemma validateRequest_accepts_witness :
  Route.chosen_paths
    (JObj [("query", JStr "What is RCC?");
           ("documentPath", JStr "documents/rcc.pdf")])
  = JArr [JStr "documents/rcc.pdf"].
Proof.
  destruct (validateRequest_accepts (JStr "sk-1")
              (JObj [("query", JStr "What is RCC?");
                     ("documentPath", JStr "documents/rcc.pdf")]) eq_refl)
    as (_ & _ & paths & Hc & _ & Hone).
  destruct (Hone eq_refl) as [-> _]. exact Hc.
Defined.

Section Fulfilled.

Variable env : Env.

Lemma task_step_path t w : task_path (fst (task_step env t w)) = task_path t.
Proof.
  destruct t as [p|p|p|p|p docs|p|p ix|p e]; simpl; try reflexivity.
  - destruct (configureSettings env w) as [[[]|e] w0]; [|reflexivity].
    destruct (documentIndices w0 !! p); reflexivity.
  - destruct (shouldUseParsedFiles env p w) as [[[]|e] w0]; reflexivity.
  - destruct (loadParsedDocuments env p w) as [[docs|e] w0]; [|reflexivity].
    unfold after_documents. destruct (is_empty docs); reflexivity.
  - destruct (parseAndSaveDocuments env p w) as [[docs|e] w0]; [|reflexivity].
    unfold after_documents. destruct (is_empty docs); reflexivity.
  - unfold bind at 1. rewrite fromDocuments_run.
    destruct (embed_documents env (ticks w) docs); reflexivity.
Qed.

(** A resumed call never removes an index. *)
Lemma task_step_grows t w q :
  is_Some (documentIndices w !! q) ->
  is_Some (documentIndices (snd (task_step env t w)) !! q).
Proof.
  intros Hq.
  destruct t as [p|p|p|p|p docs|p|p ix|p e]; simpl; try assumption.
  - rewrite configureSettings_run.
    destruct (deepseek_init env); [assumption|].
    destruct (huggingface_init env); [|assumption].
    simpl. destruct (documentIndices w !! p); assumption.
  - rewrite shouldUseParsedFiles_run.
    destruct (match lookup_stats env w (sourcePath env p) with
              | Some _ => _ | None => _ end); assumption.
  - destruct (loadParsedDocuments_spec env p w) as (r & w' & Hrun & _ & Hix & _).
    rewrite Hrun. destruct r; simpl; rewrite Hix; assumption.
  - pose proof (parseAndSaveDocuments_same_indices env p w) as Hix.
    unfold same_indices in Hix.
    destruct (parseAndSaveDocuments env p w) as [[docs|e] w']; simpl in *;
      rewrite Hix; assumption.
  - unfold bind at 1. rewrite fromDocuments_run.
    destruct (embed_documents env (ticks w) docs); simpl; [assumption|].
    destruct (decide (p = q)) as [->|Hne].
    + rewrite lookup_insert_eq. eauto.
    + rewrite lookup_insert_ne by assumption. assumption.
Qed.

(** A call that resolves finds its document path registered. *)
Lemma task_step_delivers t w t' w' :
  task_step env t w = (t', w') ->
  fulfilled t = false ->
  fulfilled t' = true ->
  is_Some (documentIndices w' !! task_path t').
Proof.
  destruct t as [p|p|p|p|p docs|p|p ix|p e]; simpl;
    try (intros [= <- <-]; discriminate).
  - rewrite configureSettings_run.
    destruct (deepseek_init env); [intros [= <- <-]; discriminate|].
    destruct (huggingface_init env); [|intros [= <- <-]; discriminate].
    destruct (documentIndices (configured w) !! p) eqn:E;
      intros [= <- <-]; [|discriminate].
    intros _ _. simpl. simpl in E. rewrite E. eauto.
  - destruct (shouldUseParsedFiles env p w) as [[[]|e] w0];
      intros [= <- <-]; discriminate.
  - destruct (loadParsedDocuments env p w) as [[docs|e] w0];
      [|intros [= <- <-]; discriminate].
    unfold after_documents. destruct (is_empty docs);
      intros [= <- <-]; discriminate.
  - destruct (parseAndSaveDocuments env p w) as [[docs|e] w0];
      [|intros [= <- <-]; discriminate].
    unfold after_documents. destruct (is_empty docs);
      intros [= <- <-]; discriminate.
  - unfold bind at 1. rewrite fromDocuments_run.
    destruct (embed_documents env (ticks w) docs);
      [intros [= <- <-]; discriminate|].
    simpl. intros [= <- <-] _ _. simpl. rewrite lookup_insert_eq. eauto.
Qed.

Lemma task_step_settled t w :
  fulfilled t = true -> task_step env t w = (t, w).
Proof. destruct t; try discriminate; reflexivity. Qed.

Lemma resume_delivered i c :
  delivered c ->
  delivered (resume env i c)
  /\ List.map task_path (snd (resume env i c)) = List.map task_path (snd c).
Proof.
  intros Hc. unfold resume.
  destruct (snd c !! i) as [t|] eqn:Hi; [|now split].
  pose proof (task_step_path t (fst c)) as Hpath.
  pose proof (task_step_grows t (fst c)) as Hgrow.
  pose proof (task_step_settled t (fst c)) as Hset.
  destruct (task_step env t (fst c)) as [t' w'] eqn:Hstep. simpl in *.
  pose proof (task_step_delivers t (fst c) t' w' Hstep) as Hdel.
  split.
  - unfold delivered in *. simpl.
    apply Forall_insert.
    + apply Forall_forall. intros x Hx Hful.
      rewrite Forall_forall in Hc. apply Hgrow. now apply Hc.
    + intros Hful. destruct (fulfilled t) eqn:Ht.
      * specialize (Hset eq_refl). injection Hset as -> ->.
        rewrite Forall_forall in Hc. apply Hc; [|assumption].
        eapply list_elem_of_lookup_2; eassumption.
      * now apply Hdel.
  - apply list_eq. intros j. rewrite !list_lookup_fmap.
    destruct (decide (i = j)) as [<-|Hne].
    + rewrite list_lookup_insert_eq by (eapply lookup_lt_Some; eassumption).
      rewrite Hi. simpl. now rewrite Hpath.
    + now rewrite list_lookup_insert_ne.
Qed.

Lemma run_delivered schedule c :
  delivered c ->
  delivered (run env schedule c)
  /\ List.map task_path (snd (run env schedule c)) = List.map task_path (snd c).
Proof.
  unfold run. revert c.
  induction schedule as [|i schedule IH]; intros c Hc; simpl; [now split|].
  destruct (resume_delivered i c Hc) as [Hd Hp].
  destruct (IH _ Hd) as [Hd' Hp']. split; [assumption|congruence].
Qed.

Lemma run_app schedule1 schedule2 c :
  run env (schedule1 ++ schedule2) c = run env schedule2 (run env schedule1 c).
Proof. unfold run. apply List.fold_left_app. Qed.

End Fulfilled.

(** X23: when every [prepareIndex] call of [prepareMultipleIndices] has
    resolved, every listed document path is registered, whatever the order
    in which the runtime resumed the calls: [hasAllIndices] of the same
    list is [true]. *)
Theorem prepareMultipleIndices_fulfilled (env : Env) (w : World)
    (refs : list string) (schedule : list nat) :
  let c := run env schedule (begin_all env refs w) in
  List.Forall (fun t => outcome t = Some (Ok tt)) (snd c) ->
  hasAllIndices (fst c) refs = true.
Proof.
  intros c Hall. unfold c, begin_all in *. clear c.
  rewrite <- run_app in *.
  destruct (run_delivered env (List.seq 0 (List.length refs) ++ schedule)
              (w, List.map T_start refs)) as [Hd Hp].
  { unfold delivered. simpl. apply List.Forall_forall. intros t Ht.
    apply List.in_map_iff in Ht as (ref & <- & _). discriminate. }
  simpl in Hp. rewrite List.map_map, List.map_id in Hp.
  set (c' := run env _ _) in *.
  unfold hasAllIndices. apply List.forallb_forall. intros ref Hin.
  rewrite <- Hp in Hin. apply List.in_map_iff in Hin as (t & <- & Ht).
  unfold hasIndex. apply bool_decide_eq_true.
  unfold delivered in Hd. rewrite List.Forall_forall in Hd, Hall.
  apply Hd; [assumption|].
  specialize (Hall t Ht). destruct t; try discriminate; reflexivity.
Qed.

Lemma prepareMultipleIndices_fulfilled_witness :
  let c := run Sample.env [0%nat; 1%nat; 0%nat; 1%nat; 0%nat; 1%nat]
             (begin_all Sample.env [Sample.A; Sample.A] Sample.fresh) in
  hasAllIndices (fst c) [Sample.A; Sample.A] = true.
Proof.
  apply (prepareMultipleIndices_fulfilled Sample.env Sample.fresh
           [Sample.A; Sample.A] [0%nat; 1%nat; 0%nat; 1%nat; 0%nat; 1%nat]).
  vm_compute. repeat constructor.
Defined.

Section Single.

Variable env : Env.

Lemma alone_settled n t w : settled t = true -> alone env n t w = (t, w).
Proof.
  intros H. induction n as [|n IH]; simpl; [reflexivity|].
  destruct t; try discriminate; exact IH.
Qed.

Lemma alone_add n m t w :
  alone env (n + m) t w
  = let '(t', w') := alone env n t w in alone env m t' w'.
Proof.
  revert t w. induction n as [|n IH]; intros t w; simpl; [reflexivity|].
  destruct (task_step env t w) as [t' w']. apply IH.
Qed.

(** With a single call the schedule only says how often it is resumed. *)
Lemma run_single schedule t w :
  run env schedule (w, [t])
  = let '(t', w') := alone env (List.count_occ Nat.eq_dec schedule 0%nat) t w in
    (w', [t']).
Proof.
  unfold run. revert t w.
  induction schedule as [|i schedule IH]; intros t w; simpl; [reflexivity|].
  destruct i as [|i]; simpl.
  - unfold resume at 2. simpl.
    destruct (task_step env t w) as [t' w']. simpl. apply IH.
  - unfold resume at 2. simpl. apply IH.
Qed.

End Single.

(** X24: [prepareMultipleIndices] on a single document path is
    [prepareIndex] on that path: once the one call has been resumed four
    times after it began (more resumptions change nothing), it has settled
    with the outcome of [prepareIndex] and the state is the one
    [prepareIndex] leaves. *)
Theorem prepareMultipleIndices_single (env : Env) (w : World) (ref : string)
    (schedule : list nat) :
  (4 <= List.count_occ Nat.eq_dec schedule 0%nat)%nat ->
  let c := run env schedule (begin_all env [ref] w) in
  fst c = snd (prepareIndex env ref w)
  /\ List.map outcome (snd c) = [Some (fst (prepareIndex env ref w))].
Proof.
  intros Hn c. subst c. unfold begin_all.
  change (List.seq 0 (List.length [ref])) with [0%nat].
  change (List.map T_start [ref]) with [T_start ref].
  pose proof (alone_is_prepareIndex env ref w) as Halone.
  change 5%nat with (1 + 4)%nat in Halone. rewrite alone_add in Halone.
  rewrite (run_single env [0%nat]).
  change (List.count_occ Nat.eq_dec [0%nat] 0%nat) with 1%nat.
  destruct (alone env 1 (T_start ref) w) as [t1 w1].
  rewrite run_single.
  replace (List.count_occ Nat.eq_dec schedule 0%nat)
    with (4 + (List.count_occ Nat.eq_dec schedule 0 - 4))%nat by lia.
  generalize (List.count_occ Nat.eq_dec schedule 0 - 4)%nat. intros k.
  rewrite alone_add.
  destruct (alone env 4 t1 w1) as [t w'].
  destruct Halone as [Hout ->].
  rewrite alone_settled by (destruct t; try discriminate; reflexivity).
  simpl. now rewrite Hout.
Qed.

Lemma prepareMultipleIndices_single_witness :
  let c := run Sample.env [0%nat; 0%nat; 1%nat; 0%nat; 0%nat; 0%nat]
             (begin_all Sample.env [Sample.A] Sample.stale) in
  fst c = snd (prepareIndex Sample.env Sample.A Sample.stale)
  /\ List.map outcome (snd c)
     = [Some (fst (prepareIndex Sample.env Sample.A Sample.stale))].
Proof.
  apply (prepareMultipleIndices_single Sample.env Sample.stale Sample.A
           [0%nat; 0%nat; 1%nat; 0%nat; 0%nat; 0%nat]).
  vm_compute. repeat constructor.
Defined.
